(** * deeph3/util.py: bin tables, masking, binning and decoding, contact
    prediction and directory splitting.

    Shallow embedding of the functions of [deeph3/util.py].  Floating-point
    numbers are modelled by exact numbers: rationals [Q] wherever the code
    only adds, multiplies, divides and compares (bin tables, binning,
    decoding), reals [R] where it exponentiates (softmax).  The bounds of
    the distance table and its decoded values are multiples of 1/4, which
    floats hold exactly; for the angle tables and the softmax the numbers
    of the model are those the code computes up to rounding.  Integer
    tensors hold [Z].  A Python exception is a [Raise] result.

    A tensor is a nested list together with its rank; a mask is a list of
    0/1 integers, on which the arithmetic of every integer dtype agrees.
    [split_dir] runs on a file system threaded through its commands; the
    path operations, the shuffle and the two floating-point operations it
    performs on the proportions (their sum, and the product with the
    number of files) are parameters of the model, so that nothing is
    assumed about rounding there; only the printing of progress is left
    out.  The assignment through a [uint8] tensor in [fill_diagonally_],
    whose meaning depends on the version of torch, is a parameter as
    well. *)

From Stdlib Require Import String.
From Stdlib Require Import List ZArith QArith Qround Reals Lia Psatz Bool.
From Stdlib Require DecimalString.
From Stdlib Require Import Sorting.Sorted Sorting.Permutation.
Import ListNotations.

(* ================================================================= *)
(** * Part I: definitions *)
(* ================================================================= *)

(** ** Python results and list indexing *)

Inductive exn : Type :=
| IndexError
| ValueError
| ZeroDivisionError
| NotImplementedError
| FileNotFoundError
| FileExistsError
| RuntimeError.

Inductive result (A : Type) : Type :=
| Ok (a : A)
| Raise (e : exn).

Arguments Ok {A} a.
Arguments Raise {A} e.

Definition bind {A B : Type} (r : result A) (k : A -> result B) : result B :=
  match r with
  | Ok a => k a
  | Raise e => Raise e
  end.

Notation "x <- r ;; k" := (bind r (fun x => k))
  (at level 61, r at next level, right associativity).

(** [l[k]] for a Python list: a negative index counts from the end, an
    index outside [-len, len) raises [IndexError]. *)
Definition py_get {A : Type} (l : list A) (k : Z) : result A :=
  let k' := (if k <? 0 then k + Z.of_nat (length l) else k)%Z in
  if (k' <? 0)%Z then Raise IndexError
  else match nth_error l (Z.to_nat k') with
       | Some a => Ok a
       | None => Raise IndexError
       end.

(** [l[k] = v] (in place in Python; the updated list here). *)
Fixpoint list_set {A : Type} (l : list A) (k : nat) (v : A) : list A :=
  match l, k with
  | [], _ => []
  | _ :: t, O => v :: t
  | h :: t, S k' => h :: list_set t k' v
  end.

Definition py_set {A : Type} (l : list A) (k : Z) (v : A) : result (list A) :=
  let k' := (if k <? 0 then k + Z.of_nat (length l) else k)%Z in
  if (k' <? 0)%Z then Raise IndexError
  else if (Z.to_nat k' <? length l)%nat then Ok (list_set l (Z.to_nat k') v)
       else Raise IndexError.

(** [range(n)]: empty when [n <= 0]. *)
Definition range (n : Z) : list Z := map Z.of_nat (seq 0 (Z.to_nat n)).

(** [enumerate(l)]: the elements paired with their positions. *)
Fixpoint enumerate_from {A : Type} (start : Z) (l : list A) : list (Z * A) :=
  match l with
  | [] => []
  | a :: t => (start, a) :: enumerate_from (start + 1) t
  end.

Definition enumerate {A : Type} (l : list A) : list (Z * A) :=
  enumerate_from 0 l.

Fixpoint mapM {A B : Type} (f : A -> result B) (l : list A)
  : result (list B) :=
  match l with
  | [] => Ok []
  | a :: t => b <- f a ;; bs <- mapM f t ;; Ok (b :: bs)
  end.

(** ** Bin tables *)

(** A bound is a float: a finite number or [float('Inf')]. *)
Inductive ext : Type :=
| Fin (q : Q)
| PInf.

(** A bin is the tuple [(lower_bound, upper_bound)]; every table of the
    module has finite lower bounds. *)
Definition bin : Type := (Q * ext)%type.

Definition lower (b : bin) : Q := fst b.
Definition upper (b : bin) : ext := snd b.

Definition fin_bin (p : Q * Q) : bin := (fst p, Fin (snd p)).

(** [x < u] for a bound [u]. *)
Definition ext_ltb (x : Q) (u : ext) : bool :=
  match u with
  | Fin q => negb (Qle_bool q x)
  | PInf => true
  end.

(** [(x >= lower_bound).__and__(x < upper_bound)] on one entry. *)
Definition in_binb (b : bin) (x : Q) : bool :=
  Qle_bool (lower b) x && ext_ltb x (upper b).

Definition in_bin (b : bin) (x : Q) : Prop :=
  (lower b <= x)%Q /\ match upper b with Fin q => (x < q)%Q | PInf => True end.

Definition half : Q := 1 # 2.

(** [get_dist_bins(num_bins)]. *)
Definition get_dist_bins (num_bins : Z) : result (list bin) :=
  let first_bin : Q := 4 in
  let bins := map (fun i => (first_bin + half * inject_Z i,
                             first_bin + half + half * inject_Z i)%Q)
                  (range (num_bins - 2)) in
  last_bin <- py_get bins (-1) ;;
  let bins := map fin_bin bins ++ [(snd last_bin, PInf)] in
  Ok ((0%Q, Fin first_bin) :: bins).

(** The table [[(first_bin + bin_width * i, first_bin + bin_width * (i + 1))
    for i in range(num_bins)]] shared by the angle tables; the division
    that computes [bin_width] raises on zero. *)
Definition equal_width_bins (first_bin span : Q) (num_bins : Z)
  : result (list bin) :=
  if (num_bins =? 0)%Z then Raise ZeroDivisionError
  else
    let bin_width := (span / inject_Z num_bins)%Q in
    Ok (map (fun i => (first_bin + bin_width * inject_Z i,
                       Fin (first_bin + bin_width * (inject_Z i + 1)))%Q)
            (range num_bins)).

Definition get_angle_bins (num_bins : Z) : result (list bin) :=
  equal_width_bins (-180) (2 * 180) num_bins.

Definition get_omega_bins (num_bins : Z) : result (list bin) :=
  equal_width_bins (-180) (2 * 180) num_bins.

Definition get_theta_bins (num_bins : Z) : result (list bin) :=
  equal_width_bins (-180) (2 * 180) num_bins.

Definition get_phi_bins (num_bins : Z) : result (list bin) :=
  equal_width_bins 0 180 num_bins.

(** [get_bin_values(bins)]. *)
Definition get_bin_values (bins : list bin) : result (list Q) :=
  let bin_values := map lower bins in
  v2 <- py_get bin_values 2 ;;
  v1 <- py_get bin_values 1 ;;
  let bin_width := ((v2 - v1) / 2)%Q in
  let bin_values := map (fun v => (v + bin_width)%Q) bin_values in
  w1 <- py_get bin_values 1 ;;
  py_set bin_values 0 (w1 - 2 * bin_width)%Q.


(** ** Tensors *)

(** A tensor of rank [n] is a list nested [n] deep (a rank-0 tensor is one
    entry); [tensor] packs the rank, which is [len(t.shape)]. *)
Fixpoint nlist (A : Type) (n : nat) : Type :=
  match n with
  | O => A
  | S k => list (nlist A k)
  end.

Record tensor (A : Type) : Type := mkTensor { rank : nat; elems : nlist A rank }.

Arguments mkTensor {A} rank elems.
Arguments rank {A} t.
Arguments elems {A} t.

Definition matrix (A : Type) : Type := list (list A).

(** Entry-wise operations on tensors of one shape. *)
Fixpoint nmap {A B : Type} (f : A -> B) (n : nat) : nlist A n -> nlist B n :=
  match n return nlist A n -> nlist B n with
  | O => f
  | S k => map (nmap f k)
  end.

Fixpoint nzip {A B C : Type} (f : A -> B -> C) (n : nat)
  : nlist A n -> nlist B n -> nlist C n :=
  match n return nlist A n -> nlist B n -> nlist C n with
  | O => f
  | S k => fun a b => map (fun p => nzip f k (fst p) (snd p)) (combine a b)
  end.

Fixpoint nmapM {A B : Type} (f : A -> result B) (n : nat)
  : nlist A n -> result (nlist B n) :=
  match n return nlist A n -> result (nlist B n) with
  | O => f
  | S k => mapM (nmapM f k)
  end.

(** [t[i0, i1, ...]] with one index per dimension. *)
Fixpoint nget {A : Type} (n : nat) : nlist A n -> list nat -> option A :=
  match n return nlist A n -> list nat -> option A with
  | O => fun a idx => match idx with [] => Some a | _ :: _ => None end
  | S k => fun l idx =>
      match idx with
      | [] => None
      | i :: idx' =>
          match nth_error l i with
          | Some s => nget k s idx'
          | None => None
          end
      end
  end.

(** [m[i, j]] of a matrix. *)
Definition mget {A : Type} (m : matrix A) (i j : nat) : option A :=
  match nth_error m i with
  | Some row => nth_error row j
  | None => None
  end.

(** The shape [(r, c)] of a matrix. *)
Definition has_shape {A : Type} (r c : nat) (m : matrix A) : Prop :=
  length m = r /\ Forall (fun row => length row = c) m.

(** [torch.zeros(t.shape, dtype=torch.long)]. *)
Definition zeros_like {A : Type} (n : nat) (t : nlist A n) : nlist Z n :=
  nmap (fun _ => 0%Z) n t.

(** [t[bool_mask] = v] for a boolean mask of the shape of [t]. *)
Definition masked_assign {A : Type} (n : nat) (t : nlist A n)
    (bool_mask : nlist bool n) (v : A) : nlist A n :=
  nzip (fun old (m : bool) => if m then v else old) n t bool_mask.

(** [v.unsqueeze(0)], [m.transpose(0, 1)] and [m.expand(r, c)]: a dimension
    of size one is repeated. *)
Definition unsqueeze0 {A : Type} (v : list A) : matrix A := [v].

Fixpoint transpose {A : Type} (m : matrix A) : matrix A :=
  match m with
  | [] => []
  | r :: rs =>
      match rs with
      | [] => map (fun x => [x]) r
      | _ :: _ => map (fun p => fst p :: snd p) (combine r (transpose rs))
      end
  end.

Definition expand1 {A : Type} (n : nat) (l : list A) : list A :=
  match l with
  | [x] => repeat x n
  | _ => l
  end.

Definition expand {A : Type} (r c : nat) (m : matrix A) : matrix A :=
  map (expand1 c) (expand1 r m).

(** [m[bool_mask] = v] for a rank-2 boolean mask over the first two
    dimensions of [m]; the shapes must agree. *)
Definition same_shape2 {A B : Type} (m : list (list A)) (bm : list (list B))
  : bool :=
  (length m =? length bm)%nat
  && forallb (fun p => (length (fst p) =? length (snd p))%nat) (combine m bm).

Definition index_put2 {A : Type} (k : nat) (m : nlist A (S (S k)))
    (bool_mask : matrix bool) (v : A) : result (nlist A (S (S k))) :=
  if same_shape2 m bool_mask
  then Ok (map (fun p =>
                  map (fun q => if (snd q : bool)
                                then nmap (fun _ => v) k (fst q)
                                else fst q)
                      (combine (fst p) (snd p)))
               (combine m bool_mask))
  else Raise IndexError.

Definition tensor_index_put {A : Type} (t : tensor A)
    (bool_mask : matrix bool) (v : A) : result (tensor A) :=
  match t with
  | mkTensor (S (S k)) m =>
      m' <- index_put2 k m bool_mask v ;; Ok (mkTensor (S (S k)) m')
  | mkTensor _ _ => Raise IndexError
  end.

(** ** Masking *)

(** The pairwise mask [v.unsqueeze(0).expand(n, n) +
    v.unsqueeze(0).transpose(0, 1).expand(n, n)]: entry [(i, j)] is
    [v[j] + v[i]]. *)
Definition pair_sum (n : nat) (v : list Z) : matrix Z :=
  let v2 := unsqueeze0 v in
  nzip Z.add 2 (expand n n v2) (expand n n (transpose v2)).

Definition gt0 (m : matrix Z) : matrix bool :=
  nmap (fun x => (0 <? x)%Z) 2 m.

(** [mask_matrix_(mat, mask, not_mask_fill_value)]. *)
Definition mask_matrix_ {A : Type} (mat : tensor A) (mask : list Z)
    (not_mask_fill_value : A) : result (tensor A) :=
  let n := length mask in
  let mask := pair_sum n mask in
  tensor_index_put mat (gt0 mask) not_mask_fill_value.

(** The block "Set masked bins to mask_fill_value" of the binning
    functions. *)
Definition fill_masked_bins (binned_matrix : tensor Z) (mask : list Z)
    (mask_fill_value : Z) : result (tensor Z) :=
  let n := length mask in
  let not_mask := nzip Z.sub 1 (repeat 1%Z n) mask in
  let not_mask := pair_sum n not_mask in
  tensor_index_put binned_matrix (gt0 not_mask) mask_fill_value.

(** ** Binning *)

(** The loop [for i, (lower_bound, upper_bound) in enumerate(bins)] that
    writes [i] on the entries of bin [i]. *)
Definition bin_step (n : nat) (x : nlist Q n) (binned : nlist Z n)
    (ib : Z * bin) : nlist Z n :=
  let '(i, (lower_bound, upper_bound)) := ib in
  let bin_mask := nzip andb n (nmap (fun v => Qle_bool lower_bound v) n x)
                       (nmap (fun v => ext_ltb v upper_bound) n x) in
  masked_assign n binned bin_mask i.

Definition bin_loop (n : nat) (bins : list bin) (x : nlist Q n)
    (binned : nlist Z n) : nlist Z n :=
  fold_left (bin_step n x) (enumerate bins) binned.

Definition bin_with (default_bins : result (list bin)) (x : tensor Q)
    (bins : option (list bin)) (mask : option (list Z))
    (mask_fill_value : Z) : result (tensor Z) :=
  bins <- match bins with Some b => Ok b | None => default_bins end ;;
  let binned_matrix :=
    mkTensor (rank x) (bin_loop (rank x) bins (elems x)
                                (zeros_like (rank x) (elems x))) in
  match mask with
  | Some mask => fill_masked_bins binned_matrix mask mask_fill_value
  | None => Ok binned_matrix
  end.

(** [bin_distance_matrix(dist_matrix, bins, mask, mask_fill_value)]. *)
Definition bin_distance_matrix (dist_matrix : tensor Q)
    (bins : option (list bin)) (mask : option (list Z))
    (mask_fill_value : Z) : result (tensor Z) :=
  bin_with (get_dist_bins 26) dist_matrix bins mask mask_fill_value.

(** [bin_euler_matrix(euler_matrix, bins, mask, mask_fill_value)]. *)
Definition bin_euler_matrix (euler_matrix : tensor Q)
    (bins : option (list bin)) (mask : option (list Z))
    (mask_fill_value : Z) : result (tensor Z) :=
  bin_with (get_angle_bins 26) euler_matrix bins mask mask_fill_value.

(** One of the four loops of [bin_dist_angle_matrix]: every iteration reads
    channel [c] of the input and writes channel [c] of the output. *)
Definition bin_channel_step (k : nat) (c : nat)
    (dist_angle_mat : list (nlist Q k))
    (acc : result (list (nlist Z k))) (ib : Z * bin)
  : result (list (nlist Z k)) :=
  binned <- acc ;;
  x <- py_get dist_angle_mat (Z.of_nat c) ;;
  old <- py_get binned (Z.of_nat c) ;;
  Ok (list_set binned c (bin_step k x old ib)).

Definition bin_channel (k : nat) (c : nat) (bins : list bin)
    (dist_angle_mat : list (nlist Q k)) (binned_matrix : list (nlist Z k))
  : result (list (nlist Z k)) :=
  fold_left (bin_channel_step k c dist_angle_mat)
            (enumerate bins) (Ok binned_matrix).

(** [bin_dist_angle_matrix(dist_angle_mat, num_bins)] on a stack of
    channels. *)
Definition bin_dist_angle_matrix (k : nat) (dist_angle_mat : list (nlist Q k))
    (num_bins : Z) : result (list (nlist Z k)) :=
  dist_bins <- get_dist_bins num_bins ;;
  omega_bins <- get_omega_bins num_bins ;;
  theta_bins <- get_theta_bins num_bins ;;
  phi_bins <- get_phi_bins num_bins ;;
  let binned_matrix := zeros_like (S k) dist_angle_mat in
  b0 <- bin_channel k 0 dist_bins dist_angle_mat binned_matrix ;;
  b1 <- bin_channel k 1 omega_bins dist_angle_mat b0 ;;
  b2 <- bin_channel k 2 theta_bins dist_angle_mat b1 ;;
  bin_channel k 3 phi_bins dist_angle_mat b2.

(** What the loop leaves on one entry [v]: the index of the last bin that
    holds [v], or the initial value. *)
Definition bin_entry (bins : list (Z * bin)) (v : Q) (init : Z) : Z :=
  fold_left (fun acc ib => if in_binb (snd ib) v then fst ib else acc)
            bins init.

(** ** Decoding *)

(** [binned_dist_mat_to_values(dist_mat, num_bins)]: [None] is Python's
    implicit return value. *)
Definition binned_dist_mat_to_values (dist_mat : tensor Z) (num_bins : Z)
  : result (option (tensor Q)) :=
  match dist_mat with
  | mkTensor 2 m =>
      bins <- get_dist_bins num_bins ;;
      dist_bin_values <- get_bin_values bins ;;
      dist_value_mat <- nmapM (py_get dist_bin_values) 2 m ;;
      Ok (Some (mkTensor 2 dist_value_mat))
  | mkTensor _ _ => Ok None
  end.

(** [binned_euler_mat_to_values(euler_mat, num_bins)]. *)
Definition binned_euler_mat_to_values (euler_mat : tensor Z) (num_bins : Z)
  : result (option (tensor Q)) :=
  match euler_mat with
  | mkTensor 3 m =>
      bins <- get_angle_bins num_bins ;;
      angle_bin_values <- get_bin_values bins ;;
      euler_value_mat <- nmapM (py_get angle_bin_values) 3 m ;;
      Ok (Some (mkTensor 3 euler_value_mat))
  | mkTensor _ _ => Ok None
  end.

(** Consecutive bins [b], [b']: [b] ends where [b'] starts. *)
Definition meets (b b' : bin) : Prop :=
  match upper b with
  | Fin u => (u == lower b')%Q
  | PInf => False
  end.

(** A bin table in the sense of the data model: each interval ends where
    the next one starts. *)
Fixpoint contiguous (bins : list bin) : Prop :=
  match bins with
  | b :: ((b' :: _) as rest) =>
      meets b b' /\ contiguous rest
  | _ => True
  end.

(** A bin whose lower bound does not exceed its upper bound. *)
Definition ordered (b : bin) : Prop :=
  match upper b with
  | Fin u => (lower b <= u)%Q
  | PInf => True
  end.

(** No value lies in two bins of the table. *)
Definition non_overlapping (bins : list bin) : Prop :=
  forall (i j : nat) (bi bj : bin) (x : Q),
    (i < j)%nat ->
    nth_error bins i = Some bi -> nth_error bins j = Some bj ->
    in_bin bi x -> in_bin bj x -> False.

(** [lower_bound < v < upper_bound]. *)
Definition strictly_inside (b : bin) (v : Q) : Prop :=
  (lower b < v)%Q
  /\ match upper b with
     | Fin u => (v < u)%Q
     | PInf => True
     end.

(** Closed form of entry [i] of [get_dist_bins(num_bins)]. *)
Definition dist_bin_at (num_bins : Z) (i : nat) : bin :=
  if (i =? 0)%nat then (0%Q, Fin 4)
  else if (Z.of_nat i <? num_bins - 1)%Z
       then ((4 + half * inject_Z (Z.of_nat i - 1))%Q,
             Fin (4 + half + half * inject_Z (Z.of_nat i - 1))%Q)
       else ((4 + half + half * inject_Z (num_bins - 3))%Q, PInf).

(** ** Probabilities and contacts *)

Definition rsum (l : list R) : R := fold_right Rplus 0%R l.

(** [nn.Softmax] along one dimension: the normalized exponentials of one
    list of logits. *)
Definition softmax (l : list R) : list R :=
  let total := rsum (map exp l) in
  map (fun x => (exp x / total)%R) l.

(** [t.unsqueeze(0)] on a tensor of any rank. *)
Definition tensor_unsqueeze0 {A : Type} (t : tensor A) : tensor A :=
  mkTensor (S (rank t)) [elems t].

(** [generate_probabilities(logits)]: from [(outmats, channels, L, L)] to
    [(outmats, L, L, channels)], then softmax over the channels. *)
Definition generate_probabilities (logits : tensor R) : result (nlist R 4) :=
  match logits with
  | mkTensor 4 t =>
      let t := map (fun outmat => transpose outmat) t in
      let t := map (fun outmat => map (fun plane => transpose plane) outmat) t in
      Ok (map (map (map softmax)) t)
  | mkTensor _ _ => Raise ValueError
  end.

(** [l[:stop]]. *)
Definition py_slice_to {A : Type} (l : list A) (stop : Z) : list A :=
  firstn (Z.to_nat (if (stop <? 0)%Z then stop + Z.of_nat (length l) else stop)) l.

(** [contact_probs(logits, ang8_bin)]. *)
Definition contact_probs (logits : tensor R) (ang8_bin : Z)
  : result (matrix R) :=
  all_probs <- generate_probabilities (tensor_unsqueeze0 logits) ;;
  probs <- py_get all_probs 0 ;;
  Ok (map (map (fun p => rsum (py_slice_to p (ang8_bin + 1)))) probs).

(** [p > 0.50]. *)
Definition gt_half (p : R) : bool :=
  if Rlt_dec (1 / 2) p then true else false.

(** [logits_to_contact_map(logits, ang8_bin)]. *)
Definition logits_to_contact_map (logits : tensor R) (ang8_bin : Z)
  : result (matrix bool) :=
  probs <- contact_probs logits ang8_bin ;;
  Ok (map (map gt_half) probs).

(** The stable [list.sort(key=...)]: elements with equal keys keep their
    order.  Only [<] on keys is used, as in Python. *)
Fixpoint insert_by {A : Type} (key : A -> R) (x : A) (l : list A) : list A :=
  match l with
  | [] => [x]
  | y :: t =>
      if Rlt_dec (key y) (key x) then y :: insert_by key x t else x :: y :: t
  end.

Fixpoint sort_by {A : Type} (key : A -> R) (l : list A) : list A :=
  match l with
  | [] => []
  | x :: t => insert_by key x (sort_by key t)
  end.

Definition contact : Type := (Z * Z * R)%type.

Definition contact_i (x : contact) : Z := fst (fst x).
Definition contact_j (x : contact) : Z := snd (fst x).
Definition contact_p (x : contact) : R := snd x.

(** The inner loop [for j, p in enumerate(row): if i < j: append]. *)
Definition pairs_of_row (i : Z) (row : list (Z * R)) : list contact :=
  flat_map (fun jp => if (i <? fst jp)%Z then [(i, fst jp, snd jp)] else [])
           row.

(** The two nested loops of [pairwise_contact_probs]. *)
Definition pairs_of_rows (rows : list (Z * list R)) : list contact :=
  flat_map (fun ir => pairs_of_row (fst ir) (enumerate (snd ir))) rows.

(** [pairwise_contact_probs(logits, ang8_bin)]. *)
Definition pairwise_contact_probs (logits : tensor R) (ang8_bin : Z)
  : result (list contact) :=
  probs <- contact_probs logits ang8_bin ;;
  let pairwise_probs := pairs_of_rows (enumerate probs) in
  Ok (sort_by (fun x => (- contact_p x)%R) pairwise_probs).

(** Following the words of the specification: the softmax-normalized
    probability of bin [c] at the pair [(i, j)], and the contact
    probability, its sum over the bins 0 to [ang8_bin] inclusive. *)
Definition logit_at (logits : list (matrix R)) (c i j : nat) : R :=
  nth j (nth i (nth c logits []) []) 0%R.

Definition bin_prob (logits : list (matrix R)) (c i j : nat) : R :=
  if (c <? length logits)%nat
  then (exp (logit_at logits c i j)
        / rsum (map (fun c' => exp (logit_at logits c' i j))
                    (seq 0 (length logits))))%R
  else 0%R.

Definition contact_prob (logits : list (matrix R)) (ang8_bin : Z)
    (i j : nat) : R :=
  rsum (map (fun c => bin_prob logits c i j) (seq 0 (Z.to_nat (ang8_bin + 1)))).

(** Ascending key, ties in the order [tie]. *)
Definition ordered_by {A : Type} (key : A -> R) (tie : A -> A -> Prop)
    (a b : A) : Prop :=
  (key a < key b)%R \/ (key a = key b /\ tie a b).

(** Descending probability, ties in row-major order of the pair. *)
Definition row_major (a b : contact) : Prop :=
  (contact_i a < contact_i b)%Z
  \/ (contact_i a = contact_i b /\ (contact_j a < contact_j b)%Z).

Definition before (a b : contact) : Prop :=
  (contact_p a > contact_p b)%R
  \/ (contact_p a = contact_p b /\ row_major a b).

(** ** Directory splitting *)

(** The part of the file system that [split_dir] touches: the paths that
    exist, and the regular files as (directory, file name). *)
Record fs : Type := mkFs {
  existing : list String.string;
  contents : list (String.string * String.string)
}.

(** A command runs on a file system and leaves one behind, also when it
    raises: what it did before the exception stays done. *)
Definition io (A : Type) : Type := fs -> result A * fs.

Definition io_ret {A : Type} (a : A) : io A := fun s => (Ok a, s).

Definition io_raise {A : Type} (e : exn) : io A := fun s => (Raise e, s).

Definition io_bind {A B : Type} (m : io A) (k : A -> io B) : io B :=
  fun s =>
    match m s with
    | (Ok a, s') => k a s'
    | (Raise e, s') => (Raise e, s')
    end.


(** [int(x)]: truncation towards zero. *)
Definition py_int (x : Q) : Z :=
  if Qle_bool 0 x then Qfloor x else Qceiling x.

(** [l[start:stop]]. *)
Definition py_slice {A : Type} (l : list A) (start stop : Z) : list A :=
  let len := Z.of_nat (length l) in
  let clamp := fun k : Z =>
                 if (k <? 0)%Z then Z.max 0 (k + len) else Z.min k len in
  let a := clamp start in
  let b := clamp stop in
  firstn (Z.to_nat (b - a)) (skipn (Z.to_nat a) l).

Section SplitDir.

(** The environment: [Path.absolute], the parent of a path, [joinpath]
    and the permutation [np.random.shuffle] applies after
    [np.random.seed(seed)]. *)
Variable absolute : String.string -> String.string.
Variable parent : String.string -> String.string.
Variable joinpath : String.string -> String.string -> String.string.
Variable shuffle :
  Z -> list (String.string * String.string)
  -> list (String.string * String.string).

(** The floating-point arithmetic of the interpreter on the proportions:
    [sum(split_proportions)] and the product [len(files) * prop].  Both
    round, and how [sum] adds depends on the version of Python. *)
Variable float_sum : list Q -> Q.
Variable float_mul : Q -> Q -> Q.

Definition path_exists (p : String.string) : io bool :=
  fun s => (Ok (existsb (String.eqb p) (existing s)), s).

(** [Path.mkdir()]: the path must be new and its parent must exist. *)
Definition mkdir (p : String.string) : io unit :=
  fun s =>
    if existsb (String.eqb p) (existing s) then (Raise FileExistsError, s)
    else if existsb (String.eqb (parent p)) (existing s)
         then (Ok tt, mkFs (p :: existing s) (contents s))
         else (Raise FileNotFoundError, s).

(** The regular files of [listdir(dir_path)]. *)
Definition listdir_files (dir_path : String.string)
  : io (list (String.string * String.string)) :=
  fun s =>
    if existsb (String.eqb dir_path) (existing s)
    then (Ok (filter (fun f => String.eqb (fst f) dir_path) (contents s)), s)
    else (Raise FileNotFoundError, s).

(** [copyfile(file.absolute(), new_dir.joinpath(file.name).absolute())]. *)
Definition copyfile (file : String.string * String.string)
    (new_dir : String.string) : io unit :=
  fun s =>
    (Ok tt, mkFs (joinpath new_dir (snd file) :: existing s)
                 ((new_dir, snd file) :: contents s)).

(** "Make each directory and throw an error if it already exists". *)
Fixpoint make_dirs (dir_names : list String.string) : io unit :=
  match dir_names with
  | [] => io_ret tt
  | dir_name :: rest =>
      io_bind (path_exists dir_name) (fun found =>
        if found : bool then io_raise ValueError
        else io_bind (mkdir dir_name) (fun _ => make_dirs rest))
  end.

(** [for file in target_files]. *)
Fixpoint copy_files (move_files : bool)
    (target_files : list (String.string * String.string))
    (new_dir : String.string) : io unit :=
  match target_files with
  | [] => io_ret tt
  | file :: rest =>
      if move_files then io_raise NotImplementedError
      else io_bind (copyfile file new_dir)
                   (fun _ => copy_files move_files rest new_dir)
  end.

(** [for i, (dir_name, prop) in enumerate(zip(dir_names, split_proportions))]. *)
Fixpoint split_loop (num_dirs : Z)
    (files : list (String.string * String.string)) (move_files : bool)
    (todo : list (Z * (String.string * Q))) (cur_index : Z) : io unit :=
  match todo with
  | [] => io_ret tt
  | (i, (dir_name, prop)) :: rest =>
      let end_index :=
        if (i =? num_dirs - 1)%Z then Z.of_nat (length files)
        else (cur_index
              + py_int (float_mul (inject_Z (Z.of_nat (length files))) prop))%Z in
      let target_files := py_slice files cur_index end_index in
      io_bind (copy_files move_files target_files dir_name)
              (fun _ => split_loop num_dirs files move_files rest end_index)
  end.

(** The target directories: [dir_names], or by default the absolute path
    of [dir_path] followed by [_split0], [_split1], ... *)
Definition target_dir_names (dir_path : String.string)
    (split_proportions : list Q) (dir_names : option (list String.string))
  : list String.string :=
  match dir_names with
  | Some names => names
  | None =>
      map (fun i =>
             String.append
               (String.append (absolute dir_path) "_split"%string)
               (DecimalString.NilZero.string_of_int (Z.to_int i)))
          (range (Z.of_nat (length split_proportions)))
  end.

(** [split_dir(dir_path, split_proportions, dir_names, seed, move_files)]. *)
Definition split_dir (dir_path : String.string) (split_proportions : list Q)
    (dir_names : option (list String.string)) (seed : Z)
    (move_files : bool) : io unit :=
  if negb (Qeq_bool (float_sum split_proportions) 1) then io_raise ValueError
  else
    let dir_names := target_dir_names dir_path split_proportions dir_names in
    io_bind (make_dirs dir_names) (fun _ =>
      io_bind (listdir_files dir_path) (fun files =>
        let files := shuffle seed files in
        split_loop (Z.of_nat (length dir_names)) files move_files
                   (enumerate (combine dir_names split_proportions)) 0)).

End SplitDir.

(** The logits of all the bins at the pair [(i, j)]. *)
Definition pair_logits (logits : list (matrix R)) (i j : nat) : list R :=
  map (fun ch : matrix R => nth j (nth i ch []) 0%R) logits.

(** ** Pairwise distances *)

(** [v.norm()] of one vector. *)
Definition vec_norm (v : list R) : R :=
  sqrt (rsum (map (fun x => (x * x)%R) v)).

(** [generate_dist_matrix(coords, mask, mask_fill_value)] on an n-by-d
    matrix of coordinates. *)
Definition generate_dist_matrix (coords : matrix R) (mask : option (list Z))
    (mask_fill_value : R) : result (matrix R) :=
  let n := length coords in
  let coords := unsqueeze0 coords in
  let row_expand := expand n n (transpose coords) in
  let col_expand := expand n n coords in
  let dist_mat :=
    nmap vec_norm 2 (nzip Rminus 3 row_expand col_expand) in
  match mask with
  | None => Ok dist_mat
  | Some mask =>
      let n := length mask in
      let not_mask := nzip Z.sub 1 (repeat 1%Z n) mask in
      let not_mask :=
        nzip Z.add 2 (expand n n (transpose (unsqueeze0 not_mask)))
             (expand n n (unsqueeze0 not_mask)) in
      index_put2 0 dist_mat (gt0 not_mask) mask_fill_value
  end.

(** ** Decoding a stack of channels *)

(** [binned_mat.shape[1]] and [binned_mat.shape[2]] of a stack of
    matrices; a stack without channels is taken to have no rows. *)
Definition shape1 {A : Type} (t : list (matrix A)) : nat :=
  match t with
  | [] => 0%nat
  | channel :: _ => length channel
  end.

Definition shape2 {A : Type} (t : list (matrix A)) : nat :=
  match t with
  | (row :: _) :: _ => length row
  | _ => 0%nat
  end.

(** One iteration of [for mat_i, bins in enumerate([...])]: the loops over
    [i] and [j] decode every entry of channel [mat_i]. *)
Definition decode_channel_step (binned_mat : list (matrix Z))
    (acc : result (list (matrix Q))) (ib : Z * list bin)
  : result (list (matrix Q)) :=
  value_mat <- acc ;;
  bin_values <- get_bin_values (snd ib) ;;
  if ((shape1 binned_mat =? 0) || (shape2 binned_mat =? 0))%nat
  then Ok value_mat
  else
    channel <- py_get binned_mat (fst ib) ;;
    values <- nmapM (py_get bin_values) 2 channel ;;
    Ok (list_set value_mat (Z.to_nat (fst ib)) values).

(** [binned_mat_to_values(binned_mat, num_bins)]. *)
Definition binned_mat_to_values (binned_mat : tensor Z) (num_bins : Z)
  : result (tensor Q) :=
  dist_bins <- get_dist_bins num_bins ;;
  omega_bins <- get_omega_bins num_bins ;;
  theta_bins <- get_theta_bins num_bins ;;
  phi_bins <- get_phi_bins num_bins ;;
  match binned_mat with
  | mkTensor 3 m =>
      value_mat <-
        fold_left (decode_channel_step m)
                  (enumerate [dist_bins; omega_bins; theta_bins; phi_bins])
                  (Ok (nmap (fun _ : Z => 0%Q) 3 m)) ;;
      Ok (mkTensor 3 value_mat)
  | mkTensor n t => Ok (mkTensor n (nmap (fun _ : Z => 0%Q) n t))
  end.

(** ** Filling along a diagonal *)

(** [row[left:right] = v] on one row of a tensor. *)
Definition py_slice_fill {A : Type} (row : list A) (left right : Z) (v : A)
  : list A :=
  let len := Z.of_nat (length row) in
  let clamp := fun k : Z =>
                 if (k <? 0)%Z then Z.max 0 (k + len) else Z.min k len in
  let a := clamp left in
  let b := clamp right in
  map (fun jx => if ((a <=? fst jx) && (fst jx <? b))%Z then v else snd jx)
      (enumerate row).

(** The bounds of row [i] for the three methods of the loop. *)
Definition diagonal_bounds (fill_method : String.string)
    (num_rows i diagonal_index : Z) : result (Z * Z) :=
  if String.eqb fill_method "below" then
    Ok (0, Z.min num_rows (Z.max (i - diagonal_index + 1) 0))%Z
  else if String.eqb fill_method "above" then
    Ok (Z.min num_rows (Z.max (i - diagonal_index) 0), num_rows)%Z
  else if String.eqb fill_method "between" then
    Ok (Z.min num_rows (Z.max (i - diagonal_index) 0),
        Z.min num_rows (Z.min (i + diagonal_index + 1) num_rows))%Z
  else Raise ValueError.

(** One iteration of [for i in range(num_rows)]. *)
Definition fill_rows_step {A : Type} (fill_method : String.string)
    (num_rows diagonal_index : Z) (fill_value : A)
    (acc : result (matrix A)) (i : Z) : result (matrix A) :=
  matrix <- acc ;;
  bounds <- diagonal_bounds fill_method num_rows i diagonal_index ;;
  row <- py_get matrix i ;;
  Ok (list_set matrix (Z.to_nat i)
               (py_slice_fill row (fst bounds) (snd bounds) fill_value)).

Definition fill_rows {A : Type} (matrix : list (list A)) (diagonal_index : Z)
    (fill_value : A) (fill_method : String.string) : result (list (list A)) :=
  let num_rows := Z.of_nat (length matrix) in
  fold_left (fill_rows_step fill_method num_rows diagonal_index fill_value)
            (range num_rows) (Ok matrix).

(** [m[mask] = v] for a [uint8] tensor [mask] of zeros and ones that
    torch reads as a boolean mask, as the versions did for which the code
    was written. *)
Definition mask_index_put {A : Type} (m : list (list A)) (mask : matrix Z)
    (v : A) : result (list (list A)) :=
  index_put2 0 m (nmap (fun x => negb (x =? 0)%Z) 2 mask) v.

(** [fill_diagonally_(matrix, diagonal_index, fill_value, fill_method)];
    the result is the matrix after the call.  The inner call of the
    'symmetric' method has method 'between', hence runs the loop on the
    matrix of ones.  [byte_index_put m mask v] stands for the assignment
    [m[mask.byte()] = v] through a [uint8] tensor: what it does depends on
    the version of torch (a boolean mask as in [mask_index_put], or an
    error), so it is a parameter. *)
Definition fill_diagonally_ {A : Type}
    (byte_index_put : list (list A) -> matrix Z -> A -> result (list (list A)))
    (matrix : list (list A))
    (diagonal_index : Z) (fill_value : A) (fill_method : String.string)
  : result (list (list A)) :=
  if String.eqb fill_method "symmetric" then
    let mask := nmap (fun _ : A => 1%Z) 2 matrix in
    mask <- fill_rows mask (diagonal_index - 1) 0%Z "between" ;;
    byte_index_put matrix mask fill_value
  else fill_rows matrix diagonal_index fill_value fill_method.

(** ** Chunks of a list *)

(** [range(start, stop, step)]. *)
Definition range3 (start stop step : Z) : result (list Z) :=
  if (step =? 0)%Z then Raise ValueError
  else
    let count :=
      if (0 <? step)%Z
      then (if (start <? stop)%Z then (stop - start + step - 1) / step else 0)%Z
      else (if (stop <? start)%Z then (start - stop - step - 1) / (- step)
            else 0)%Z in
    Ok (map (fun k => (start + Z.of_nat k * step)%Z) (seq 0 (Z.to_nat count))).

(** [chunk(l, n)]: the list of the chunks the generator yields. *)
Definition chunk {A : Type} (l : list A) (n : Z) : result (list (list A)) :=
  starts <- range3 0 (Z.of_nat (length l)) n ;;
  Ok (map (fun i => py_slice l i (i + n)) starts).

(** ** Discrete predictions *)

(** [t.max(dim)[1]] on one list: the position of the first maximal
    value. *)
Fixpoint argmax_from (best_index : Z) (best : R) (index : Z) (l : list R) : Z :=
  match l with
  | [] => best_index
  | x :: t =>
      if Rlt_dec best x then argmax_from index x (index + 1) t
      else argmax_from best_index best (index + 1) t
  end.

Definition argmax (l : list R) : result Z :=
  match l with
  | [] => Raise IndexError
  | x :: t => Ok (argmax_from 0 x 1 t)
  end.

(** [torch.round]: the nearest integer, a half going to the even one. *)
Definition round_half_even (x : R) : Z :=
  let f := Int_part x in
  let r := (x - IZR f)%R in
  if Rlt_dec r (1 / 2) then f
  else if Rlt_dec (1 / 2) r then (f + 1)%Z
  else if Z.even f then f else (f + 1)%Z.

(** [torch.sum(probs.mul(bin_indices), dim=last)] on one list, with
    [bin_indices = torch.arange(probs.shape[-1])]. *)
Definition weighted_index_sum (l : list R) : R :=
  rsum (map (fun ip => (snd ip * IZR (fst ip))%R) (enumerate l)).

(** A reduction over the last dimension of a tensor. *)
Fixpoint nreduce {A B : Type} (f : list A -> result B) (k : nat)
  : nlist A (S k) -> result (nlist B k) :=
  match k return nlist A (S k) -> result (nlist B k) with
  | O => f
  | S k' => mapM (nreduce f k')
  end.

(** [bin_matrix(in_tensor, are_logits, method)].  The rounded averages are
    floats that hold integers; they are kept as integers. *)
Definition bin_matrix (in_tensor : tensor R) (are_logits : bool)
    (method : string) : result (tensor Z) :=
  probs <- (if are_logits
            then p <- generate_probabilities in_tensor ;; Ok (mkTensor 4 p)
            else Ok in_tensor) ;;
  if String.eqb method "max" then
    match probs with
    | mkTensor (S k) e => r <- nreduce argmax k e ;; Ok (mkTensor k r)
    | mkTensor O _ => Ok (mkTensor 0 0%Z)
    end
  else if String.eqb method "avg" then
    match probs with
    | mkTensor (S k) e =>
        r <- nreduce (fun l => Ok (round_half_even (weighted_index_sum l))) k e ;;
        Ok (mkTensor k r)
    | mkTensor O _ => Raise IndexError
    end
  else Raise ValueError.

(* ================================================================= *)
(** * Part II: properties *)
(* ================================================================= *)

(** ** Lists and indexing *)

Lemma py_get_nth {A : Type} (l : list A) (k : nat) (a : A) :
  nth_error l k = Some a -> py_get l (Z.of_nat k) = Ok a.
Proof.
  intros H. unfold py_get.
  destruct (Z.ltb_spec (Z.of_nat k) 0) as [Hk | Hk]; [lia |].
  destruct (Z.ltb_spec (Z.of_nat k) 0) as [Hk' | Hk']; [lia |].
  rewrite Nat2Z.id, H. reflexivity.
Qed.

Lemma range_length (n : Z) : length (range n) = Z.to_nat n.
Proof. unfold range. now rewrite length_map, length_seq. Qed.

Lemma range_nth (n : Z) (i : nat) :
  (i < Z.to_nat n)%nat -> nth_error (range n) i = Some (Z.of_nat i).
Proof.
  intros H. unfold range.
  rewrite nth_error_map, nth_error_seq.
  destruct (Nat.ltb_spec i (Z.to_nat n)); [reflexivity | lia].
Qed.

Lemma nth_error_app_l {A : Type} (l l' : list A) (i : nat) :
  (i < length l)%nat -> nth_error (l ++ l') i = nth_error l i.
Proof. intros H. now apply nth_error_app1. Qed.

Lemma nth_error_app_last {A : Type} (l : list A) (a : A) :
  nth_error (l ++ [a]) (length l) = Some a.
Proof.
  rewrite nth_error_app2 by lia. now rewrite Nat.sub_diag.
Qed.

(** ** The distance bin table *)

Lemma get_dist_bins_unfold {num_bins : Z} :
  (3 <= num_bins)%Z ->
  get_dist_bins num_bins =
  Ok ((0%Q, Fin 4)
        :: map fin_bin
             (map (fun i => (4 + half * inject_Z i,
                             4 + half + half * inject_Z i)%Q)
                  (range (num_bins - 2)))
        ++ [((4 + half + half * inject_Z (num_bins - 3))%Q, PInf)]).
Proof.
  intros H. unfold get_dist_bins.
  set (f := fun i : Z => (4 + half * inject_Z i, 4 + half + half * inject_Z i)%Q).
  assert (Hlast : py_get (map f (range (num_bins - 2))) (-1) = Ok (f (num_bins - 3)%Z)).
  { unfold py_get. rewrite length_map, range_length. cbn [Z.ltb Z.compare].
    destruct (Z.ltb_spec (-1 + Z.of_nat (Z.to_nat (num_bins - 2))) 0); [lia |].
    rewrite nth_error_map, range_nth by lia. cbn [option_map].
    do 2 f_equal. lia. }
  rewrite Hlast. reflexivity.
Qed.

Lemma dist_bins_nth {num_bins : Z} {bins : list bin} (i : nat) :
  (3 <= num_bins)%Z ->
  get_dist_bins num_bins = Ok bins ->
  (Z.of_nat i < num_bins)%Z ->
  nth_error bins i = Some (dist_bin_at num_bins i).
Proof.
  intros H Hb Hi. rewrite get_dist_bins_unfold in Hb by exact H.
  injection Hb as <-. unfold dist_bin_at.
  destruct i as [| i]; [reflexivity |].
  cbn [nth_error Nat.eqb].
  set (f := fun i : Z => (4 + half * inject_Z i, 4 + half + half * inject_Z i)%Q).
  destruct (Z.ltb_spec (Z.of_nat (S i)) (num_bins - 1)) as [Hlt | Hge].
  - rewrite nth_error_app_l by (rewrite !length_map, range_length; lia).
    rewrite !nth_error_map, range_nth by lia. cbn [option_map].
    unfold fin_bin, f. cbn [fst snd].
    replace (Z.of_nat (S i) - 1)%Z with (Z.of_nat i) by lia. reflexivity.
  - assert (Hi' : i = length (map fin_bin (map f (range (num_bins - 2))))).
    { rewrite !length_map, range_length. lia. }
    rewrite Hi' at 1. apply nth_error_app_last.
Qed.

Lemma dist_bins_length {num_bins : Z} {bins : list bin} :
  (3 <= num_bins)%Z ->
  get_dist_bins num_bins = Ok bins ->
  Z.of_nat (length bins) = num_bins.
Proof.
  intros H Hb. rewrite get_dist_bins_unfold in Hb by exact H.
  injection Hb as <-. cbn [length].
  rewrite length_app, !length_map, range_length. cbn [length]. lia.
Qed.

(** ** Contiguous tables *)

Lemma contiguous_of_nth (bins : list bin) :
  (forall i b b', nth_error bins i = Some b ->
                  nth_error bins (S i) = Some b' -> meets b b') ->
  contiguous bins.
Proof.
  induction bins as [| b rest IH]; intros H; [exact I |].
  destruct rest as [| b' rest']; [exact I |].
  split.
  - apply (H 0%nat); reflexivity.
  - apply IH. intros i c c' Hc Hc'. apply (H (S i)); assumption.
Qed.

Lemma contiguous_nth {bins : list bin} {i : nat} {b b' : bin} :
  contiguous bins ->
  nth_error bins i = Some b -> nth_error bins (S i) = Some b' -> meets b b'.
Proof.
  revert i. induction bins as [| c rest IH]; intros i Hc Hb Hb'.
  - destruct i; discriminate.
  - destruct rest as [| c' rest'].
    + destruct i; discriminate.
    + destruct Hc as [Hm Hc]. destruct i as [| i].
      * cbn in Hb, Hb'. injection Hb as <-. injection Hb' as <-. exact Hm.
      * apply (IH i); assumption.
Qed.

(** In a contiguous table of ordered bins every bin ends at or before the
    start of each later bin. *)
Lemma contiguous_before {bins : list bin} (d i : nat) {b b' : bin} :
  contiguous bins -> Forall ordered bins ->
  nth_error bins i = Some b -> nth_error bins (S (i + d)) = Some b' ->
  exists u, upper b = Fin u /\ (u <= lower b')%Q.
Proof.
  intros Hc Ho Hb. revert b'. induction d as [| d IH]; intros b' Hb'.
  - rewrite Nat.add_0_r in Hb'.
    pose proof (contiguous_nth Hc Hb Hb') as Hm. unfold meets in Hm.
    destruct (upper b) as [u |]; [| contradiction].
    exists u. split; [reflexivity | rewrite Hm; apply Qle_refl].
  - destruct (nth_error bins (S (i + d))) as [c |] eqn:Hcd.
    + destruct (IH c eq_refl) as [u [Hu Hle]].
      replace (S (i + S d)) with (S (S (i + d))) in Hb' by lia.
      pose proof (contiguous_nth Hc Hcd Hb') as Hm.
      assert (Hoc : ordered c).
      { rewrite Forall_forall in Ho. apply Ho. eapply nth_error_In; eauto. }
      unfold meets in Hm. unfold ordered in Hoc.
      destruct (upper c) as [u' |]; [| contradiction].
      exists u. split; [exact Hu |]. rewrite <- Hm.
      eapply Qle_trans; eauto.
    + exfalso. apply nth_error_None in Hcd.
      assert (nth_error bins (S (i + S d)) <> None) by congruence.
      apply nth_error_Some in H. lia.
Qed.

Lemma contiguous_non_overlapping (bins : list bin) :
  contiguous bins -> Forall ordered bins -> non_overlapping bins.
Proof.
  intros Hc Ho i j bi bj x Hij Hbi Hbj [_ Hxi] [Hxj _].
  replace j with (S (i + (j - i - 1))) in Hbj by lia.
  destruct (contiguous_before _ i Hc Ho Hbi Hbj) as [u [Hu Hle]].
  rewrite Hu in Hxi. lra.
Qed.

Lemma dist_bin_at_ordered (num_bins : Z) (i : nat) :
  ordered (dist_bin_at num_bins i).
Proof.
  unfold dist_bin_at, ordered, upper, lower, half.
  destruct (i =? 0)%nat; cbn [fst snd]; [lra |].
  destruct (Z.of_nat i <? num_bins - 1)%Z; cbn [fst snd]; [lra | exact I].
Qed.

Lemma inject_Z_pred (z : Z) : (inject_Z (z - 1) == inject_Z z - 1)%Q.
Proof.
  unfold Z.sub. rewrite inject_Z_plus. unfold Qminus.
  apply Qplus_comp; [reflexivity | reflexivity].
Qed.

Lemma dist_bin_at_meets (num_bins : Z) (i : nat) :
  (Z.of_nat (S i) < num_bins)%Z ->
  meets (dist_bin_at num_bins i) (dist_bin_at num_bins (S i)).
Proof.
  intros Hi. unfold dist_bin_at, meets, upper, lower.
  cbn [Nat.eqb].
  destruct (Z.ltb_spec (Z.of_nat (S i)) (num_bins - 1)) as [H1 | H1];
    destruct i as [| i]; cbn [Nat.eqb fst snd].
  - vm_compute. reflexivity.
  - destruct (Z.ltb_spec (Z.of_nat (S i)) (num_bins - 1)); [| lia].
    cbn [fst snd].
    replace (Z.of_nat (S (S i)) - 1)%Z with (Z.of_nat (S i) - 1 + 1)%Z by lia.
    rewrite (inject_Z_plus (Z.of_nat (S i) - 1) 1). unfold half.
    change (inject_Z 1) with 1%Q. lra.
  - replace num_bins with 2%Z by lia. vm_compute. reflexivity.
  - destruct (Z.ltb_spec (Z.of_nat (S i)) (num_bins - 1)); [| lia].
    cbn [fst snd].
    replace (num_bins - 3)%Z with (Z.of_nat (S i) - 1)%Z by lia.
    apply Qeq_refl.
Qed.

Lemma dist_bins_contiguous {num_bins : Z} {bins : list bin} :
  (3 <= num_bins)%Z -> get_dist_bins num_bins = Ok bins -> contiguous bins.
Proof.
  intros H Hb. apply contiguous_of_nth. intros i b b' Hi Hi'.
  assert (Hlt : (Z.of_nat (S i) < num_bins)%Z).
  { rewrite <- (dist_bins_length H Hb).
    assert (nth_error bins (S i) <> None) by congruence.
    apply nth_error_Some in H0. lia. }
  rewrite (dist_bins_nth i H Hb) in Hi by lia.
  rewrite (dist_bins_nth (S i) H Hb) in Hi' by lia.
  injection Hi as <-. injection Hi' as <-.
  now apply dist_bin_at_meets.
Qed.

Lemma dist_bins_ordered {num_bins : Z} {bins : list bin} :
  (3 <= num_bins)%Z -> get_dist_bins num_bins = Ok bins -> Forall ordered bins.
Proof.
  intros H Hb. apply Forall_forall. intros b Hin.
  apply In_nth_error in Hin. destruct Hin as [i Hi].
  assert (Hlt : (Z.of_nat i < num_bins)%Z).
  { rewrite <- (dist_bins_length H Hb).
    assert (nth_error bins i <> None) by congruence.
    apply nth_error_Some in H0. lia. }
  rewrite (dist_bins_nth i H Hb) in Hi by lia.
  injection Hi as <-. apply dist_bin_at_ordered.
Qed.

(** C3: for every [num_bins >= 3] the distance table has exactly [num_bins]
    half-open intervals, contiguous and non-overlapping; the first is
    [[0, 4)], each of the next [num_bins - 2] has width 0.5, the first of
    them starting at 4, and the last interval is unbounded above. *)
Theorem get_dist_bins_table (num_bins : Z) :
  (3 <= num_bins)%Z ->
  exists bins : list bin,
    get_dist_bins num_bins = Ok bins
    /\ Z.of_nat (length bins) = num_bins
    /\ nth_error bins 0 = Some (0%Q, Fin 4)
    /\ (forall i : nat,
          (1 <= Z.of_nat i <= num_bins - 2)%Z ->
          exists lo hi : Q,
            nth_error bins i = Some (lo, Fin hi)
            /\ (lo == 4 + half * (inject_Z (Z.of_nat i) - 1))%Q
            /\ (hi == lo + half)%Q)
    /\ (exists lo : Q,
          nth_error bins (Z.to_nat (num_bins - 1)) = Some (lo, PInf))
    /\ contiguous bins
    /\ non_overlapping bins.
Proof.
  intros H.
  pose proof (get_dist_bins_unfold H) as Hb.
  eexists. split; [exact Hb |].
  split; [exact (dist_bins_length H Hb) |].
  split; [reflexivity |].
  split; [| split; [| split]].
  - intros i Hi. rewrite (dist_bins_nth i H Hb) by lia.
    unfold dist_bin_at.
    destruct (Nat.eqb_spec i 0); [lia |].
    destruct (Z.ltb_spec (Z.of_nat i) (num_bins - 1)); [| lia].
    do 2 eexists. split; [reflexivity |].
    split; [rewrite inject_Z_pred; reflexivity | unfold half; lra].
  - rewrite (dist_bins_nth _ H Hb) by lia. unfold dist_bin_at.
    destruct (Nat.eqb_spec (Z.to_nat (num_bins - 1)) 0); [lia |].
    destruct (Z.ltb_spec (Z.of_nat (Z.to_nat (num_bins - 1))) (num_bins - 1));
      [lia |].
    eexists. reflexivity.
  - exact (dist_bins_contiguous H Hb).
  - apply contiguous_non_overlapping;
      [exact (dist_bins_contiguous H Hb) | exact (dist_bins_ordered H Hb)].
Qed.

Lemma get_dist_bins_table_witness :
  (3 <= 26)%Z
  /\ exists bins : list bin,
       get_dist_bins 26 = Ok bins
       /\ Z.of_nat (length bins) = 26%Z
       /\ contiguous bins /\ non_overlapping bins.
Proof.
  assert (H : (3 <= 26)%Z) by lia.
  split; [exact H |].
  destruct (get_dist_bins_table 26 H) as (bins & H1 & H2 & _ & _ & _ & H3 & H4).
  exists bins. repeat split; assumption.
Defined.

(** ** Representative values *)

Lemma get_bin_values_unfold (b0 b1 b2 : bin) (rest : list bin) :
  let half_width := ((lower b2 - lower b1) / 2)%Q in
  get_bin_values (b0 :: b1 :: b2 :: rest) =
  Ok ((lower b1 + half_width - 2 * half_width)%Q
        :: map (fun v => (v + half_width)%Q) (map lower (b1 :: b2 :: rest))).
Proof. reflexivity. Qed.

(** Whatever the table, the half-width that [get_bin_values] adds is half
    the distance between the lower bounds of bins 1 and 2. *)
Lemma get_bin_values_lower_gap (bins : list bin) :
  (3 <= length bins)%nat ->
  exists (vals : list Q) (b1 b2 : bin),
    get_bin_values bins = Ok vals
    /\ length vals = length bins
    /\ nth_error bins 1 = Some b1 /\ nth_error bins 2 = Some b2
    /\ let half_width := ((lower b2 - lower b1) / 2)%Q in
       (forall (i : nat) (b : bin),
           (1 <= i)%nat -> nth_error bins i = Some b ->
           nth_error vals i = Some (lower b + half_width)%Q)
       /\ nth_error vals 0 = Some (lower b1 + half_width - 2 * half_width)%Q.
Proof.
  intros Hlen.
  destruct bins as [| b0 [| b1 [| b2 rest]]]; cbn [length] in Hlen; try lia.
  eexists. exists b1, b2. split; [apply get_bin_values_unfold |].
  split; [cbn [length]; now rewrite !length_map |].
  split; [reflexivity |]. split; [reflexivity |].
  cbn zeta. split; [| reflexivity].
  intros i b Hi Hb. destruct i as [| i]; [lia |].
  cbn [nth_error] in *.
  rewrite nth_error_map, nth_error_map, Hb. reflexivity.
Qed.

(** C4: for a bin table with at least 3 bins (consecutive intervals meet, as
    in the data model) the representative value of every bin [i >= 1] is
    [lower_bound(i) + half_width] with [half_width] half the width of bin 1,
    and the representative value of bin 0 is that of bin 1 minus
    [2 * half_width], whatever the width of bin 0. *)
Theorem get_bin_values_representative (bins : list bin) :
  (3 <= length bins)%nat ->
  contiguous bins ->
  exists (vals : list Q) (b1 : bin) (u1 : Q),
    get_bin_values bins = Ok vals
    /\ length vals = length bins
    /\ nth_error bins 1 = Some b1
    /\ upper b1 = Fin u1
    /\ let half_width := ((u1 - lower b1) / 2)%Q in
       (forall (i : nat) (b : bin),
           (1 <= i)%nat -> nth_error bins i = Some b ->
           exists v : Q,
             nth_error vals i = Some v /\ (v == lower b + half_width)%Q)
       /\ (exists v0 v1 : Q,
             nth_error vals 0 = Some v0 /\ nth_error vals 1 = Some v1
             /\ (v0 == v1 - 2 * half_width)%Q).
Proof.
  intros Hlen Hc.
  destruct (get_bin_values_lower_gap bins Hlen)
    as (vals & b1 & b2 & Hv & Hl & Hb1 & Hb2 & Hi & H0).
  pose proof (contiguous_nth Hc Hb1 Hb2) as Hm. unfold meets in Hm.
  destruct (upper b1) as [u1 |] eqn:Hu; [| contradiction].
  exists vals, b1, u1.
  split; [exact Hv |]. split; [exact Hl |].
  split; [exact Hb1 |]. split; [exact Hu |].
  cbn zeta in *. split.
  - intros i b Hge Hb. eexists. split; [apply (Hi i b Hge Hb) |].
    rewrite Hm. reflexivity.
  - do 2 eexists. split; [exact H0 |].
    split; [apply (Hi 1%nat b1 (le_n 1) Hb1) |].
    rewrite Hm. reflexivity.
Qed.

Lemma get_bin_values_representative_witness :
  let bins := [(0%Q, Fin 4); (4%Q, Fin (9 # 2)); ((9 # 2)%Q, PInf)] in
  ((3 <= length bins)%nat /\ contiguous bins)
  /\ exists vals : list Q,
       get_bin_values bins = Ok vals /\ length vals = length bins.
Proof.
  cbn zeta.
  assert (Hlen : (3 <= length [(0%Q, Fin 4); (4%Q, Fin (9 # 2)); ((9 # 2)%Q, PInf)])%nat)
    by (simpl; lia).
  assert (Hc : contiguous [(0%Q, Fin 4); (4%Q, Fin (9 # 2)); ((9 # 2)%Q, PInf)]).
  { simpl. unfold meets. simpl. repeat split; reflexivity. }
  split; [split; assumption |].
  destruct (get_bin_values_representative _ Hlen Hc)
    as (vals & _ & _ & Hv & Hl & _).
  exists vals. split; assumption.
Defined.

(** ** Entry-wise tensor operations *)

Lemma map_combine_map {A B C D : Type} (f : B -> C -> D) (g : A -> B)
    (h : A -> C) (l : list A) :
  map (fun p => f (fst p) (snd p)) (combine (map g l) (map h l))
  = map (fun a => f (g a) (h a)) l.
Proof.
  induction l as [| a l IH]; [reflexivity |].
  cbn [map combine fst snd]. now rewrite IH.
Qed.

Lemma nzip_nmap {A B C D : Type} (f : B -> C -> D) (g : A -> B) (h : A -> C)
    (n : nat) (x : nlist A n) :
  nzip f n (nmap g n x) (nmap h n x) = nmap (fun a => f (g a) (h a)) n x.
Proof.
  induction n as [| n IH]; [reflexivity |].
  cbn [nzip nmap]. cbn [nlist] in x.
  rewrite (map_combine_map (nzip f n) (nmap g n) (nmap h n)).
  apply map_ext. intros a. apply IH.
Qed.

Lemma nmap_ext {A B : Type} (f g : A -> B) (n : nat) (x : nlist A n) :
  (forall a, f a = g a) -> nmap f n x = nmap g n x.
Proof.
  intros H. induction n as [| n IH]; [apply H |].
  cbn [nmap]. apply map_ext. intros a. apply IH.
Qed.

Lemma nget_nmap {A B : Type} (f : A -> B) (n : nat) (x : nlist A n)
    (idx : list nat) :
  nget n (nmap f n x) idx = option_map f (nget n x idx).
Proof.
  revert idx. induction n as [| n IH]; intros idx.
  - destruct idx; reflexivity.
  - destruct idx as [| i idx]; [reflexivity |].
    change (nget (S n) (nmap f (S n) x) (i :: idx))
      with (match nth_error (map (nmap f n) (x : list (nlist A n))) i with
            | Some s => nget n s idx
            | None => None
            end).
    change (nget (S n) x (i :: idx))
      with (match nth_error (x : list (nlist A n)) i with
            | Some s => nget n s idx
            | None => None
            end).
    rewrite nth_error_map.
    destruct (nth_error (x : list (nlist A n)) i) as [s |]; cbn [option_map];
      [apply IH | reflexivity].
Qed.

Lemma mget_nget {A : Type} (m : matrix A) (i j : nat) :
  mget m i j = nget 2 m [i; j].
Proof.
  unfold mget. cbn [nget].
  destruct (nth_error m i) as [row |]; [| reflexivity].
  destruct (nth_error row j); reflexivity.
Qed.

Lemma mget_nmap {A B : Type} (f : A -> B) (m : matrix A) (i j : nat) :
  mget (nmap f 2 m) i j = option_map f (mget m i j).
Proof. rewrite !mget_nget. apply nget_nmap. Qed.

Lemma mapM_map_ok {A B C : Type} (f : B -> result C) (g : A -> B)
    (h : A -> C) (l : list A) :
  (forall a, f (g a) = Ok (h a)) -> mapM f (map g l) = Ok (map h l).
Proof.
  intros H. induction l as [| a l IH]; [reflexivity |].
  cbn [map mapM]. rewrite H. cbn [bind]. rewrite IH. reflexivity.
Qed.

Lemma nmapM_nmap_ok {A B C : Type} (f : B -> result C) (g : A -> B)
    (h : A -> C) (n : nat) (x : nlist A n) :
  (forall a, f (g a) = Ok (h a)) ->
  nmapM f n (nmap g n x) = Ok (nmap h n x).
Proof.
  intros H. induction n as [| n IH]; [apply H |].
  cbn [nmapM nmap]. apply mapM_map_ok. intros a. apply IH.
Qed.

(** ** The binning loop, entry by entry *)

Lemma in_binb_iff (b : bin) (x : Q) : in_binb b x = true <-> in_bin b x.
Proof.
  unfold in_binb, in_bin, ext_ltb.
  rewrite andb_true_iff, Qle_bool_iff.
  destruct (upper b) as [u |].
  - rewrite negb_true_iff. split; intros [H1 H2]; split; try exact H1.
    + apply Qnot_le_lt. intros Hle. apply Qle_bool_iff in Hle. congruence.
    + destruct (Qle_bool u x) eqn:E; [| reflexivity].
      apply Qle_bool_iff in E. lra.
  - tauto.
Qed.

Lemma in_binb_false (b : bin) (x : Q) : ~ in_bin b x -> in_binb b x = false.
Proof.
  intros H. destruct (in_binb b x) eqn:E; [| reflexivity].
  apply in_binb_iff in E. contradiction.
Qed.

Lemma bin_step_nmap (n : nat) (x : nlist Q n) (g : Q -> Z) (i : Z) (b : bin) :
  bin_step n x (nmap g n x) (i, b)
  = nmap (fun v => if in_binb b v then i else g v) n x.
Proof.
  destruct b as [lo up]. unfold bin_step, masked_assign.
  rewrite nzip_nmap.
  change (nmap g n x) with (nmap (fun v => g v) n x).
  rewrite (nzip_nmap (fun (old : Z) (m : bool) => if m then i else old)).
  reflexivity.
Qed.

Lemma bin_loop_from (n : nat) (x : nlist Q n) (bins : list bin) (s : Z)
    (g : Q -> Z) :
  fold_left (bin_step n x) (enumerate_from s bins) (nmap g n x)
  = nmap (fun v => bin_entry (enumerate_from s bins) v (g v)) n x.
Proof.
  revert s g. induction bins as [| b bins IH]; intros s g.
  - reflexivity.
  - cbn [enumerate_from fold_left]. rewrite bin_step_nmap, IH. reflexivity.
Qed.

Lemma bin_loop_zeros (n : nat) (x : nlist Q n) (bins : list bin) :
  bin_loop n bins x (zeros_like n x)
  = nmap (fun v => bin_entry (enumerate bins) v 0%Z) n x.
Proof. unfold bin_loop, zeros_like, enumerate. apply bin_loop_from. Qed.

Lemma bin_with_no_mask (d : result (list bin)) (x : tensor Q)
    (bins : list bin) (fill : Z) :
  bin_with d x (Some bins) None fill
  = Ok (mkTensor (rank x)
          (nmap (fun v => bin_entry (enumerate bins) v 0%Z) (rank x) (elems x))).
Proof. unfold bin_with. cbn [bind]. now rewrite bin_loop_zeros. Qed.

(** An entry that no bin holds keeps its initial value. *)
Lemma bin_entry_outside (l : list (Z * bin)) (v : Q) (init : Z) :
  (forall ib, In ib l -> ~ in_bin (snd ib) v) -> bin_entry l v init = init.
Proof.
  revert init. induction l as [| ib l IH]; intros init H; [reflexivity |].
  unfold bin_entry. cbn [fold_left].
  rewrite in_binb_false by (apply H; now left).
  apply IH. intros ib' Hin. apply H. now right.
Qed.

Lemma enumerate_from_In {A : Type} (s : Z) (l : list A) (ia : Z * A) :
  In ia (enumerate_from s l) ->
  exists k : nat, nth_error l k = Some (snd ia) /\ fst ia = (s + Z.of_nat k)%Z.
Proof.
  revert s. induction l as [| a l IH]; intros s H; [contradiction |].
  destruct H as [<- | H].
  - exists 0%nat. split; [reflexivity | cbn; lia].
  - destruct (IH _ H) as [k [Hk Hs]]. exists (S k). split; [exact Hk | lia].
Qed.

(** An entry held by bin [k] and by no later bin is given index [k]. *)
Lemma bin_entry_from (s : Z) (bins : list bin) (k : nat) (b : bin) (v : Q)
    (init : Z) :
  nth_error bins k = Some b -> in_bin b v ->
  (forall j b', (k < j)%nat -> nth_error bins j = Some b' -> ~ in_bin b' v) ->
  bin_entry (enumerate_from s bins) v init = (s + Z.of_nat k)%Z.
Proof.
  revert s k init. induction bins as [| c bins IH]; intros s k init Hk Hin Hl.
  - destruct k; discriminate.
  - unfold bin_entry. cbn [enumerate_from fold_left fst snd].
    destruct k as [| k].
    + cbn in Hk. injection Hk as ->.
      apply in_binb_iff in Hin. rewrite Hin.
      fold (bin_entry (enumerate_from (s + 1) bins) v s).
      rewrite bin_entry_outside; [cbn; lia |].
      intros ib Hib. destruct (enumerate_from_In _ _ _ Hib) as [j [Hj _]].
      apply (Hl (S j) (snd ib)); [lia | exact Hj].
    + fold (bin_entry (enumerate_from (s + 1) bins) v
                      (if in_binb c v then s else init)).
      rewrite (IH (s + 1)%Z k _ Hk Hin); [lia |].
      intros j b' Hj Hb'. apply (Hl (S j) b'); [lia | exact Hb'].
Qed.

Lemma bin_entry_at (bins : list bin) (k : nat) (b : bin) (v : Q) :
  non_overlapping bins ->
  nth_error bins k = Some b -> in_bin b v ->
  bin_entry (enumerate bins) v 0%Z = Z.of_nat k.
Proof.
  intros Hno Hk Hin. unfold enumerate.
  rewrite (bin_entry_from 0 bins k b v 0 Hk Hin); [lia |].
  intros j b' Hj Hb' Hin'. exact (Hno k j b b' v Hj Hk Hb' Hin Hin').
Qed.

(** The loop writes nothing but positions of the table. *)
Lemma bin_entry_range (s : Z) (bins : list bin) (v : Q) (init : Z) :
  bin_entry (enumerate_from s bins) v init = init
  \/ (s <= bin_entry (enumerate_from s bins) v init < s + Z.of_nat (length bins))%Z.
Proof.
  revert s init. induction bins as [| c bins IH]; intros s init.
  - now left.
  - unfold bin_entry. cbn [enumerate_from fold_left fst snd length].
    fold (bin_entry (enumerate_from (s + 1) bins) v
                    (if in_binb c v then s else init)).
    destruct (IH (s + 1)%Z (if in_binb c v then s else init)) as [-> | H].
    + destruct (in_binb c v); [right; lia | now left].
    + right. lia.
Qed.

Lemma bin_entry_index (bins : list bin) (v : Q) :
  bins <> [] ->
  (0 <= bin_entry (enumerate bins) v 0 < Z.of_nat (length bins))%Z.
Proof.
  intros Hne. unfold enumerate.
  destruct (bin_entry_range 0 bins v 0) as [-> | H]; [| lia].
  destruct bins; [congruence | cbn [length]; lia].
Qed.

(** ** Binning without a mask *)

Lemma bin_with_default {d : result (list bin)} {bins : list bin}
    (x : tensor Q) (mask : option (list Z)) (fill : Z) :
  d = Ok bins -> bin_with d x None mask fill = bin_with d x (Some bins) mask fill.
Proof. intros ->. reflexivity. Qed.

Lemma bin_with_outside (d : result (list bin)) (bins : list bin)
    (x : tensor Q) (idx : list nat) (v : Q) (fill : Z) :
  nget (rank x) (elems x) idx = Some v ->
  (forall b, In b bins -> ~ in_bin b v) ->
  exists out : nlist Z (rank x),
    bin_with d x (Some bins) None fill = Ok (mkTensor (rank x) out)
    /\ nget (rank x) out idx = Some 0%Z.
Proof.
  intros Hv Hout. eexists. split; [apply bin_with_no_mask |].
  rewrite nget_nmap, Hv. cbn [option_map]. f_equal.
  apply bin_entry_outside. intros ib Hib.
  destruct (enumerate_from_In _ _ _ Hib) as [k [Hk _]].
  apply Hout. eapply nth_error_In; eauto.
Qed.

Lemma dist_bins_nonnegative (num_bins : Z) (bins : list bin) (b : bin) :
  (3 <= num_bins)%Z -> get_dist_bins num_bins = Ok bins -> In b bins ->
  (0 <= lower b)%Q.
Proof.
  intros H Hb Hin. apply In_nth_error in Hin. destruct Hin as [i Hi].
  assert (Hlt : (Z.of_nat i < num_bins)%Z).
  { rewrite <- (dist_bins_length H Hb).
    assert (nth_error bins i <> None) by congruence.
    apply nth_error_Some in H0. lia. }
  rewrite (dist_bins_nth i H Hb) in Hi by lia. injection Hi as <-.
  unfold dist_bin_at, lower, half.
  destruct (Nat.eqb_spec i 0); cbn [fst]; [lra |].
  destruct (Z.ltb_spec (Z.of_nat i) (num_bins - 1)); cbn [fst].
  - assert (0 <= inject_Z (Z.of_nat i - 1))%Q.
    { change 0%Q with (inject_Z 0). rewrite <- Zle_Qle. lia. }
    nra.
  - assert (0 <= inject_Z (num_bins - 3))%Q.
    { change 0%Q with (inject_Z 0). rewrite <- Zle_Qle. lia. }
    nra.
Qed.

Lemma sentinel_outside_dist_bins (num_bins : Z) (bins : list bin) (b : bin) :
  (3 <= num_bins)%Z -> get_dist_bins num_bins = Ok bins -> In b bins ->
  ~ in_bin b (-1).
Proof.
  intros H Hb Hin [Hlo _].
  pose proof (dist_bins_nonnegative num_bins bins b H Hb Hin). lra.
Qed.

Lemma equal_width_bins_upper (first span : Q) (num_bins : Z)
    (bins : list bin) (b : bin) :
  (0 <= span)%Q ->
  equal_width_bins first span num_bins = Ok bins -> In b bins ->
  exists u : Q, upper b = Fin u /\ (u <= first + span)%Q.
Proof.
  intros Hs Hb Hin. unfold equal_width_bins in Hb.
  destruct (Z.eqb_spec num_bins 0) as [| Hne]; [discriminate |].
  injection Hb as <-.
  apply in_map_iff in Hin. destruct Hin as [i [<- Hi]].
  unfold range in Hi. apply in_map_iff in Hi. destruct Hi as [k [<- Hk]].
  apply in_seq in Hk. eexists. split; [reflexivity |].
  assert (Hpos : (0 < num_bins)%Z) by lia.
  assert (Hn : (0 < inject_Z num_bins)%Q).
  { change 0%Q with (inject_Z 0). rewrite <- Zlt_Qlt. exact Hpos. }
  assert (Hk1 : (inject_Z (Z.of_nat k) + 1 <= inject_Z num_bins)%Q).
  { change 1%Q with (inject_Z 1). rewrite <- inject_Z_plus, <- Zle_Qle. lia. }
  assert (Hk0 : (0 <= inject_Z (Z.of_nat k))%Q).
  { change 0%Q with (inject_Z 0). rewrite <- Zle_Qle. lia. }
  set (w := (span / inject_Z num_bins)%Q).
  assert (Hw : (inject_Z num_bins * w == span)%Q).
  { unfold w. apply Qmult_div_r. lra. }
  assert (Hw0 : (0 <= w)%Q).
  { unfold w. apply Qle_shift_div_l; [exact Hn | lra]. }
  nra.
Qed.

Lemma upper_edge_outside_angle_bins (num_bins : Z) (bins : list bin) (b : bin) :
  get_angle_bins num_bins = Ok bins -> In b bins -> ~ in_bin b 180.
Proof.
  intros Hb Hin [_ Hup].
  assert (Hs : (0 <= 2 * 180)%Q) by lra.
  destruct (equal_width_bins_upper (-180) (2 * 180) num_bins bins b Hs Hb Hin)
    as [u [Hu Hle]].
  rewrite Hu in Hup. lra.
Qed.

(** C9: with no mask supplied, an entry that lies in none of the intervals
    of the bin table is reported as bin 0, the initial value of the output;
    so are the sentinel -1 under the default distance table and the upper
    domain edge 180 under the default angle table. *)
Theorem bin_outside_table_is_zero (x : tensor Q) (idx : list nat) (v : Q)
    (fill : Z) :
  nget (rank x) (elems x) idx = Some v ->
  (forall bins : list bin,
      (forall b, In b bins -> ~ in_bin b v) ->
      (exists out : nlist Z (rank x),
          bin_distance_matrix x (Some bins) None fill = Ok (mkTensor (rank x) out)
          /\ nget (rank x) out idx = Some 0%Z)
      /\ (exists out : nlist Z (rank x),
             bin_euler_matrix x (Some bins) None fill = Ok (mkTensor (rank x) out)
             /\ nget (rank x) out idx = Some 0%Z))
  /\ ((v == -1)%Q ->
      exists out : nlist Z (rank x),
        bin_distance_matrix x None None fill = Ok (mkTensor (rank x) out)
        /\ nget (rank x) out idx = Some 0%Z)
  /\ ((v == 180)%Q ->
      exists out : nlist Z (rank x),
        bin_euler_matrix x None None fill = Ok (mkTensor (rank x) out)
        /\ nget (rank x) out idx = Some 0%Z).
Proof.
  intros Hv. split; [| split].
  - intros bins Hout. split; apply bin_with_outside with (v := v); assumption.
  - intros Hm.
    assert (H26 : (3 <= 26)%Z) by lia.
    pose proof (get_dist_bins_unfold H26) as Hb.
    unfold bin_distance_matrix. rewrite (bin_with_default _ _ _ Hb).
    apply bin_with_outside with (v := v); [exact Hv |].
    intros b Hin Hb1. apply (sentinel_outside_dist_bins 26 _ b H26 Hb Hin).
    destruct Hb1 as [H1 H2]. split; [lra |].
    destruct (upper b); [lra | exact I].
  - intros Hm.
    assert (Hb : exists bins, get_angle_bins 26 = Ok bins)
      by (eexists; reflexivity).
    destruct Hb as [bins Hb].
    unfold bin_euler_matrix. rewrite (bin_with_default _ _ _ Hb).
    apply bin_with_outside with (v := v); [exact Hv |].
    intros b Hin Hb1. apply (upper_edge_outside_angle_bins 26 bins b Hb Hin).
    destruct Hb1 as [H1 H2]. split; [lra |].
    destruct (upper b); [lra | exact I].
Qed.

Lemma bin_outside_table_is_zero_witness :
  nget 2 [[(-1)%Q; 5%Q]] [0; 0]%nat = Some (-1)%Q
  /\ exists out : matrix Z,
       bin_distance_matrix (mkTensor 2 [[(-1)%Q; 5%Q]]) None None (-1)
       = Ok (mkTensor 2 out)
       /\ nget 2 out [0; 0]%nat = Some 0%Z.
Proof.
  assert (Hv : nget 2 [[(-1)%Q; 5%Q]] [0; 0]%nat = Some (-1)%Q) by reflexivity.
  split; [exact Hv |].
  destruct (bin_outside_table_is_zero (mkTensor 2 [[(-1)%Q; 5%Q]]) [0; 0]%nat
              (-1)%Q (-1)%Z Hv) as [_ [H _]].
  apply H. reflexivity.
Defined.

(** ** Decoding *)

(** C10: the single-matrix decoders decode one rank only: a tensor whose
    rank is not 2 makes [binned_dist_mat_to_values] return [None], a tensor
    whose rank is not 3 makes [binned_euler_mat_to_values] return [None];
    neither raises. *)
Theorem decoders_unsupported_rank (t : tensor Z) (num_bins : Z) :
  (rank t <> 2%nat -> binned_dist_mat_to_values t num_bins = Ok None)
  /\ (rank t <> 3%nat -> binned_euler_mat_to_values t num_bins = Ok None).
Proof.
  destruct t as [r e]. cbn [rank]. split; intros Hr.
  - destruct r as [| [| [| r]]]; try reflexivity. contradiction.
  - destruct r as [| [| [| [| r]]]]; try reflexivity. contradiction.
Qed.

Lemma decoders_unsupported_rank_witness :
  binned_dist_mat_to_values (mkTensor 1 [3%Z; 4%Z]) 26 = Ok None
  /\ binned_euler_mat_to_values (mkTensor 2 [[3%Z; 4%Z]]) 26 = Ok None.
Proof.
  split.
  - apply (decoders_unsupported_rank (mkTensor 1 [3%Z; 4%Z]) 26).
    cbn [rank]. lia.
  - apply (decoders_unsupported_rank (mkTensor 2 [[3%Z; 4%Z]]) 26).
    cbn [rank]. lia.
Defined.

Lemma py_get_in_range {A : Type} (l : list A) (k : Z) (d : A) :
  (0 <= k < Z.of_nat (length l))%Z -> py_get l k = Ok (nth (Z.to_nat k) l d).
Proof.
  intros H. unfold py_get.
  destruct (Z.ltb_spec k 0); [lia |].
  destruct (Z.ltb_spec k 0); [lia |].
  rewrite (nth_error_nth' l d) by lia. reflexivity.
Qed.

(** Decoding a matrix binned without a mask. *)
Lemma decode_binned (num_bins : Z) (bins : list bin) (vals : list Q)
    (m : matrix Q) :
  get_dist_bins num_bins = Ok bins ->
  get_bin_values bins = Ok vals ->
  length vals = length bins ->
  bins <> [] ->
  binned_dist_mat_to_values
    (mkTensor 2 (nmap (fun v => bin_entry (enumerate bins) v 0%Z) 2 m)) num_bins
  = Ok (Some (mkTensor 2
                (nmap (fun v =>
                         nth (Z.to_nat (bin_entry (enumerate bins) v 0%Z)) vals 0%Q)
                      2 m))).
Proof.
  intros Hb Hv Hl Hne. unfold binned_dist_mat_to_values.
  rewrite Hb. cbn [bind]. rewrite Hv. cbn [bind].
  rewrite (nmapM_nmap_ok (py_get vals)
             (fun v => bin_entry (enumerate bins) v 0%Z)
             (fun v => nth (Z.to_nat (bin_entry (enumerate bins) v 0%Z)) vals 0%Q)).
  - reflexivity.
  - intros v. apply py_get_in_range. rewrite Hl. now apply bin_entry_index.
Qed.

Lemma strictly_inside_in_bin (b : bin) (v : Q) :
  strictly_inside b v -> in_bin b v.
Proof.
  intros [H1 H2]. split; [lra | exact H2].
Qed.

(** C5: bin a matrix with the distance table of [num_bins >= 3] bins and
    decode it: at an entry whose value lies strictly inside a non-edge bin
    [i] the result is the representative value of bin [i], the lower bound
    of the bin plus 0.25, wherever in the bin the value fell. *)
Theorem bin_then_decode_representative (num_bins : Z) (bins : list bin)
    (i : nat) (b : bin) (m : matrix Q) (r c : nat) (v : Q) (fill : Z) :
  (3 <= num_bins)%Z ->
  get_dist_bins num_bins = Ok bins ->
  (0 < Z.of_nat i < num_bins - 1)%Z ->
  nth_error bins i = Some b ->
  strictly_inside b v ->
  mget m r c = Some v ->
  exists (binned : matrix Z) (decoded : matrix Q) (vals : list Q) (rep : Q),
    bin_distance_matrix (mkTensor 2 m) (Some bins) None fill
    = Ok (mkTensor 2 binned)
    /\ mget binned r c = Some (Z.of_nat i)
    /\ binned_dist_mat_to_values (mkTensor 2 binned) num_bins
       = Ok (Some (mkTensor 2 decoded))
    /\ get_bin_values bins = Ok vals
    /\ nth_error vals i = Some rep
    /\ mget decoded r c = Some rep
    /\ (rep == lower b + (1 # 4))%Q.
Proof.
  intros H Hb Hi Hbi Hin Hm.
  assert (Hlen : (3 <= length bins)%nat).
  { pose proof (dist_bins_length H Hb). lia. }
  destruct (get_bin_values_lower_gap bins Hlen)
    as (vals & b1 & b2 & Hv & Hl & Hb1 & Hb2 & Hrep & _).
  cbn zeta in Hrep.
  assert (Hentry : bin_entry (enumerate bins) v 0%Z = Z.of_nat i).
  { apply bin_entry_at with (b := b).
    - apply contiguous_non_overlapping;
        [exact (dist_bins_contiguous H Hb) | exact (dist_bins_ordered H Hb)].
    - exact Hbi.
    - now apply strictly_inside_in_bin. }
  assert (Hne : bins <> []) by (destruct bins; [cbn in Hlen; lia | discriminate]).
  exists (nmap (fun v => bin_entry (enumerate bins) v 0%Z) 2 m).
  exists (nmap (fun v => nth (Z.to_nat (bin_entry (enumerate bins) v 0%Z)) vals 0%Q)
               2 m).
  exists vals, (lower b + (lower b2 - lower b1) / 2)%Q.
  split; [apply (bin_with_no_mask (get_dist_bins 26) (mkTensor 2 m)) |].
  split; [rewrite mget_nmap, Hm; cbn [option_map]; now rewrite Hentry |].
  split; [now apply decode_binned |].
  split; [exact Hv |].
  assert (Hnth : nth_error vals i = Some (lower b + (lower b2 - lower b1) / 2)%Q).
  { apply Hrep; [lia | exact Hbi]. }
  split; [exact Hnth |].
  split.
  - rewrite mget_nmap, Hm. cbn [option_map]. rewrite Hentry, Nat2Z.id.
    f_equal. now apply nth_error_nth.
  - rewrite (dist_bins_nth 1 H Hb) in Hb1 by lia.
    rewrite (dist_bins_nth 2 H Hb) in Hb2 by lia.
    injection Hb1 as <-. injection Hb2 as <-.
    unfold dist_bin_at, lower. cbn [Nat.eqb].
    destruct (Z.ltb_spec (Z.of_nat 1) (num_bins - 1)); [| lia].
    cbn [fst].
    destruct (Z.ltb_spec (Z.of_nat 2) (num_bins - 1)); cbn [fst].
    + change (inject_Z (Z.of_nat 2 - 1)) with 1%Q.
      change (inject_Z (Z.of_nat 1 - 1)) with 0%Q. unfold half, Qdiv.
      change (/ 2)%Q with (1 # 2)%Q. lra.
    + replace num_bins with 3%Z by lia.
      change (inject_Z (3 - 3)) with 0%Q.
      change (inject_Z (Z.of_nat 1 - 1)) with 0%Q. unfold half, Qdiv.
      change (/ 2)%Q with (1 # 2)%Q. lra.
Qed.

Lemma bin_then_decode_representative_witness :
  exists (bins : list bin) (binned : matrix Z) (decoded : matrix Q) (rep : Q),
    get_dist_bins 4 = Ok bins
    /\ bin_distance_matrix (mkTensor 2 [[(17 # 4)%Q]]) (Some bins) None (-1)
       = Ok (mkTensor 2 binned)
    /\ mget binned 0 0 = Some 1%Z
    /\ binned_dist_mat_to_values (mkTensor 2 binned) 4
       = Ok (Some (mkTensor 2 decoded))
    /\ mget decoded 0 0 = Some rep
    /\ (rep == 4 + (1 # 4))%Q.
Proof.
  assert (H : (3 <= 4)%Z) by lia.
  pose proof (get_dist_bins_unfold H) as Hb.
  assert (Hi : (0 < Z.of_nat 1 < 4 - 1)%Z) by (simpl; lia).
  assert (Hbi := dist_bins_nth 1 H Hb ltac:(simpl; lia)).
  assert (Hin : strictly_inside (dist_bin_at 4 1) (17 # 4)).
  { split; vm_compute; reflexivity. }
  assert (Hm : mget [[(17 # 4)%Q]] 0 0 = Some (17 # 4)%Q) by reflexivity.
  destruct (bin_then_decode_representative 4 _ 1 _ [[(17 # 4)%Q]] 0 0 _ (-1)
              H Hb Hi Hbi Hin Hm)
    as (binned & decoded & vals & rep & H1 & H2 & H3 & _ & _ & H6 & H7).
  eexists. exists binned, decoded, rep.
  split; [exact Hb |]. split; [exact H1 |]. split; [exact H2 |].
  split; [exact H3 |]. split; [exact H6 |].
  rewrite H7. vm_compute. reflexivity.
Defined.

(** ** Masking *)

Lemma nth_error_combine {A B : Type} (l : list A) (l' : list B) (i : nat) :
  nth_error (combine l l') i
  = match nth_error l i, nth_error l' i with
    | Some a, Some b => Some (a, b)
    | _, _ => None
    end.
Proof.
  revert l' i. induction l as [| a l IH]; intros l' i.
  - destruct i; reflexivity.
  - destruct l' as [| b l'].
    + destruct i; cbn; [reflexivity |]. now destruct (nth_error l i).
    + destruct i; cbn; [reflexivity | apply IH].
Qed.

Lemma combine_repeat_l {A B : Type} (a : A) (l : list B) :
  combine (repeat a (length l)) l = map (fun b => (a, b)) l.
Proof. induction l as [| b l IH]; cbn; [reflexivity | now rewrite IH]. Qed.

Lemma combine_repeat_r {A B : Type} (l : list A) (b : B) :
  combine l (repeat b (length l)) = map (fun a => (a, b)) l.
Proof. induction l as [| a l IH]; cbn; [reflexivity | now rewrite IH]. Qed.

Lemma expand1_same {A : Type} (l : list A) : expand1 (length l) l = l.
Proof. destruct l as [| x [| y l]]; reflexivity. Qed.

Lemma expand1_singleton {A : Type} (n : nat) (x : A) :
  expand1 n [x] = repeat x n.
Proof. reflexivity. Qed.

(** Entry [(i, j)] of the pairwise mask is [v[j] + v[i]]. *)
Lemma pair_sum_unfold (v : list Z) :
  pair_sum (length v) v = map (fun a => map (fun b => (b + a)%Z) v) v.
Proof.
  unfold pair_sum, unsqueeze0, expand.
  rewrite expand1_singleton. cbn [transpose].
  replace (expand1 (length v) (map (fun x : Z => [x]) v))
    with (map (fun x : Z => [x]) v).
  2:{ rewrite <- (length_map (fun x : Z => [x]) v) at 1.
      symmetry. apply expand1_same. }
  rewrite map_map.
  replace (map (expand1 (length v)) (repeat v (length v)))
    with (repeat v (length v)).
  2:{ generalize (length v) at 1 3. intros n.
      induction n as [| n IH]; cbn [repeat map]; [reflexivity |].
      now rewrite expand1_same, <- IH. }
  cbn [nzip].
  rewrite <- (length_map (fun x : Z => expand1 (length v) [x]) v) at 1.
  rewrite combine_repeat_l, !map_map. cbn [fst snd].
  apply map_ext. intros a. rewrite expand1_singleton, combine_repeat_r, map_map.
  reflexivity.
Qed.

Lemma has_shape_map_const {A B : Type} (f : A -> list B) (l : list A)
    (c : nat) :
  (forall a, length (f a) = c) -> has_shape (length l) c (map f l).
Proof.
  intros H. split; [apply length_map |].
  apply Forall_forall. intros row Hin. apply in_map_iff in Hin.
  destruct Hin as [a [<- _]]. apply H.
Qed.

Lemma same_shape2_true {A B : Type} (r c : nat) (m : matrix A) (bm : matrix B) :
  has_shape r c m -> has_shape r c bm -> same_shape2 m bm = true.
Proof.
  intros [Hr Hc] [Hr' Hc']. unfold same_shape2.
  rewrite Hr, Hr', Nat.eqb_refl. cbn [andb].
  apply forallb_forall. intros [row row'] Hin. cbn [fst snd].
  rewrite Forall_forall in Hc, Hc'.
  rewrite (Hc row (in_combine_l _ _ _ _ Hin)).
  rewrite (Hc' row' (in_combine_r _ _ _ _ Hin)).
  apply Nat.eqb_refl.
Qed.

Lemma mget_map_combine {A : Type} (m : matrix A) (bm : matrix bool) (v : A)
    (i j : nat) (x : A) (b : bool) :
  mget m i j = Some x -> mget bm i j = Some b ->
  mget (map (fun p : list A * list bool =>
               map (fun q : A * bool => if snd q then v else fst q)
                   (combine (fst p) (snd p)))
            (combine m bm)) i j
  = Some (if b then v else x).
Proof.
  unfold mget. intros Hx Hb.
  rewrite nth_error_map, nth_error_combine.
  destruct (nth_error m i) as [row |]; [| discriminate].
  destruct (nth_error bm i) as [brow |]; [| discriminate].
  cbn [option_map fst snd].
  rewrite nth_error_map, nth_error_combine, Hx, Hb. reflexivity.
Qed.

(** A boolean-mask assignment on a matrix changes exactly the entries the
    mask selects. *)
Lemma index_put2_entries {A : Type} (n : nat) (m : matrix A)
    (bm : matrix bool) (v : A) :
  has_shape n n m -> has_shape n n bm ->
  exists out : matrix A,
    index_put2 0 m bm v = Ok out
    /\ forall (i j : nat) (x : A) (b : bool),
         mget m i j = Some x -> mget bm i j = Some b ->
         mget out i j = Some (if b then v else x).
Proof.
  intros Hm Hbm. unfold index_put2.
  rewrite (same_shape2_true n n m bm Hm Hbm). eexists. split; [reflexivity |].
  intros i j x b Hx Hb. exact (mget_map_combine m bm v i j x b Hx Hb).
Qed.

Lemma gt0_pair_sum_shape (v : list Z) :
  has_shape (length v) (length v) (gt0 (pair_sum (length v) v)).
Proof.
  rewrite pair_sum_unfold. unfold gt0. cbn [nmap]. rewrite map_map.
  apply has_shape_map_const. intros a. now rewrite !length_map.
Qed.

Lemma gt0_pair_sum_entry (v : list Z) (i j : nat) (vi vj : Z) :
  nth_error v i = Some vi -> nth_error v j = Some vj ->
  mget (gt0 (pair_sum (length v) v)) i j = Some (0 <? vj + vi)%Z.
Proof.
  intros Hi Hj. rewrite pair_sum_unfold. unfold gt0, mget. cbn [nmap].
  rewrite map_map, nth_error_map, Hi. cbn [option_map].
  rewrite map_map, nth_error_map, Hj. reflexivity.
Qed.

(** What [mask_matrix_] does: it fills the pairs whose mask values sum to a
    positive number, that is, on a 0/1 mask, the pairs with a valid
    residue. *)
Lemma mask_matrix_entries {A : Type} (mat : matrix A) (mask : list Z)
    (fill : A) :
  has_shape (length mask) (length mask) mat ->
  exists out : matrix A,
    mask_matrix_ (mkTensor 2 mat) mask fill = Ok (mkTensor 2 out)
    /\ forall (i j : nat) (mi mj : Z) (x : A),
         nth_error mask i = Some mi -> nth_error mask j = Some mj ->
         mget mat i j = Some x ->
         mget out i j = Some (if (0 <? mj + mi)%Z then fill else x).
Proof.
  intros Hm. unfold mask_matrix_, tensor_index_put.
  destruct (index_put2_entries (length mask) mat
              (gt0 (pair_sum (length mask) mask)) fill Hm
              (gt0_pair_sum_shape mask)) as [out [Hout Hent]].
  exists out. rewrite Hout. split; [reflexivity |].
  intros i j mi mj x Hi Hj Hx.
  apply (Hent i j x _ Hx). now apply gt0_pair_sum_entry.
Qed.

Lemma not_mask_unfold (mask : list Z) :
  nzip Z.sub 1 (repeat 1%Z (length mask)) mask = map (fun m => (1 - m)%Z) mask.
Proof.
  cbn [nzip]. rewrite combine_repeat_l, map_map. reflexivity.
Qed.

(** The masking block of the binning functions fills, on a 0/1 mask,
    exactly the pairs with an invalid residue. *)
Lemma fill_masked_bins_entries (binned : matrix Z) (mask : list Z) (fill : Z) :
  Forall (fun m => m = 0%Z \/ m = 1%Z) mask ->
  has_shape (length mask) (length mask) binned ->
  exists out : matrix Z,
    fill_masked_bins (mkTensor 2 binned) mask fill = Ok (mkTensor 2 out)
    /\ forall (i j : nat) (mi mj x : Z),
         nth_error mask i = Some mi -> nth_error mask j = Some mj ->
         mget binned i j = Some x ->
         mget out i j = Some (if (mi =? 0)%Z || (mj =? 0)%Z then fill else x).
Proof.
  intros H01 Hm. unfold fill_masked_bins, tensor_index_put.
  rewrite not_mask_unfold.
  set (nm := map (fun m => (1 - m)%Z) mask).
  assert (Hlen : length mask = length nm) by (unfold nm; now rewrite length_map).
  rewrite Hlen in *.
  destruct (index_put2_entries (length nm) binned
              (gt0 (pair_sum (length nm) nm)) fill Hm
              (gt0_pair_sum_shape nm)) as [out [Hout Hent]].
  exists out. rewrite Hout. split; [reflexivity |].
  intros i j mi mj x Hi Hj Hx.
  rewrite (Hent i j x (0 <? (1 - mj) + (1 - mi))%Z Hx).
  - rewrite Forall_forall in H01.
    pose proof (H01 mi (nth_error_In _ _ Hi)) as Hmi.
    pose proof (H01 mj (nth_error_In _ _ Hj)) as Hmj.
    destruct Hmi as [-> | ->], Hmj as [-> | ->]; reflexivity.
  - apply gt0_pair_sum_entry; unfold nm; rewrite nth_error_map.
    + now rewrite Hi.
    + now rewrite Hj.
Qed.

(** C1 (the code differs): on the mask [1, 0], which has a zero entry,
    [mask_matrix_] overwrites the entries (0,0), (0,1) and (1,0), although
    residue 0 is valid at (0,0), and leaves (1,1), a pair of invalid
    residues, unchanged; the specification asks for (0,1), (1,0) and (1,1)
    to be overwritten and (0,0) kept, which is what the masking block of
    [bin_distance_matrix] does on the same input. *)
Theorem mask_matrix_fills_valid_pairs :
  mask_matrix_ (mkTensor 2 [[10; 11]; [12; 13]]%Z) [1; 0]%Z (-1)%Z
  = Ok (mkTensor 2 [[-1; -1]; [-1; 13]]%Z)
  /\ fill_masked_bins (mkTensor 2 [[10; 11]; [12; 13]]%Z) [1; 0]%Z (-1)%Z
     = Ok (mkTensor 2 [[10; -1]; [-1; -1]]%Z).
Proof. split; reflexivity. Qed.

(** ** Multi-channel binning *)

Lemma nth_error_list_set_eq {A : Type} (l : list A) (k : nat) (v : A) :
  (k < length l)%nat -> nth_error (list_set l k v) k = Some v.
Proof.
  revert k. induction l as [| a l IH]; intros k H; cbn [length] in H; [lia |].
  destruct k as [| k]; cbn; [reflexivity | apply IH; lia].
Qed.

Lemma nth_error_list_set_neq {A : Type} (l : list A) (k k' : nat) (v : A) :
  k' <> k -> nth_error (list_set l k v) k' = nth_error l k'.
Proof.
  revert k k'. induction l as [| a l IH]; intros k k' H.
  - destruct k; reflexivity.
  - destruct k as [| k], k' as [| k']; cbn; try reflexivity; try congruence.
    apply IH. congruence.
Qed.

Lemma length_list_set {A : Type} (l : list A) (k : nat) (v : A) :
  length (list_set l k v) = length l.
Proof.
  revert k. induction l as [| a l IH]; intros k; [now destruct k |].
  destruct k; cbn; [reflexivity | now rewrite IH].
Qed.

(** One channel loop writes the bin indices of channel [c] and leaves the
    other channels alone. *)
Lemma bin_channel_from (k c : nat) (x : nlist Q k)
    (input : list (nlist Q k)) (bins : list bin) :
  nth_error input c = Some x ->
  forall (s : Z) (binned : list (nlist Z k)) (g : Q -> Z),
    nth_error binned c = Some (nmap g k x) ->
    exists out : list (nlist Z k),
      fold_left (bin_channel_step k c input)
                (enumerate_from s bins) (Ok binned) = Ok out
      /\ length out = length binned
      /\ nth_error out c
         = Some (nmap (fun v => bin_entry (enumerate_from s bins) v (g v)) k x)
      /\ forall c', c' <> c -> nth_error out c' = nth_error binned c'.
Proof.
  intros Hx. induction bins as [| b bins IH]; intros s binned g Hc.
  - exists binned. repeat split; assumption.
  - cbn [enumerate_from fold_left].
    assert (Hstep : bin_channel_step k c input (Ok binned) (s, b)
                    = Ok (list_set binned c
                            (nmap (fun v => if in_binb b v then s else g v) k x))).
    { unfold bin_channel_step. cbn [bind].
      rewrite (py_get_nth input c x Hx). cbn [bind].
      rewrite (py_get_nth binned c _ Hc). cbn [bind].
      now rewrite bin_step_nmap. }
    rewrite Hstep.
    assert (Hlt : (c < length binned)%nat).
    { apply nth_error_Some. congruence. }
    destruct (IH (s + 1)%Z
                (list_set binned c
                   (nmap (fun v => if in_binb b v then s else g v) k x))
                (fun v => if in_binb b v then s else g v)
                (nth_error_list_set_eq _ _ _ Hlt))
      as (out & Hout & Hlen & Hoc & Hother).
    exists out. split; [exact Hout |].
    split; [now rewrite Hlen, length_list_set |].
    split; [exact Hoc |].
    intros c' Hne. rewrite (Hother c' Hne).
    now apply nth_error_list_set_neq.
Qed.

Lemma bin_channel_zeros (k c : nat) (x : nlist Q k)
    (input : list (nlist Q k)) (bins : list bin) (binned : list (nlist Z k)) :
  nth_error input c = Some x ->
  nth_error binned c = Some (zeros_like k x) ->
  exists out : list (nlist Z k),
    bin_channel k c bins input binned = Ok out
    /\ length out = length binned
    /\ nth_error out c
       = Some (nmap (fun v => bin_entry (enumerate bins) v 0%Z) k x)
    /\ forall c', c' <> c -> nth_error out c' = nth_error binned c'.
Proof.
  intros Hx Hc. unfold bin_channel, enumerate.
  exact (bin_channel_from k c x input bins Hx 0 binned (fun _ => 0%Z) Hc).
Qed.

Lemma equal_width_bins_ok (first span : Q) (num_bins : Z) :
  (num_bins <> 0)%Z ->
  exists bins : list bin,
    equal_width_bins first span num_bins = Ok bins
    /\ length bins = Z.to_nat num_bins.
Proof.
  intros H. unfold equal_width_bins.
  destruct (Z.eqb_spec num_bins 0); [contradiction |].
  eexists. split; [reflexivity |]. now rewrite length_map, range_length.
Qed.

(** The four channels of the output of [bin_dist_angle_matrix]. *)
Lemma bin_dist_angle_matrix_channels (k : nat) (x0 x1 x2 x3 : nlist Q k)
    (num_bins : Z) :
  (3 <= num_bins)%Z ->
  exists (dist_bins omega_bins theta_bins phi_bins : list bin),
    get_dist_bins num_bins = Ok dist_bins
    /\ get_omega_bins num_bins = Ok omega_bins
    /\ get_theta_bins num_bins = Ok theta_bins
    /\ get_phi_bins num_bins = Ok phi_bins
    /\ bin_dist_angle_matrix k [x0; x1; x2; x3] num_bins
       = Ok [nmap (fun v => bin_entry (enumerate dist_bins) v 0%Z) k x0;
             nmap (fun v => bin_entry (enumerate omega_bins) v 0%Z) k x1;
             nmap (fun v => bin_entry (enumerate theta_bins) v 0%Z) k x2;
             nmap (fun v => bin_entry (enumerate phi_bins) v 0%Z) k x3].
Proof.
  intros H.
  pose proof (get_dist_bins_unfold H) as Hd.
  match type of Hd with _ = Ok ?l => set (db := l) in Hd end.
  assert (Hne : (num_bins <> 0)%Z) by lia.
  destruct (equal_width_bins_ok (-180) (2 * 180) num_bins Hne) as [ab [Ha _]].
  destruct (equal_width_bins_ok 0 180 num_bins Hne) as [pb [Hp _]].
  exists db, ab, ab, pb.
  split; [exact Hd |]. split; [exact Ha |]. split; [exact Ha |].
  split; [exact Hp |].
  unfold bin_dist_angle_matrix. rewrite Hd. cbn [bind].
  unfold get_omega_bins, get_theta_bins, get_phi_bins.
  rewrite Ha, Hp. cbn [bind].
  set (z := zeros_like (S k) [x0; x1; x2; x3]).
  destruct (bin_channel_zeros k 0 x0 [x0; x1; x2; x3] db z eq_refl eq_refl)
    as (b0 & -> & L0 & C0 & O0).
  cbn [bind].
  destruct (bin_channel_zeros k 1 x1 [x0; x1; x2; x3] ab b0 eq_refl)
    as (b1 & -> & L1 & C1 & O1).
  { rewrite O0 by discriminate. reflexivity. }
  cbn [bind].
  destruct (bin_channel_zeros k 2 x2 [x0; x1; x2; x3] ab b1 eq_refl)
    as (b2 & -> & L2 & C2 & O2).
  { rewrite O1, O0 by discriminate. reflexivity. }
  cbn [bind].
  destruct (bin_channel_zeros k 3 x3 [x0; x1; x2; x3] pb b2 eq_refl)
    as (b3 & -> & L3 & C3 & O3).
  { rewrite O2, O1, O0 by discriminate. reflexivity. }
  f_equal.
  assert (Hl : length b3 = 4%nat).
  { rewrite L3, L2, L1, L0. reflexivity. }
  assert (E0 := O3 0%nat ltac:(discriminate)).
  assert (E1 := O3 1%nat ltac:(discriminate)).
  assert (E2 := O3 2%nat ltac:(discriminate)).
  rewrite O2, O1 in E0 by discriminate. rewrite C0 in E0.
  rewrite O2 in E1 by discriminate. rewrite C1 in E1.
  rewrite C2 in E2.
  destruct b3 as [| c0 [| c1 [| c2 [| c3 [| c4 b3]]]]]; cbn in Hl; try lia.
  change (Some c0 = Some (nmap (fun v => bin_entry (enumerate db) v 0%Z) k x0))
    in E0.
  change (Some c1 = Some (nmap (fun v => bin_entry (enumerate ab) v 0%Z) k x1))
    in E1.
  change (Some c2 = Some (nmap (fun v => bin_entry (enumerate ab) v 0%Z) k x2))
    in E2.
  change (Some c3 = Some (nmap (fun v => bin_entry (enumerate pb) v 0%Z) k x3))
    in C3.
  injection E0 as ->. injection E1 as ->. injection E2 as ->.
  injection C3 as ->. reflexivity.
Qed.

(** The loop leaves the initial value where no bin holds the entry, and
    otherwise the position of a bin that holds it. *)
Lemma bin_entry_cases (s : Z) (bins : list bin) (v : Q) (init : Z) :
  (bin_entry (enumerate_from s bins) v init = init
   /\ forall b, In b bins -> ~ in_bin b v)
  \/ exists (n : nat) (b : bin),
       nth_error bins n = Some b /\ in_bin b v
       /\ bin_entry (enumerate_from s bins) v init = (s + Z.of_nat n)%Z.
Proof.
  revert s init. induction bins as [| c bins IH]; intros s init.
  - left. split; [reflexivity | intros b []].
  - unfold bin_entry. cbn [enumerate_from fold_left fst snd].
    fold (bin_entry (enumerate_from (s + 1) bins) v
                    (if in_binb c v then s else init)).
    destruct (IH (s + 1)%Z (if in_binb c v then s else init))
      as [[Heq Hout] | (n & b & Hn & Hin & Heq)].
    + rewrite Heq. destruct (in_binb c v) eqn:E.
      * right. exists 0%nat, c. apply in_binb_iff in E.
        repeat split; [exact (proj1 E) | exact (proj2 E) | cbn; lia].
      * left. split; [reflexivity |].
        intros b [<- | Hb]; [| now apply Hout].
        intros Hc. apply in_binb_iff in Hc. congruence.
    + right. exists (S n), b. repeat split; try assumption;
        [exact (proj1 Hin) | exact (proj2 Hin) | rewrite Heq; lia].
Qed.

Lemma equal_width_bins_nth (first span : Q) (num_bins : Z) (bins : list bin)
    (n : nat) :
  equal_width_bins first span num_bins = Ok bins ->
  (Z.of_nat n < num_bins)%Z ->
  nth_error bins n
  = Some ((first + span / inject_Z num_bins * inject_Z (Z.of_nat n))%Q,
          Fin (first + span / inject_Z num_bins * (inject_Z (Z.of_nat n) + 1))%Q).
Proof.
  intros Hb Hn. unfold equal_width_bins in Hb.
  destruct (Z.eqb_spec num_bins 0); [discriminate |].
  injection Hb as <-. rewrite nth_error_map, range_nth by lia. reflexivity.
Qed.

Lemma equal_width_bins_lower (first span : Q) (num_bins : Z)
    (bins : list bin) (b : bin) :
  (0 <= span)%Q ->
  equal_width_bins first span num_bins = Ok bins -> In b bins ->
  (first <= lower b)%Q.
Proof.
  intros Hs Hb Hin. unfold equal_width_bins in Hb.
  destruct (Z.eqb_spec num_bins 0) as [| Hne]; [discriminate |].
  injection Hb as <-.
  apply in_map_iff in Hin. destruct Hin as [i [<- Hi]].
  unfold range in Hi. apply in_map_iff in Hi. destruct Hi as [k [<- Hk]].
  apply in_seq in Hk. unfold lower. cbn [fst].
  assert (Hn : (0 < inject_Z num_bins)%Q).
  { change 0%Q with (inject_Z 0). rewrite <- Zlt_Qlt. lia. }
  assert (Hk0 : (0 <= inject_Z (Z.of_nat k))%Q).
  { change 0%Q with (inject_Z 0). rewrite <- Zle_Qle. lia. }
  assert (Hw0 : (0 <= span / inject_Z num_bins)%Q).
  { apply Qle_shift_div_l; [exact Hn | lra]. }
  nra.
Qed.

(** The equal-width table covers its whole domain. *)
Lemma equal_width_bins_cover (first span : Q) (num_bins : Z)
    (bins : list bin) (v : Q) :
  (0 < num_bins)%Z -> (0 < span)%Q ->
  equal_width_bins first span num_bins = Ok bins ->
  (first <= v)%Q -> (v < first + span)%Q ->
  exists (n : nat) (b : bin), nth_error bins n = Some b /\ in_bin b v.
Proof.
  intros Hpos Hs Hb Hlo Hhi.
  assert (Hn : (0 < inject_Z num_bins)%Q).
  { change 0%Q with (inject_Z 0). rewrite <- Zlt_Qlt. exact Hpos. }
  set (w := (span / inject_Z num_bins)%Q).
  assert (Hw : (inject_Z num_bins * w == span)%Q).
  { unfold w. apply Qmult_div_r. lra. }
  assert (Hw0 : (0 < w)%Q).
  { unfold w. apply Qlt_shift_div_l; [exact Hn | lra]. }
  set (t := ((v - first) / w)%Q).
  assert (Ht : (w * t == v - first)%Q).
  { unfold t. apply Qmult_div_r. lra. }
  pose proof (Qfloor_le t) as Hf1. pose proof (Qlt_floor t) as Hf2.
  rewrite inject_Z_plus in Hf2. change (inject_Z 1) with 1%Q in Hf2.
  set (i := Qfloor t) in *.
  assert (Ht0 : (0 <= t)%Q) by nra.
  assert (Htn : (t < inject_Z num_bins)%Q) by nra.
  assert (Hi0 : (0 <= i)%Z).
  { assert (Hq : (inject_Z 0 < inject_Z (i + 1))%Q).
    { rewrite inject_Z_plus. change (inject_Z 0) with 0%Q.
      change (inject_Z 1) with 1%Q. lra. }
    rewrite <- Zlt_Qlt in Hq. lia. }
  assert (Hin : (i < num_bins)%Z).
  { rewrite Zlt_Qlt. lra. }
  exists (Z.to_nat i). eexists.
  split; [apply (equal_width_bins_nth first span num_bins bins _ Hb); lia |].
  rewrite Z2Nat.id by exact Hi0. fold w.
  unfold in_bin, lower, upper. cbn [fst snd]. split; nra.
Qed.

Lemma nget_channel {A : Type} (o0 o1 o2 o3 : matrix A) (c i j : nat) (z : A) :
  nget 3 [o0; o1; o2; o3] [c; i; j] = Some z ->
  (c = 0%nat /\ mget o0 i j = Some z) \/ (c = 1%nat /\ mget o1 i j = Some z)
  \/ (c = 2%nat /\ mget o2 i j = Some z) \/ (c = 3%nat /\ mget o3 i j = Some z).
Proof.
  intros H. rewrite !mget_nget.
  destruct c as [| [| [| [| c]]]].
  - left. split; [reflexivity | exact H].
  - right. left. split; [reflexivity | exact H].
  - right. right. left. split; [reflexivity | exact H].
  - right. right. right. split; [reflexivity | exact H].
  - cbn in H. destruct c; discriminate.
Qed.

Lemma binned_entry_range (bins : list bin) (m : matrix Q) (i j : nat) (z : Z) :
  bins <> [] ->
  mget (nmap (fun v => bin_entry (enumerate bins) v 0%Z) 2 m) i j = Some z ->
  (0 <= z < Z.of_nat (length bins))%Z.
Proof.
  intros Hne H. rewrite mget_nmap in H.
  destruct (mget m i j) as [v |]; [| discriminate].
  injection H as <-. now apply bin_entry_index.
Qed.

Lemma binned_entry_outside (bins : list bin) (m : matrix Q) (i j : nat) (v : Q) :
  mget m i j = Some v ->
  (forall b, In b bins -> ~ in_bin b v) ->
  mget (nmap (fun v => bin_entry (enumerate bins) v 0%Z) 2 m) i j = Some 0%Z.
Proof.
  intros Hv Hout. rewrite mget_nmap, Hv. cbn [option_map]. f_equal.
  apply bin_entry_outside. intros ib Hib.
  destruct (enumerate_from_In _ _ _ Hib) as [k [Hk _]].
  apply Hout. eapply nth_error_In; eauto.
Qed.

Lemma binned_entry_covered (bins : list bin) (m : matrix Q) (i j : nat) (v : Q) :
  mget m i j = Some v ->
  (exists b, In b bins /\ in_bin b v) ->
  exists (n : nat) (b : bin),
    mget (nmap (fun v => bin_entry (enumerate bins) v 0%Z) 2 m) i j
    = Some (Z.of_nat n)
    /\ nth_error bins n = Some b /\ in_bin b v.
Proof.
  intros Hv [b0 [Hb0 Hin0]]. unfold enumerate.
  destruct (bin_entry_cases 0 bins v 0) as [[_ Hout] | (n & b & Hn & Hin & Heq)].
  - exfalso. exact (Hout b0 Hb0 Hin0).
  - exists n, b. split; [| split; assumption].
    rewrite mget_nmap, Hv. cbn [option_map]. f_equal. exact Heq.
Qed.

(** C2 (fails as stated): on a one-residue stack whose four entries carry
    the sentinel -1, [bin_dist_angle_matrix] with 26 bins returns the bin
    indices 0, 12, 12 and 0, not -1. *)
Lemma bin_dist_angle_matrix_sentinel_lost :
  let stack : list (matrix Q) := [[[-1]]; [[-1]]; [[-1]]; [[-1]]]%Q in
  (forall c : nat, (c < 4)%nat -> nget 3 stack [c; 0; 0]%nat = Some (-1)%Q)
  /\ exists out : list (matrix Z),
       bin_dist_angle_matrix 2 stack 26 = Ok out
       /\ out = [[[0]]; [[12]]; [[12]]; [[0]]]%Z
       /\ forall c : nat, (c < 4)%nat -> nget 3 out [c; 0; 0]%nat <> Some (-1)%Z.
Proof.
  cbn zeta. split.
  - intros c Hc. destruct c as [| [| [| [| c]]]]; try reflexivity. lia.
  - eexists. split; [vm_compute; reflexivity |]. split; [reflexivity |].
    intros c Hc. destruct c as [| [| [| [| c]]]]; try discriminate. lia.
Qed.

(** C2 (amended): [bin_dist_angle_matrix] takes no mask and never writes
    the sentinel.  For [num_bins >= 3] every entry of its output is a bin
    index in [0, num_bins); an input entry -1 is reported as bin 0 in the
    distance and phi channels, where no interval holds it, and in the omega
    and theta channels as the index of an angle bin that holds -1. *)
Theorem bin_dist_angle_matrix_no_sentinel (x0 x1 x2 x3 : matrix Q)
    (num_bins : Z) :
  (3 <= num_bins)%Z ->
  exists (out : list (matrix Z)) (omega_bins theta_bins : list bin),
    bin_dist_angle_matrix 2 [x0; x1; x2; x3] num_bins = Ok out
    /\ get_omega_bins num_bins = Ok omega_bins
    /\ get_theta_bins num_bins = Ok theta_bins
    /\ (forall (c i j : nat) (z : Z),
           nget 3 out [c; i; j] = Some z -> (0 <= z < num_bins)%Z)
    /\ (forall i j : nat,
           mget x0 i j = Some (-1)%Q -> nget 3 out [0; i; j]%nat = Some 0%Z)
    /\ (forall i j : nat,
           mget x3 i j = Some (-1)%Q -> nget 3 out [3; i; j]%nat = Some 0%Z)
    /\ (forall i j : nat,
           mget x1 i j = Some (-1)%Q ->
           exists (n : nat) (b : bin),
             nget 3 out [1; i; j]%nat = Some (Z.of_nat n)
             /\ nth_error omega_bins n = Some b /\ in_bin b (-1))
    /\ (forall i j : nat,
           mget x2 i j = Some (-1)%Q ->
           exists (n : nat) (b : bin),
             nget 3 out [2; i; j]%nat = Some (Z.of_nat n)
             /\ nth_error theta_bins n = Some b /\ in_bin b (-1)).
Proof.
  intros H.
  destruct (bin_dist_angle_matrix_channels 2 x0 x1 x2 x3 num_bins H)
    as (db & ob & tb & pb & Hd & Ho & Ht & Hp & Hout).
  exists [nmap (fun v => bin_entry (enumerate db) v 0%Z) 2 x0;
          nmap (fun v => bin_entry (enumerate ob) v 0%Z) 2 x1;
          nmap (fun v => bin_entry (enumerate tb) v 0%Z) 2 x2;
          nmap (fun v => bin_entry (enumerate pb) v 0%Z) 2 x3], ob, tb.
  assert (Hne : (num_bins <> 0)%Z) by lia.
  assert (Hld : Z.of_nat (length db) = num_bins)
    by exact (dist_bins_length H Hd).
  assert (Hlen : forall first span bins,
             equal_width_bins first span num_bins = Ok bins ->
             Z.of_nat (length bins) = num_bins).
  { intros first span bins Hb.
    destruct (equal_width_bins_ok first span num_bins Hne) as [bins' [Hb' Hl]].
    rewrite Hb in Hb'. injection Hb' as <-. rewrite Hl. lia. }
  assert (Hnil : forall bins : list bin,
             Z.of_nat (length bins) = num_bins -> bins <> []).
  { intros bins Hl ->. cbn in Hl. lia. }
  assert (Hcover : forall bins,
             equal_width_bins (-180) (2 * 180) num_bins = Ok bins ->
             exists b, In b bins /\ in_bin b (-1)).
  { intros bins Hb.
    destruct (equal_width_bins_cover (-180) (2 * 180) num_bins bins (-1))
      as (n & b & Hn & Hin); try lra; try lia; try exact Hb.
    exists b. split; [eapply nth_error_In; eauto | exact Hin]. }
  split; [exact Hout |]. split; [exact Ho |]. split; [exact Ht |].
  split; [| split; [| split; [| split]]].
  - intros c i j z Hz.
    destruct (nget_channel _ _ _ _ c i j z Hz)
      as [[_ Hc] | [[_ Hc] | [[_ Hc] | [_ Hc]]]].
    + rewrite <- Hld. apply (binned_entry_range db x0 i j z); auto.
    + rewrite <- (Hlen _ _ _ Ho).
      apply (binned_entry_range ob x1 i j z); eauto.
    + rewrite <- (Hlen _ _ _ Ht).
      apply (binned_entry_range tb x2 i j z); eauto.
    + rewrite <- (Hlen _ _ _ Hp).
      apply (binned_entry_range pb x3 i j z); eauto.
  - intros i j Hv.
    change (nget 2 (nmap (fun v => bin_entry (enumerate db) v 0%Z) 2 x0) [i; j]
            = Some 0%Z).
    rewrite <- mget_nget.
    apply binned_entry_outside with (v := (-1)%Q); [exact Hv |].
    intros b Hb. exact (sentinel_outside_dist_bins num_bins db b H Hd Hb).
  - intros i j Hv.
    change (nget 2 (nmap (fun v => bin_entry (enumerate pb) v 0%Z) 2 x3) [i; j]
            = Some 0%Z).
    rewrite <- mget_nget.
    apply binned_entry_outside with (v := (-1)%Q); [exact Hv |].
    intros b Hb [Hlo _].
    assert (Hs : (0 <= 180)%Q) by lra.
    pose proof (equal_width_bins_lower 0 180 num_bins pb b Hs Hp Hb). lra.
  - intros i j Hv.
    destruct (binned_entry_covered ob x1 i j (-1) Hv (Hcover ob Ho))
      as (n & b & Hn & Hb).
    exists n, b. split; [| exact Hb]. rewrite mget_nget in Hn. exact Hn.
  - intros i j Hv.
    destruct (binned_entry_covered tb x2 i j (-1) Hv (Hcover tb Ht))
      as (n & b & Hn & Hb).
    exists n, b. split; [| exact Hb]. rewrite mget_nget in Hn. exact Hn.
Qed.

Lemma bin_dist_angle_matrix_no_sentinel_witness :
  (3 <= 26)%Z
  /\ exists out : list (matrix Z),
       bin_dist_angle_matrix 2 [[[(-1)%Q]]; [[(-1)%Q]]; [[(-1)%Q]]; [[(-1)%Q]]] 26
       = Ok out
       /\ nget 3 out [0; 0; 0]%nat = Some 0%Z.
Proof.
  assert (H : (3 <= 26)%Z) by lia.
  split; [exact H |].
  destruct (bin_dist_angle_matrix_no_sentinel
              [[(-1)%Q]] [[(-1)%Q]] [[(-1)%Q]] [[(-1)%Q]] 26 H)
    as (out & ob & tb & Hout & _ & _ & _ & H0 & _).
  exists out. split; [exact Hout |]. apply H0. reflexivity.
Defined.

(** ** Transposition *)

Lemma map_nth_seq {A B : Type} (f : A -> B) (d : A) (l : list A) :
  map (fun i => f (nth i l d)) (seq 0 (length l)) = map f l.
Proof.
  induction l as [| a l IH]; [reflexivity |].
  cbn [length seq map nth]. f_equal.
  rewrite <- seq_shift, map_map. exact IH.
Qed.

Lemma combine_map_same {A B C : Type} (f : A -> B) (g : A -> C) (l : list A) :
  combine (map f l) (map g l) = map (fun a => (f a, g a)) l.
Proof. induction l as [| a l IH]; cbn; [reflexivity | now rewrite IH]. Qed.

(** Row [i] of the transpose is column [i] of the matrix. *)
Lemma transpose_unfold {A : Type} (d : A) (n : nat) (m : matrix A) :
  m <> [] -> Forall (fun row => length row = n) m ->
  transpose m = map (fun i => map (fun row => nth i row d) m) (seq 0 n).
Proof.
  induction m as [| r rs IH]; intros Hne Hall; [congruence |].
  pose proof (Forall_inv Hall) as Hr. pose proof (Forall_inv_tail Hall) as Hrs.
  cbn beta in Hr.
  destruct rs as [| r' rs'].
  - cbn [transpose map]. subst n.
    rewrite <- (map_nth_seq (fun x => [x]) d r). reflexivity.
  - change (transpose (r :: r' :: rs'))
      with (map (fun p : A * list A => fst p :: snd p)
                (combine r (transpose (r' :: rs')))).
    rewrite IH by (congruence || assumption).
    assert (Er : r = map (fun i => nth i r d) (seq 0 n)).
    { rewrite <- Hr, (map_nth_seq (fun x => x) d r). symmetry. apply map_id. }
    rewrite Er at 1.
    rewrite combine_map_same, map_map. reflexivity.
Qed.

Lemma nth_error_map_seq {A : Type} (f : nat -> A) (n i : nat) :
  (i < n)%nat -> nth_error (map f (seq 0 n)) i = Some (f i).
Proof.
  intros H. rewrite nth_error_map, nth_error_seq.
  destruct (Nat.ltb_spec i n); [reflexivity | lia].
Qed.

(** ** Contact probabilities *)

(** The logits of all bins at one pair. *)
Lemma fiber_unfold (logits : list (matrix R)) (i j : nat) :
  map (fun ch : matrix R => nth j (nth i ch []) 0%R) logits
  = map (fun c => logit_at logits c i j) (seq 0 (length logits)).
Proof.
  unfold logit_at.
  now rewrite (map_nth_seq (fun ch : matrix R => nth j (nth i ch []) 0%R) []).
Qed.

Lemma generate_probabilities_unfold (logits : list (matrix R)) (n : nat) :
  logits <> [] -> Forall (has_shape n n) logits ->
  generate_probabilities (tensor_unsqueeze0 (mkTensor 3 logits))
  = Ok [map (fun i =>
               map (fun j =>
                      softmax (map (fun ch : matrix R => nth j (nth i ch []) 0%R)
                                   logits))
                   (seq 0 n))
            (seq 0 n)].
Proof.
  intros Hne Hall. unfold generate_probabilities, tensor_unsqueeze0.
  cbn [rank elems map]. do 2 f_equal.
  assert (Hrows : Forall (fun ch : matrix R => length ch = n) logits).
  { eapply Forall_impl; [| exact Hall]. intros ch [H _]. exact H. }
  rewrite (transpose_unfold (A := list R) [] n logits Hne Hrows).
  rewrite !map_map. apply map_ext_in. intros i Hi. apply in_seq in Hi.
  rewrite (transpose_unfold 0%R n).
  - rewrite map_map. apply map_ext. intros j. now rewrite map_map.
  - destruct logits; [congruence | discriminate].
  - apply Forall_forall. intros row Hrow. apply in_map_iff in Hrow.
    destruct Hrow as [ch [<- Hch]].
    rewrite Forall_forall in Hall. destruct (Hall ch Hch) as [Hlen Hcols].
    rewrite Forall_forall in Hcols. apply Hcols. apply nth_In. lia.
Qed.

Lemma contact_probs_unfold (logits : list (matrix R)) (n : nat) (ang8_bin : Z) :
  logits <> [] -> Forall (has_shape n n) logits ->
  contact_probs (mkTensor 3 logits) ang8_bin
  = Ok (map (fun i =>
               map (fun j =>
                      rsum (py_slice_to
                              (softmax (map (fun ch : matrix R =>
                                               nth j (nth i ch []) 0%R) logits))
                              (ang8_bin + 1)))
                   (seq 0 n))
            (seq 0 n)).
Proof.
  intros Hne Hall. unfold contact_probs.
  rewrite (generate_probabilities_unfold logits n Hne Hall). cbn [bind].
  change (py_get [?x] 0) with (Ok x). cbn [bind py_get].
  rewrite !map_map. f_equal. apply map_ext. intros i. now rewrite map_map.
Qed.

Lemma rsum_app (l l' : list R) : rsum (l ++ l') = (rsum l + rsum l')%R.
Proof.
  unfold rsum.
  induction l as [| a l IH]; cbn [app fold_right]; [lra | rewrite IH; lra].
Qed.

Lemma rsum_zero {A : Type} (f : A -> R) (l : list A) :
  (forall a, In a l -> f a = 0%R) -> rsum (map f l) = 0%R.
Proof.
  intros H. unfold rsum. induction l as [| a l IH]; [reflexivity |].
  cbn [map fold_right]. rewrite (H a) by now left. rewrite IH; [lra |].
  intros b Hb. apply H. now right.
Qed.

Lemma rsum_nonneg {A : Type} (f : A -> R) (l : list A) :
  (forall a, (0 <= f a)%R) -> (0 <= rsum (map f l))%R.
Proof.
  intros H. unfold rsum. induction l as [| a l IH]; cbn [map fold_right]; [lra |].
  pose proof (H a). lra.
Qed.

Lemma rsum_exp_pos {A : Type} (f : A -> R) (l : list A) :
  l <> [] -> (0 < rsum (map (fun a => exp (f a)) l))%R.
Proof.
  intros Hne. destruct l as [| a l]; [congruence |].
  pose proof (exp_pos (f a)).
  pose proof (rsum_nonneg (fun a => exp (f a)) l
                (fun a => Rlt_le _ _ (exp_pos (f a)))) as Hl.
  unfold rsum in *. cbn [map fold_right]. lra.
Qed.

Lemma firstn_seq (m n : nat) : firstn m (seq 0 n) = seq 0 (Nat.min m n).
Proof.
  generalize 0%nat as s. revert n.
  induction m as [| m IH]; intros n s; [reflexivity |].
  destruct n as [| n]; [reflexivity |].
  cbn [firstn seq Nat.min]. f_equal. apply IH.
Qed.

(** The value the code computes at a pair is the contact probability of
    the specification. *)
Lemma sliced_softmax_sum (logits : list (matrix R)) (ang8_bin : Z) (i j : nat) :
  (0 <= ang8_bin)%Z ->
  rsum (py_slice_to
          (softmax (map (fun ch : matrix R => nth j (nth i ch []) 0%R) logits))
          (ang8_bin + 1))
  = contact_prob logits ang8_bin i j.
Proof.
  intros Hk. unfold py_slice_to, contact_prob.
  destruct (Z.ltb_spec (ang8_bin + 1) 0); [lia |].
  set (m := Z.to_nat (ang8_bin + 1)).
  unfold softmax. rewrite fiber_unfold, !map_map.
  set (C := length logits).
  rewrite firstn_map, firstn_seq.
  replace (seq 0 m) with (seq 0 (Nat.min m C) ++ seq (Nat.min m C) (m - Nat.min m C)).
  2:{ rewrite <- seq_app. f_equal. lia. }
  rewrite map_app, rsum_app.
  rewrite (rsum_zero (fun c => bin_prob logits c i j)
             (seq (Nat.min m C) (m - Nat.min m C))).
  2:{ intros c Hc. apply in_seq in Hc. unfold bin_prob. fold C.
      destruct (Nat.ltb_spec c C); [lia | reflexivity]. }
  rewrite Rplus_0_r. f_equal. apply map_ext_in. intros c Hc.
  apply in_seq in Hc. unfold bin_prob. fold C.
  destruct (Nat.ltb_spec c C); [| lia].
  reflexivity.
Qed.

Lemma bin_prob_nonneg (logits : list (matrix R)) (c i j : nat) :
  (0 <= bin_prob logits c i j)%R.
Proof.
  unfold bin_prob. destruct (Nat.ltb_spec c (length logits)); [| lra].
  assert (Hne : seq 0 (length logits) <> []).
  { destruct logits; [cbn in *; lia | discriminate]. }
  pose proof (rsum_exp_pos (fun c' => logit_at logits c' i j) _ Hne) as Hpos.
  pose proof (exp_pos (logit_at logits c i j)) as He.
  apply Rlt_le. apply Rdiv_lt_0_compat; assumption.
Qed.

Lemma contact_prob_ge_first (logits : list (matrix R)) (ang8_bin : Z)
    (i j : nat) :
  (0 <= ang8_bin)%Z ->
  (bin_prob logits 0 i j <= contact_prob logits ang8_bin i j)%R.
Proof.
  intros Hk. unfold contact_prob.
  replace (Z.to_nat (ang8_bin + 1)) with (S (Z.to_nat ang8_bin)) by lia.
  cbn [seq map rsum fold_right].
  pose proof (rsum_nonneg (fun c => bin_prob logits c i j)
                (seq 1 (Z.to_nat ang8_bin))
                (fun c => bin_prob_nonneg logits c i j)) as H.
  unfold rsum in H. lra.
Qed.

Lemma gt_half_iff (p : R) : gt_half p = true <-> (p > 1 / 2)%R.
Proof.
  unfold gt_half. destruct (Rlt_dec (1 / 2) p); split; intros H;
    try reflexivity; try discriminate; lra.
Qed.

Lemma contact_probs_shape (logits : list (matrix R)) (n : nat) (ang8_bin : Z) :
  logits <> [] -> Forall (has_shape n n) logits ->
  exists probs : matrix R,
    contact_probs (mkTensor 3 logits) ang8_bin = Ok probs
    /\ has_shape n n probs
    /\ forall i j : nat,
         (i < n)%nat -> (j < n)%nat ->
         mget probs i j
         = Some (rsum (py_slice_to
                         (softmax (map (fun ch : matrix R =>
                                          nth j (nth i ch []) 0%R) logits))
                         (ang8_bin + 1))).
Proof.
  intros Hne Hall. eexists.
  split; [apply (contact_probs_unfold logits n ang8_bin Hne Hall) |].
  split.
  - split; [now rewrite length_map, length_seq |].
    apply Forall_forall. intros row Hrow. apply in_map_iff in Hrow.
    destruct Hrow as [i [<- _]]. now rewrite length_map, length_seq.
  - intros i j Hi Hj. unfold mget.
    rewrite (nth_error_map_seq _ n i Hi).
    rewrite nth_error_map_seq by exact Hj. reflexivity.
Qed.

(** C6: for a distance-channel logits tensor of shape [(C, n, n)] and a bin
    index [ang8_bin], the contact map at [(i, j)] is true if and only if the
    sum of the softmax probabilities of the bins 0 to [ang8_bin] inclusive is
    strictly greater than 1/2; a pair of contact probability exactly 1/2 is
    not in contact, and a pair whose probability mass is all in bin 0 is. *)
Theorem logits_to_contact_map_threshold (logits : list (matrix R)) (n : nat)
    (ang8_bin : Z) :
  logits <> [] -> Forall (has_shape n n) logits -> (0 <= ang8_bin)%Z ->
  exists cmap : matrix bool,
    logits_to_contact_map (mkTensor 3 logits) ang8_bin = Ok cmap
    /\ has_shape n n cmap
    /\ forall i j : nat,
         (i < n)%nat -> (j < n)%nat ->
         exists b : bool,
           mget cmap i j = Some b
           /\ (b = true <-> (contact_prob logits ang8_bin i j > 1 / 2)%R)
           /\ (contact_prob logits ang8_bin i j = (1 / 2)%R -> b = false)
           /\ (bin_prob logits 0 i j = 1%R -> b = true).
Proof.
  intros Hne Hall Hk.
  destruct (contact_probs_shape logits n ang8_bin Hne Hall)
    as (probs & Hp & [Hlen Hcols] & Hent).
  exists (map (map gt_half) probs).
  split; [unfold logits_to_contact_map; now rewrite Hp |].
  split.
  - split; [now rewrite length_map |].
    apply Forall_forall. intros row Hrow. apply in_map_iff in Hrow.
    destruct Hrow as [r [<- Hr]]. rewrite length_map.
    rewrite Forall_forall in Hcols. now apply Hcols.
  - intros i j Hi Hj.
    exists (gt_half (contact_prob logits ang8_bin i j)).
    split.
    + change (map (map gt_half) probs) with (nmap gt_half 2 probs).
      rewrite mget_nmap, (Hent i j Hi Hj). cbn [option_map].
      now rewrite sliced_softmax_sum.
    + split; [apply gt_half_iff |]. split.
      * intros Heq. destruct (gt_half _) eqn:E; [| reflexivity].
        apply gt_half_iff in E. lra.
      * intros H1. apply gt_half_iff.
        pose proof (contact_prob_ge_first logits ang8_bin i j Hk). lra.
Qed.

Lemma logits_to_contact_map_threshold_witness :
  exists cmap : matrix bool,
    logits_to_contact_map (mkTensor 3 [[[0%R]]]) 8 = Ok cmap
    /\ has_shape 1 1 cmap.
Proof.
  assert (Hne : [[[0%R]]] <> []) by discriminate.
  assert (Hall : Forall (has_shape 1 1) [[[0%R]]]).
  { repeat constructor. }
  assert (Hk : (0 <= 8)%Z) by lia.
  destruct (logits_to_contact_map_threshold [[[0%R]]] 1 8 Hne Hall Hk)
    as (cmap & H1 & H2 & _).
  exists cmap. split; assumption.
Defined.

(** ** The stable sort *)

Section StableSort.

Context {A : Type}.
Variable key : A -> R.
Variable tie : A -> A -> Prop.

Lemma insert_by_perm (x : A) (l : list A) :
  Permutation (x :: l) (insert_by key x l).
Proof.
  induction l as [| y t IH]; cbn [insert_by]; [reflexivity |].
  destruct (Rlt_dec (key y) (key x)); [| reflexivity].
  rewrite perm_swap. now apply perm_skip.
Qed.

Lemma sort_by_perm (l : list A) : Permutation l (sort_by key l).
Proof.
  induction l as [| x t IH]; cbn [sort_by]; [reflexivity |].
  rewrite <- insert_by_perm. now apply perm_skip.
Qed.

Lemma insert_by_sorted (x : A) (l : list A) :
  StronglySorted (ordered_by key tie) l ->
  Forall (tie x) l ->
  StronglySorted (ordered_by key tie) (insert_by key x l).
Proof.
  induction l as [| y t IH]; intros Hs Ht; cbn [insert_by].
  - constructor; constructor.
  - apply StronglySorted_inv in Hs. destruct Hs as [Hst Hy].
    pose proof (Forall_inv Ht) as Hxy. pose proof (Forall_inv_tail Ht) as Hxt.
    destruct (Rlt_dec (key y) (key x)) as [Hlt | Hge].
    + constructor; [now apply IH |].
      rewrite <- insert_by_perm. constructor; [now left | exact Hy].
    + constructor; [now constructor |].
      rewrite Forall_forall in *. intros z Hz.
      assert (Hxz : tie x z) by now apply Ht.
      assert (Hkz : (key x <= key z)%R).
      { destruct Hz as [<- | Hz]; [lra |].
        destruct (Hy z Hz) as [H | [H _]]; lra. }
      destruct (Rle_lt_or_eq_dec _ _ Hkz) as [H | H]; [now left | now right].
Qed.

(** Sorting a list that is in [tie] order yields the list ordered by key,
    with equal keys still in [tie] order. *)
Lemma sort_by_sorted (l : list A) :
  StronglySorted tie l -> StronglySorted (ordered_by key tie) (sort_by key l).
Proof.
  induction l as [| x t IH]; intros Hs; cbn [sort_by]; [constructor |].
  apply StronglySorted_inv in Hs. destruct Hs as [Hst Hx].
  apply insert_by_sorted; [now apply IH |].
  now rewrite <- sort_by_perm.
Qed.

End StableSort.

Lemma StronglySorted_impl {A : Type} (P Q : A -> A -> Prop) (l : list A) :
  (forall a b, P a b -> Q a b) -> StronglySorted P l -> StronglySorted Q l.
Proof.
  intros H. induction 1 as [| a l Hs IH Ha]; constructor; [exact IH |].
  eapply Forall_impl; [| exact Ha]. intros b. apply H.
Qed.

Lemma StronglySorted_app {A : Type} (P : A -> A -> Prop) (l l' : list A) :
  StronglySorted P l -> StronglySorted P l' ->
  (forall a b, In a l -> In b l' -> P a b) ->
  StronglySorted P (l ++ l').
Proof.
  intros Hl Hl' H. induction Hl as [| a l Hs IH Ha]; [exact Hl' |].
  cbn [app]. constructor.
  - apply IH. intros x y Hx Hy. apply H; [now right | exact Hy].
  - apply Forall_app. split; [exact Ha |].
    apply Forall_forall. intros y Hy. apply H; [now left | exact Hy].
Qed.

(** ** The pairwise listing *)

Lemma in_enumerate_from {A : Type} (s : Z) (l : list A) (k : Z) (a : A) :
  In (k, a) (enumerate_from s l)
  <-> exists n : nat, k = (s + Z.of_nat n)%Z /\ nth_error l n = Some a.
Proof.
  split.
  - intros H. destruct (enumerate_from_In s l (k, a) H) as [n [Hn Hk]].
    exists n. split; assumption.
  - revert s. induction l as [| b l IH]; intros s [n [Hk Hn]].
    + destruct n; discriminate.
    + destruct n as [| n].
      * cbn in Hn. injection Hn as ->. left. f_equal. lia.
      * right. apply IH. exists n. split; [lia | exact Hn].
Qed.

Lemma in_pairs_of_row (i : Z) (row : list (Z * R)) (x : contact) :
  In x (pairs_of_row i row)
  <-> exists (j : Z) (p : R), In (j, p) row /\ (i < j)%Z /\ x = (i, j, p).
Proof.
  unfold pairs_of_row. rewrite in_flat_map. split.
  - intros [[j p] [Hin Hx]]. cbn [fst snd] in Hx.
    destruct (Z.ltb_spec i j); [| contradiction].
    destruct Hx as [<- | []]. exists j, p. repeat split; assumption.
  - intros (j & p & Hin & Hij & ->). exists (j, p). split; [exact Hin |].
    cbn [fst snd]. destruct (Z.ltb_spec i j); [now left | lia].
Qed.

Lemma in_pairs_of_rows (s : Z) (rows : list (list R)) (i j : Z) (p : R) :
  In (i, j, p) (pairs_of_rows (enumerate_from s rows))
  <-> exists (r c : nat) (row : list R),
        i = (s + Z.of_nat r)%Z /\ j = Z.of_nat c /\ (i < j)%Z
        /\ nth_error rows r = Some row /\ nth_error row c = Some p.
Proof.
  unfold pairs_of_rows. rewrite in_flat_map. split.
  - intros [[i' row] [Hin Hx]]. cbn [fst snd] in Hx.
    apply in_enumerate_from in Hin. destruct Hin as [r [Hi Hr]].
    apply in_pairs_of_row in Hx. destruct Hx as (j' & p' & Hjp & Hlt & Heq).
    injection Heq as -> -> ->.
    apply in_enumerate_from in Hjp. destruct Hjp as [c [Hj Hc]].
    exists r, c, row. repeat split; try assumption; lia.
  - intros (r & c & row & Hi & Hj & Hlt & Hr & Hc).
    exists (i, row). split.
    + apply in_enumerate_from. exists r. split; assumption.
    + cbn [fst snd]. apply in_pairs_of_row. exists j, p.
      split; [| split; [exact Hlt | reflexivity]].
      apply in_enumerate_from. exists c. split; [lia | exact Hc].
Qed.

Lemma pairs_of_row_sorted (i s : Z) (row : list R) :
  StronglySorted row_major (pairs_of_row i (enumerate_from s row))
  /\ Forall (fun x => contact_i x = i /\ (s <= contact_j x)%Z)
            (pairs_of_row i (enumerate_from s row)).
Proof.
  revert s. induction row as [| p row IH]; intros s.
  - split; constructor.
  - destruct (IH (s + 1)%Z) as [Hs Hall].
    unfold pairs_of_row in *. cbn [enumerate_from flat_map fst snd].
    assert (Hall' : Forall (fun x => contact_i x = i /\ (s <= contact_j x)%Z)
                      (flat_map
                         (fun jp : Z * R =>
                            if (i <? fst jp)%Z then [(i, fst jp, snd jp)] else [])
                         (enumerate_from (s + 1) row))).
    { eapply Forall_impl; [| exact Hall]. intros x [H1 H2]. split; [exact H1 | lia]. }
    destruct (i <? s)%Z; cbn [app].
    + split.
      * constructor; [exact Hs |].
        eapply Forall_impl; [| exact Hall]. intros x [H1 H2].
        right. unfold contact_i, contact_j in *. cbn [fst snd]. split; [congruence | lia].
      * constructor; [| exact Hall'].
        unfold contact_i, contact_j. cbn [fst snd]. split; [reflexivity | lia].
    + split; assumption.
Qed.

Lemma pairs_of_rows_sorted (s : Z) (rows : list (list R)) :
  StronglySorted row_major (pairs_of_rows (enumerate_from s rows))
  /\ Forall (fun x => (s <= contact_i x)%Z)
            (pairs_of_rows (enumerate_from s rows)).
Proof.
  revert s. induction rows as [| row rows IH]; intros s.
  - split; constructor.
  - destruct (IH (s + 1)%Z) as [Hs Hall].
    unfold pairs_of_rows in *. cbn [enumerate_from flat_map fst snd].
    destruct (pairs_of_row_sorted s 0 row) as [Hrow Hrow_all].
    fold (enumerate row) in Hrow, Hrow_all.
    split.
    + apply StronglySorted_app; [exact Hrow | exact Hs |].
      intros a b Ha Hb. left.
      rewrite Forall_forall in Hrow_all, Hall.
      destruct (Hrow_all a Ha) as [-> _]. pose proof (Hall b Hb). lia.
    + apply Forall_app. split.
      * eapply Forall_impl; [| exact Hrow_all]. intros x [-> _]. lia.
      * eapply Forall_impl; [| exact Hall]. intros x Hx. cbn beta in Hx. lia.
Qed.

Lemma length_pairs_of_row (i s : Z) (row : list R) :
  length (pairs_of_row i (enumerate_from s row))
  = Z.to_nat (Z.of_nat (length row) - Z.max 0 (i + 1 - s)).
Proof.
  revert s. induction row as [| p row IH]; intros s.
  - cbn. lia.
  - unfold pairs_of_row in *. cbn [enumerate_from flat_map fst snd length].
    rewrite length_app, IH.
    destruct (Z.ltb_spec i s); cbn [length]; lia.
Qed.

Lemma length_pairs_of_rows (n : nat) (s : Z) (rows : list (list R)) :
  (0 <= s)%Z -> Forall (fun row => length row = n) rows ->
  (s + Z.of_nat (length rows) = Z.of_nat n)%Z ->
  (2 * Z.of_nat (length (pairs_of_rows (enumerate_from s rows)))
   = (Z.of_nat n - s) * (Z.of_nat n - s - 1))%Z.
Proof.
  revert s. induction rows as [| row rows IH]; intros s Hs Hall Hlen.
  - cbn [length] in *. cbn. nia.
  - pose proof (Forall_inv Hall) as Hrow. cbn beta in Hrow.
    pose proof (Forall_inv_tail Hall) as Hrows.
    cbn [length] in Hlen.
    unfold pairs_of_rows in *. cbn [enumerate_from flat_map fst snd].
    rewrite length_app. unfold enumerate in *.
    rewrite length_pairs_of_row, Hrow.
    specialize (IH (s + 1)%Z ltac:(lia) Hrows ltac:(lia)).
    replace (Z.max 0 (s + 1 - 0)) with (s + 1)%Z by lia.
    rewrite Nat2Z.inj_add, Z2Nat.id by lia.
    rewrite Z.mul_add_distr_l, IH. ring.
Qed.

Lemma before_of_ordered_by (a b : contact) :
  ordered_by (fun x => (- contact_p x)%R) row_major a b -> before a b.
Proof.
  unfold ordered_by, before. intros [H | [H1 H2]]; [left; lra | right].
  split; [lra | exact H2].
Qed.

(** The listing of a square matrix of contact probabilities. *)
Lemma pairwise_listing (n : nat) (probs : matrix R) :
  has_shape n n probs ->
  let out := sort_by (fun x => (- contact_p x)%R)
                     (pairs_of_rows (enumerate probs)) in
  length out = (n * (n - 1) / 2)%nat
  /\ (forall (i j : Z) (p : R),
         In (i, j, p) out
         <-> (0 <= i < j)%Z /\ (j < Z.of_nat n)%Z
             /\ mget probs (Z.to_nat i) (Z.to_nat j) = Some p)
  /\ StronglySorted before out.
Proof.
  intros [Hlen Hcols] out. unfold out.
  set (key := fun x : contact => (- contact_p x)%R).
  pose proof (sort_by_perm key (pairs_of_rows (enumerate probs))) as Hperm.
  split; [| split].
  - rewrite <- (Permutation_length Hperm).
    pose proof (length_pairs_of_rows n 0 probs (Z.le_refl 0) Hcols) as H.
    rewrite Hlen in H. specialize (H eq_refl). fold (enumerate probs) in H.
    set (len := length (pairs_of_rows (enumerate probs))) in *.
    assert (H2 : (2 * len = n * (n - 1))%nat) by nia.
    apply Nat.div_unique_exact; lia.
  - intros i j p. split.
    + intros Hin. apply (Permutation_in _ (Permutation_sym Hperm)) in Hin.
      apply in_pairs_of_rows in Hin.
      destruct Hin as (r & c & row & Hi & Hj & Hlt & Hr & Hc).
      rewrite Forall_forall in Hcols.
      pose proof (Hcols row (nth_error_In _ _ Hr)) as Hrow.
      assert (Hcn : (c < n)%nat).
      { rewrite <- Hrow. apply nth_error_Some. congruence. }
      split; [lia |]. split; [lia |].
      unfold mget. replace (Z.to_nat i) with r by lia. rewrite Hr.
      replace (Z.to_nat j) with c by lia. exact Hc.
    + intros (Hij & Hjn & Hm). apply (Permutation_in _ Hperm).
      apply in_pairs_of_rows. unfold mget in Hm.
      destruct (nth_error probs (Z.to_nat i)) as [row |] eqn:Hr; [| discriminate].
      exists (Z.to_nat i), (Z.to_nat j), row.
      repeat split; try assumption; lia.
  - apply StronglySorted_impl with (P := ordered_by key row_major);
      [exact before_of_ordered_by |].
    apply sort_by_sorted. apply (pairs_of_rows_sorted 0 probs).
Qed.

(** C7: for logits of shape [(C, L, L)], hence an L-by-L matrix of contact
    probabilities, the listing holds exactly the [L * (L - 1) / 2] tuples
    [(i, j, p)] with [i < j] and [p] the probability at [(i, j)], in
    descending order of [p], tuples of equal probability in row-major
    order (the order in which the loops produce them). *)
Theorem pairwise_contact_probs_listing (logits : list (matrix R)) (n : nat)
    (ang8_bin : Z) :
  logits <> [] -> Forall (has_shape n n) logits ->
  exists (probs : matrix R) (out : list contact),
    contact_probs (mkTensor 3 logits) ang8_bin = Ok probs
    /\ has_shape n n probs
    /\ pairwise_contact_probs (mkTensor 3 logits) ang8_bin = Ok out
    /\ length out = (n * (n - 1) / 2)%nat
    /\ (forall (i j : Z) (p : R),
           In (i, j, p) out
           <-> (0 <= i < j)%Z /\ (j < Z.of_nat n)%Z
               /\ mget probs (Z.to_nat i) (Z.to_nat j) = Some p)
    /\ StronglySorted before out.
Proof.
  intros Hne Hall.
  destruct (contact_probs_shape logits n ang8_bin Hne Hall)
    as (probs & Hp & Hshape & _).
  exists probs. eexists.
  split; [exact Hp |]. split; [exact Hshape |].
  split; [unfold pairwise_contact_probs; rewrite Hp; reflexivity |].
  exact (pairwise_listing n probs Hshape).
Qed.

Lemma pairwise_contact_probs_listing_witness :
  exists out : list contact,
    pairwise_contact_probs (mkTensor 3 [[[0%R; 0%R]; [0%R; 0%R]]]) 8 = Ok out
    /\ length out = 1%nat.
Proof.
  assert (Hne : [[[0%R; 0%R]; [0%R; 0%R]]] <> []) by discriminate.
  assert (Hall : Forall (has_shape 2 2) [[[0%R; 0%R]; [0%R; 0%R]]]).
  { repeat constructor. }
  destruct (pairwise_contact_probs_listing [[[0%R; 0%R]; [0%R; 0%R]]] 2 8
              Hne Hall) as (probs & out & _ & _ & H1 & H2 & _).
  exists out. split; assumption.
Defined.

(** The example of the specification: probabilities 0.9, 0.3 and 0.6 at
    the pairs (0,1), (0,2) and (1,2). *)
Lemma pairwise_listing_example :
  sort_by (fun x => (- contact_p x)%R)
          (pairs_of_rows (enumerate [[0; 9 / 10; 3 / 10];
                                     [0; 0; 6 / 10];
                                     [0; 0; 0]]%R))
  = [(0%Z, 1%Z, (9 / 10)%R); (1%Z, 2%Z, (6 / 10)%R); (0%Z, 2%Z, (3 / 10)%R)].
Proof.
  cbn. unfold contact_p.
  repeat match goal with
         | |- context [Rlt_dec ?a ?b] =>
             let H := fresh "H" in
             destruct (Rlt_dec a b) as [H | H]; cbn [snd] in H;
             try (exfalso; lra); cbn [insert_by]
         end.
  reflexivity.
Qed.

(** ** Directory splitting *)



Section SplitDirFacts.

Variable absolute : string -> string.
Variable parent : string -> string.
Variable joinpath : string -> string -> string.
Variable shuffle : Z -> list (string * string) -> list (string * string).
Variable float_sum : list Q -> Q.
Variable float_mul : Q -> Q -> Q.




End SplitDirFacts.



(* ================================================================= *)
(** * Part III: further properties of the module *)
(* ================================================================= *)

(** ** Bin tables at the edges of their domain *)

(** X1: [get_dist_bins] has no table for fewer than 3 bins: the
    comprehension is empty and [bins[-1]] raises IndexError. *)
Theorem get_dist_bins_too_few (num_bins : Z) :
  (num_bins <= 2)%Z -> get_dist_bins num_bins = Raise IndexError.
Proof.
  intros H. unfold get_dist_bins, range.
  replace (Z.to_nat (num_bins - 2)) with 0%nat by lia. reflexivity.
Qed.

Lemma get_dist_bins_too_few_witness :
  (2 <= 2)%Z /\ get_dist_bins 2 = Raise IndexError.
Proof.
  assert (H : (2 <= 2)%Z) by lia.
  split; [exact H | exact (get_dist_bins_too_few 2 H)].
Defined.

Lemma inject_Z_succ (i : nat) :
  (inject_Z (Z.of_nat (S i)) == inject_Z (Z.of_nat i) + 1)%Q.
Proof.
  rewrite Nat2Z.inj_succ. unfold Z.succ. rewrite inject_Z_plus. reflexivity.
Qed.

Lemma equal_width_bins_length (first span : Q) (num_bins : Z) (bins : list bin) :
  equal_width_bins first span num_bins = Ok bins ->
  length bins = Z.to_nat num_bins.
Proof.
  intros Hb. unfold equal_width_bins in Hb.
  destruct (Z.eqb_spec num_bins 0); [discriminate |].
  injection Hb as <-. now rewrite length_map, range_length.
Qed.

Lemma equal_width_bins_nth_inv (first span : Q) (num_bins : Z)
    (bins : list bin) (i : nat) (b : bin) :
  equal_width_bins first span num_bins = Ok bins ->
  nth_error bins i = Some b ->
  (Z.of_nat i < num_bins)%Z
  /\ b = ((first + span / inject_Z num_bins * inject_Z (Z.of_nat i))%Q,
          Fin (first + span / inject_Z num_bins * (inject_Z (Z.of_nat i) + 1))%Q).
Proof.
  intros Hb Hi.
  assert (Hlt : (i < length bins)%nat) by (apply nth_error_Some; congruence).
  rewrite (equal_width_bins_length first span num_bins bins Hb) in Hlt.
  assert (Hlt' : (Z.of_nat i < num_bins)%Z) by lia.
  split; [exact Hlt' |].
  rewrite (equal_width_bins_nth first span num_bins bins i Hb Hlt') in Hi.
  now injection Hi as <-.
Qed.

(** An equal-width table is contiguous and its bins do not overlap. *)
Lemma equal_width_bins_contiguous (first span : Q) (num_bins : Z)
    (bins : list bin) :
  (0 <= span)%Q ->
  equal_width_bins first span num_bins = Ok bins ->
  contiguous bins /\ Forall ordered bins.
Proof.
  intros Hs Hb. split.
  - apply contiguous_of_nth. intros i b b' Hi Hi'.
    destruct (equal_width_bins_nth_inv first span num_bins bins i b Hb Hi)
      as [_ ->].
    destruct (equal_width_bins_nth_inv first span num_bins bins (S i) b' Hb Hi')
      as [_ ->].
    unfold meets, upper, lower. cbn [fst snd].
    rewrite inject_Z_succ. reflexivity.
  - apply Forall_forall. intros b Hin. apply In_nth_error in Hin.
    destruct Hin as [i Hi].
    destruct (equal_width_bins_nth_inv first span num_bins bins i b Hb Hi)
      as [Hlt ->].
    unfold ordered, upper, lower. cbn [fst snd].
    assert (Hn : (0 < inject_Z num_bins)%Q).
    { change 0%Q with (inject_Z 0). rewrite <- Zlt_Qlt. lia. }
    assert (Hw0 : (0 <= span / inject_Z num_bins)%Q).
    { apply Qle_shift_div_l; [exact Hn | lra]. }
    nra.
Qed.

(** The facts shared by the four angle tables. *)
Lemma equal_width_bins_table (first span : Q) (num_bins : Z) :
  (1 <= num_bins)%Z -> (0 <= span)%Q ->
  exists bins : list bin,
    equal_width_bins first span num_bins = Ok bins
    /\ Z.of_nat (length bins) = num_bins
    /\ (forall (i : nat) (b : bin),
           nth_error bins i = Some b ->
           exists u : Q,
             upper b = Fin u
             /\ (lower b == first + span / inject_Z num_bins * inject_Z (Z.of_nat i))%Q
             /\ (u - lower b == span / inject_Z num_bins)%Q)
    /\ contiguous bins
    /\ non_overlapping bins
    /\ (exists b0 : bin, nth_error bins 0 = Some b0 /\ (lower b0 == first)%Q)
    /\ (exists (bl : bin) (u : Q),
           nth_error bins (Z.to_nat (num_bins - 1)) = Some bl
           /\ upper bl = Fin u /\ (u == first + span)%Q).
Proof.
  intros Hn Hs.
  assert (Hne : num_bins <> 0%Z) by lia.
  destruct (equal_width_bins_ok first span num_bins Hne) as [bins [Hb Hlen]].
  destruct (equal_width_bins_contiguous first span num_bins bins Hs Hb)
    as [Hc Ho].
  assert (Hq : (0 < inject_Z num_bins)%Q).
  { change 0%Q with (inject_Z 0). rewrite <- Zlt_Qlt. lia. }
  exists bins. split; [exact Hb |]. split; [lia |].
  split; [| split; [exact Hc |
            split; [exact (contiguous_non_overlapping bins Hc Ho) | split]]].
  - intros i b Hi.
    destruct (equal_width_bins_nth_inv first span num_bins bins i b Hb Hi)
      as [_ ->].
    eexists. split; [reflexivity |]. unfold lower. cbn [fst].
    split; [reflexivity | ring].
  - eexists. split;
      [apply (equal_width_bins_nth first span num_bins bins 0 Hb); lia |].
    unfold lower. cbn [fst]. change (inject_Z (Z.of_nat 0)) with 0%Q. ring.
  - do 2 eexists. split;
      [apply (equal_width_bins_nth first span num_bins bins _ Hb); lia |].
    split; [reflexivity |].
    rewrite Z2Nat.id by lia. rewrite inject_Z_pred.
    field. lra.
Qed.

(** X2: for every [num_bins >= 1] the angle table, which is also the omega
    and the theta table, has [num_bins] bins with finite bounds that are
    contiguous and do not overlap, the first starting at -180; the phi
    table has [num_bins] such bins, the first starting at 0. *)
Theorem angle_bins_table (num_bins : Z) :
  (1 <= num_bins)%Z ->
  (exists bins : list bin,
      get_angle_bins num_bins = Ok bins
      /\ get_omega_bins num_bins = Ok bins
      /\ get_theta_bins num_bins = Ok bins
      /\ Z.of_nat (length bins) = num_bins
      /\ (forall (i : nat) (b : bin),
             nth_error bins i = Some b -> exists u : Q, upper b = Fin u)
      /\ contiguous bins /\ non_overlapping bins
      /\ (exists b0 : bin, nth_error bins 0 = Some b0 /\ (lower b0 == -180)%Q))
  /\ (exists bins : list bin,
         get_phi_bins num_bins = Ok bins
         /\ Z.of_nat (length bins) = num_bins
         /\ (forall (i : nat) (b : bin),
                nth_error bins i = Some b -> exists u : Q, upper b = Fin u)
         /\ contiguous bins /\ non_overlapping bins
         /\ (exists b0 : bin, nth_error bins 0 = Some b0 /\ (lower b0 == 0)%Q)).
Proof.
  intros Hn. split.
  - destruct (equal_width_bins_table (-180) (2 * 180) num_bins Hn)
      as (bins & Hb & Hl & Hi & Hc & Hno & H0 & _); [lra |].
    exists bins. repeat split; try assumption.
    intros i b Hib. destruct (Hi i b Hib) as [u [Hu _]]. now exists u.
  - destruct (equal_width_bins_table 0 180 num_bins Hn)
      as (bins & Hb & Hl & Hi & Hc & Hno & H0 & _); [lra |].
    exists bins. repeat split; try assumption.
    intros i b Hib. destruct (Hi i b Hib) as [u [Hu _]]. now exists u.
Qed.

Lemma angle_bins_table_witness :
  (1 <= 26)%Z
  /\ exists bins : list bin,
       get_angle_bins 26 = Ok bins /\ Z.of_nat (length bins) = 26%Z
       /\ contiguous bins /\ non_overlapping bins.
Proof.
  assert (H : (1 <= 26)%Z) by lia.
  split; [exact H |].
  destruct (angle_bins_table 26 H)
    as [(bins & Hb & _ & _ & Hl & _ & Hc & Hno & _) _].
  exists bins. repeat split; assumption.
Defined.

(** ** Decoding tables *)

Lemma get_bin_values_too_few (bins : list bin) :
  (length bins < 3)%nat -> get_bin_values bins = Raise IndexError.
Proof.
  intros H. destruct bins as [| b0 [| b1 [| b2 rest]]]; try reflexivity.
  cbn [length] in H. lia.
Qed.

(** X3: the decoders need a table of at least 3 bins: for [num_bins <= 2]
    [binned_dist_mat_to_values] raises IndexError on every matrix, also the
    empty one, and [binned_euler_mat_to_values] raises ZeroDivisionError
    for [num_bins = 0] and IndexError otherwise. *)
Theorem decoders_need_three_bins (m2 : matrix Z) (m3 : nlist Z 3)
    (num_bins : Z) :
  (num_bins <= 2)%Z ->
  binned_dist_mat_to_values (mkTensor 2 m2) num_bins = Raise IndexError
  /\ binned_euler_mat_to_values (mkTensor 3 m3) num_bins
     = Raise (if (num_bins =? 0)%Z then ZeroDivisionError else IndexError).
Proof.
  intros H. split.
  - unfold binned_dist_mat_to_values.
    now rewrite (get_dist_bins_too_few num_bins H).
  - unfold binned_euler_mat_to_values, get_angle_bins.
    destruct (Z.eqb_spec num_bins 0) as [-> | Hne]; [reflexivity |].
    destruct (equal_width_bins_ok (-180) (2 * 180) num_bins Hne)
      as [bins [Hb Hlen]].
    rewrite Hb. cbn [bind].
    rewrite get_bin_values_too_few by lia. reflexivity.
Qed.

Lemma decoders_need_three_bins_witness :
  binned_dist_mat_to_values (mkTensor 2 [[0%Z]]) 2 = Raise IndexError
  /\ binned_euler_mat_to_values (mkTensor 3 [[[0%Z]]]) 2 = Raise IndexError.
Proof.
  assert (H : (2 <= 2)%Z) by lia.
  exact (decoders_need_three_bins [[0%Z]] [[[0%Z]]] 2 H).
Defined.

Lemma dist_bin_at_lower (num_bins : Z) (i : nat) :
  (3 <= num_bins)%Z -> (1 <= Z.of_nat i < num_bins)%Z ->
  (lower (dist_bin_at num_bins i) == 4 + half * (inject_Z (Z.of_nat i) - 1))%Q.
Proof.
  intros H Hi. unfold dist_bin_at, lower.
  destruct (Nat.eqb_spec i 0); [lia |].
  destruct (Z.ltb_spec (Z.of_nat i) (num_bins - 1)); cbn [fst].
  - rewrite inject_Z_pred. reflexivity.
  - replace (num_bins - 3)%Z with (Z.of_nat i - 1 - 1)%Z by lia.
    rewrite !inject_Z_pred. unfold half. lra.
Qed.

Lemma dist_half_width (num_bins : Z) :
  (3 <= num_bins)%Z ->
  ((lower (dist_bin_at num_bins 2) - lower (dist_bin_at num_bins 1)) / 2
   == 1 # 4)%Q.
Proof.
  intros H.
  rewrite (dist_bin_at_lower num_bins 2 H) by lia.
  rewrite (dist_bin_at_lower num_bins 1 H) by lia.
  change (inject_Z (Z.of_nat 2)) with 2%Q.
  change (inject_Z (Z.of_nat 1)) with 1%Q.
  unfold half. field.
Qed.

(** The decoding table of the distance bins. *)
Lemma dist_bin_values_nth (num_bins : Z) (bins : list bin) :
  (3 <= num_bins)%Z -> get_dist_bins num_bins = Ok bins ->
  exists vals : list Q,
    get_bin_values bins = Ok vals
    /\ length vals = length bins
    /\ forall i : nat,
         (Z.of_nat i < num_bins)%Z ->
         exists v : Q,
           nth_error vals i = Some v
           /\ (v == (15 # 4) + half * inject_Z (Z.of_nat i))%Q.
Proof.
  intros H Hb.
  assert (Hlen : (3 <= length bins)%nat).
  { pose proof (dist_bins_length H Hb). lia. }
  destruct (get_bin_values_lower_gap bins Hlen)
    as (vals & b1 & b2 & Hv & Hl & Hb1 & Hb2 & Hrep & H0).
  cbn zeta in Hrep, H0.
  rewrite (dist_bins_nth 1 H Hb) in Hb1 by lia.
  rewrite (dist_bins_nth 2 H Hb) in Hb2 by lia.
  injection Hb1 as <-. injection Hb2 as <-.
  pose proof (dist_half_width num_bins H) as Hhw.
  pose proof (dist_bin_at_lower num_bins 1 H ltac:(lia)) as Hl1.
  change (inject_Z (Z.of_nat 1)) with 1%Q in Hl1.
  exists vals. split; [exact Hv |]. split; [exact Hl |].
  intros i Hi. destruct i as [| i].
  - eexists. split; [exact H0 |].
    rewrite Hhw, Hl1. change (inject_Z (Z.of_nat 0)) with 0%Q. unfold half. lra.
  - eexists. split.
    + apply Hrep; [lia |]. apply (dist_bins_nth (S i) H Hb). exact Hi.
    + rewrite Hhw, (dist_bin_at_lower num_bins (S i) H) by lia.
      unfold half. lra.
Qed.

(** X4: for [num_bins >= 3] the values that decode the distance bins are
    the grid [3.75 + 0.5 * i], [i = 0 .. num_bins - 1]: the value of bin 0
    is 3.75 and not the middle of [[0, 4)], and the unbounded last bin
    decodes to its lower bound plus 0.25. *)
Theorem dist_bin_values_grid (num_bins : Z) :
  (3 <= num_bins)%Z ->
  exists (bins : list bin) (vals : list Q),
    get_dist_bins num_bins = Ok bins
    /\ get_bin_values bins = Ok vals
    /\ Z.of_nat (length vals) = num_bins
    /\ forall i : nat,
         (Z.of_nat i < num_bins)%Z ->
         exists v : Q,
           nth_error vals i = Some v
           /\ (v == (15 # 4) + (1 # 2) * inject_Z (Z.of_nat i))%Q.
Proof.
  intros H. pose proof (get_dist_bins_unfold H) as Hb.
  destruct (dist_bin_values_nth num_bins _ H Hb) as (vals & Hv & Hl & Hn).
  eexists. exists vals. split; [exact Hb |]. split; [exact Hv |].
  split; [rewrite Hl; exact (dist_bins_length H Hb) | exact Hn].
Qed.

Lemma dist_bin_values_grid_witness :
  (3 <= 26)%Z
  /\ exists (bins : list bin) (vals : list Q),
       get_dist_bins 26 = Ok bins /\ get_bin_values bins = Ok vals
       /\ Z.of_nat (length vals) = 26%Z.
Proof.
  assert (H : (3 <= 26)%Z) by lia.
  split; [exact H |].
  destruct (dist_bin_values_grid 26 H) as (bins & vals & H1 & H2 & H3 & _).
  exists bins, vals. repeat split; assumption.
Defined.

Lemma equal_width_bin_values (first span : Q) (num_bins : Z) (bins : list bin) :
  (3 <= num_bins)%Z ->
  equal_width_bins first span num_bins = Ok bins ->
  exists vals : list Q,
    get_bin_values bins = Ok vals
    /\ length vals = length bins
    /\ forall (i : nat) (b : bin),
         nth_error bins i = Some b ->
         exists u v : Q,
           upper b = Fin u /\ nth_error vals i = Some v
           /\ (v == (lower b + u) / 2)%Q.
Proof.
  intros H Hb.
  pose proof (equal_width_bins_length first span num_bins bins Hb) as Hlen.
  destruct (get_bin_values_lower_gap bins ltac:(lia))
    as (vals & b1 & b2 & Hv & Hl & Hb1 & Hb2 & Hrep & H0).
  cbn zeta in Hrep, H0.
  destruct (equal_width_bins_nth_inv first span num_bins bins 1 b1 Hb Hb1)
    as [_ E1].
  destruct (equal_width_bins_nth_inv first span num_bins bins 2 b2 Hb Hb2)
    as [_ E2].
  assert (Hhw : ((lower b2 - lower b1) / 2 == span / inject_Z num_bins / 2)%Q).
  { rewrite E1, E2. unfold lower. cbn [fst].
    change (inject_Z (Z.of_nat 2)) with 2%Q.
    change (inject_Z (Z.of_nat 1)) with 1%Q.
    apply Qmult_comp; [ring | reflexivity]. }
  exists vals. split; [exact Hv |]. split; [exact Hl |].
  intros i b Hi.
  destruct (equal_width_bins_nth_inv first span num_bins bins i b Hb Hi)
    as [Hlt Eb].
  eexists. exists (match i with
                   | O => lower b1 + (lower b2 - lower b1) / 2
                          - 2 * ((lower b2 - lower b1) / 2)
                   | S _ => lower b + (lower b2 - lower b1) / 2
                   end)%Q.
  split; [rewrite Eb; reflexivity |]. split.
  - destruct i as [| i]; [exact H0 | apply Hrep; [lia | exact Hi]].
  - destruct i as [| i].
    + rewrite Hhw, E1, Eb. unfold lower. cbn [fst].
      change (inject_Z (Z.of_nat 1)) with 1%Q.
      change (inject_Z (Z.of_nat 0)) with 0%Q.
      unfold Qdiv. change (/ 2)%Q with (1 # 2)%Q. ring.
    + rewrite Hhw, Eb. unfold lower. cbn [fst].
      unfold Qdiv. change (/ 2)%Q with (1 # 2)%Q. ring.
Qed.


(** ** Decoding matrices *)

Lemma py_get_wrap {A : Type} (l : list A) (k : Z) (d : A) :
  (- Z.of_nat (length l) <= k < 0)%Z ->
  py_get l k = Ok (nth (Z.to_nat (k + Z.of_nat (length l))) l d).
Proof.
  intros H. unfold py_get.
  destruct (Z.ltb_spec k 0); [| lia].
  destruct (Z.ltb_spec (k + Z.of_nat (length l)) 0); [lia |].
  rewrite (nth_error_nth' l d) by lia. reflexivity.
Qed.

Lemma py_get_out_of_range {A : Type} (l : list A) (k : Z) :
  (k < - Z.of_nat (length l) \/ Z.of_nat (length l) <= k)%Z ->
  py_get l k = Raise IndexError.
Proof.
  intros H. unfold py_get.
  destruct (Z.ltb_spec k 0).
  - destruct (Z.ltb_spec (k + Z.of_nat (length l)) 0); [reflexivity |].
    destruct H as [H | H]; [lia |].
    assert (Hn : nth_error l (Z.to_nat (k + Z.of_nat (length l))) = None)
      by (apply nth_error_None; lia).
    now rewrite Hn.
  - destruct (Z.ltb_spec k 0); [lia |].
    assert (Hn : nth_error l (Z.to_nat k) = None) by (apply nth_error_None; lia).
    now rewrite Hn.
Qed.

Lemma mapM_ok_in {A B : Type} (f : A -> result B) (h : A -> B) (l : list A) :
  (forall a, In a l -> f a = Ok (h a)) -> mapM f l = Ok (map h l).
Proof.
  intros H. induction l as [| a l IH]; [reflexivity |].
  cbn [mapM map]. rewrite (H a) by now left. cbn [bind].
  rewrite IH; [reflexivity |]. intros b Hb. apply H. now right.
Qed.

Lemma matrix_mapM_ok {A B : Type} (P : A -> Prop) (f : A -> result B)
    (h : A -> B) (m : matrix A) :
  (forall a, P a -> f a = Ok (h a)) ->
  Forall (Forall P) m ->
  nmapM f 2 m = Ok (nmap h 2 m).
Proof.
  intros H Hm. cbn [nmapM nmap].
  apply (mapM_ok_in (mapM f) (map h)). intros row Hrow.
  rewrite Forall_forall in Hm. pose proof (Hm row Hrow) as Hr.
  rewrite Forall_forall in Hr.
  apply mapM_ok_in. intros a Ha. apply H. now apply Hr.
Qed.

Lemma matrix_map_id {A : Type} (P : A -> Prop) (g : A -> A) (m : matrix A) :
  (forall a, P a -> g a = a) -> Forall (Forall P) m -> nmap g 2 m = m.
Proof.
  intros H Hm. cbn [nmap].
  rewrite <- (map_id m) at 2. apply map_ext_in. intros row Hrow.
  rewrite Forall_forall in Hm. pose proof (Hm row Hrow) as Hr.
  rewrite Forall_forall in Hr.
  rewrite <- (map_id row) at 2. apply map_ext_in. intros a Ha.
  apply H. now apply Hr.
Qed.

Lemma nmap_nmap {A B C : Type} (f : A -> B) (g : B -> C) (n : nat)
    (x : nlist A n) :
  nmap g n (nmap f n x) = nmap (fun a => g (f a)) n x.
Proof.
  induction n as [| n IH]; [reflexivity |].
  cbn [nmap]. rewrite map_map. apply map_ext. intros a. apply IH.
Qed.

Lemma mapM_raise {A B : Type} (f : A -> result B) (e : exn) (l : list A) :
  (forall a, In a l -> f a = Raise e \/ exists b, f a = Ok b) ->
  (exists a, In a l /\ f a = Raise e) ->
  mapM f l = Raise e.
Proof.
  induction l as [| a l IH]; intros Hall [x [Hx Hfx]]; [contradiction |].
  cbn [mapM]. destruct (Hall a (or_introl eq_refl)) as [Ha | [b Ha]];
    rewrite Ha; cbn [bind]; [reflexivity |].
  rewrite IH; [reflexivity | |].
  - intros y Hy. apply Hall. now right.
  - destruct Hx as [<- | Hx]; [congruence |]. now exists x.
Qed.

Lemma py_get_cases {A : Type} (l : list A) (k : Z) :
  py_get l k = Raise IndexError \/ exists a, py_get l k = Ok a.
Proof.
  unfold py_get.
  destruct ((if (k <? 0)%Z then (k + Z.of_nat (length l))%Z else k) <? 0)%Z;
    [now left |].
  destruct (nth_error l _) as [a |]; [right; now exists a | now left].
Qed.

(** The value of bin [i] of the distance table lies in bin [i]. *)
Lemma dist_bin_value_in_bin (num_bins : Z) (i : nat) (v : Q) :
  (3 <= num_bins)%Z -> (Z.of_nat i < num_bins)%Z ->
  (v == (15 # 4) + half * inject_Z (Z.of_nat i))%Q ->
  in_bin (dist_bin_at num_bins i) v.
Proof.
  intros H Hi Hv.
  assert (Hi0 : (0 <= inject_Z (Z.of_nat i))%Q).
  { change 0%Q with (inject_Z 0). rewrite <- Zle_Qle. lia. }
  destruct i as [| i].
  - unfold dist_bin_at, in_bin, lower, upper. cbn [Nat.eqb fst snd].
    change (inject_Z (Z.of_nat 0)) with 0%Q in Hv. unfold half in Hv.
    split; lra.
  - pose proof (dist_bin_at_lower num_bins (S i) H ltac:(lia)) as Hlo.
    unfold in_bin. split; [rewrite Hlo, Hv; unfold half; lra |].
    unfold dist_bin_at, upper in *. cbn [Nat.eqb] in *.
    destruct (Z.ltb_spec (Z.of_nat (S i)) (num_bins - 1)); cbn [snd];
      [| exact I].
    rewrite Hv, inject_Z_pred. unfold half. lra.
Qed.

(** X6: decode, then bin again: for [num_bins >= 3], a matrix of bin
    indices in [0, num_bins) decoded by [binned_dist_mat_to_values] and
    binned by [bin_distance_matrix] with the same table is the matrix
    itself; no decoded value falls in a neighbouring bin. *)
Theorem dist_decode_then_bin (m : matrix Z) (num_bins fill : Z) :
  (3 <= num_bins)%Z ->
  Forall (Forall (fun k => (0 <= k < num_bins)%Z)) m ->
  exists (bins : list bin) (decoded : matrix Q),
    get_dist_bins num_bins = Ok bins
    /\ binned_dist_mat_to_values (mkTensor 2 m) num_bins
       = Ok (Some (mkTensor 2 decoded))
    /\ bin_distance_matrix (mkTensor 2 decoded) (Some bins) None fill
       = Ok (mkTensor 2 m).
Proof.
  intros H Hm. pose proof (get_dist_bins_unfold H) as Hb.
  match type of Hb with _ = Ok ?l => set (bins := l) in * end.
  destruct (dist_bin_values_nth num_bins bins H Hb) as (vals & Hv & Hl & Hn).
  pose proof (dist_bins_length H Hb) as Hlen.
  set (h := fun k : Z => nth (Z.to_nat k) vals 0%Q).
  exists bins, (nmap h 2 m).
  split; [exact Hb |]. split.
  - unfold binned_dist_mat_to_values. rewrite Hb. cbn [bind].
    rewrite Hv. cbn [bind].
    rewrite (matrix_mapM_ok (fun k => (0 <= k < num_bins)%Z) (py_get vals) h m);
      [reflexivity | | exact Hm].
    intros k Hk. apply py_get_in_range. lia.
  - unfold bin_distance_matrix. rewrite bin_with_no_mask. cbn [rank elems].
    do 2 f_equal. rewrite nmap_nmap.
    apply (matrix_map_id (fun k => (0 <= k < num_bins)%Z)); [| exact Hm].
    intros k Hk.
    destruct (Hn (Z.to_nat k) ltac:(lia)) as [v [Hnth Hval]].
    assert (Hh : h k = v) by (unfold h; now apply nth_error_nth).
    rewrite Hh.
    rewrite (bin_entry_at bins (Z.to_nat k) (dist_bin_at num_bins (Z.to_nat k)) v).
    + lia.
    + apply contiguous_non_overlapping;
        [exact (dist_bins_contiguous H Hb) | exact (dist_bins_ordered H Hb)].
    + apply (dist_bins_nth _ H Hb). lia.
    + apply dist_bin_value_in_bin; [exact H | lia | exact Hval].
Qed.

Lemma dist_decode_then_bin_witness :
  exists (bins : list bin) (decoded : matrix Q),
    get_dist_bins 26 = Ok bins
    /\ binned_dist_mat_to_values (mkTensor 2 [[0; 25]; [7; 3]]%Z) 26
       = Ok (Some (mkTensor 2 decoded))
    /\ bin_distance_matrix (mkTensor 2 decoded) (Some bins) None (-1)
       = Ok (mkTensor 2 [[0; 25]; [7; 3]]%Z).
Proof.
  assert (H : (3 <= 26)%Z) by lia.
  assert (Hm : Forall (Forall (fun k => (0 <= k < 26)%Z)) [[0; 25]; [7; 3]]%Z).
  { repeat constructor; lia. }
  exact (dist_decode_then_bin [[0; 25]; [7; 3]]%Z 26 (-1) H Hm).
Defined.

(** X7: the decoder indexes a Python list, so a negative entry counts from
    the end: for [num_bins >= 3] and entries in [-num_bins, num_bins), the
    sentinel -1 of a masked matrix decodes to the value of the last,
    unbounded bin, [3.75 + 0.5 * (num_bins - 1)], and an entry [k < 0] to
    the value of bin [num_bins + k]. *)
Theorem dist_decode_negative_wraps (m : matrix Z) (num_bins : Z) :
  (3 <= num_bins)%Z ->
  Forall (Forall (fun k => (- num_bins <= k < num_bins)%Z)) m ->
  exists decoded : matrix Q,
    binned_dist_mat_to_values (mkTensor 2 m) num_bins
    = Ok (Some (mkTensor 2 decoded))
    /\ forall (r c : nat) (k : Z),
         mget m r c = Some k ->
         exists v : Q,
           mget decoded r c = Some v
           /\ (v == (15 # 4)
                    + half * inject_Z (if (k <? 0)%Z then k + num_bins else k))%Q.
Proof.
  intros H Hm. pose proof (get_dist_bins_unfold H) as Hb.
  match type of Hb with _ = Ok ?l => set (bins := l) in * end.
  destruct (dist_bin_values_nth num_bins bins H Hb) as (vals & Hv & Hl & Hn).
  pose proof (dist_bins_length H Hb) as Hlen.
  set (idx := fun k : Z => if (k <? 0)%Z then (k + num_bins)%Z else k).
  set (h := fun k : Z => nth (Z.to_nat (idx k)) vals 0%Q).
  exists (nmap h 2 m). split.
  - unfold binned_dist_mat_to_values. rewrite Hb. cbn [bind].
    rewrite Hv. cbn [bind].
    rewrite (matrix_mapM_ok (fun k => (- num_bins <= k < num_bins)%Z)
               (py_get vals) h m); [reflexivity | | exact Hm].
    intros k Hk. unfold h, idx. destruct (Z.ltb_spec k 0).
    + rewrite (py_get_wrap vals k 0%Q) by lia.
      do 3 f_equal. lia.
    + apply py_get_in_range. lia.
  - intros r c k Hk. rewrite mget_nmap, Hk. cbn [option_map].
    assert (Hin : (- num_bins <= k < num_bins)%Z).
    { unfold mget in Hk.
      destruct (nth_error m r) as [row |] eqn:Hr; [| discriminate].
      rewrite Forall_forall in Hm.
      pose proof (Hm row (nth_error_In _ _ Hr)) as Hrow.
      rewrite Forall_forall in Hrow. apply Hrow. eapply nth_error_In; eauto. }
    assert (Hidx : (0 <= idx k < num_bins)%Z).
    { unfold idx. destruct (Z.ltb_spec k 0); lia. }
    destruct (Hn (Z.to_nat (idx k)) ltac:(lia)) as [v [Hnth Hval]].
    exists v. split.
    + f_equal. unfold h. now apply nth_error_nth.
    + rewrite Hval, Z2Nat.id by lia. reflexivity.
Qed.

Lemma dist_decode_negative_wraps_witness :
  exists decoded : matrix Q,
    binned_dist_mat_to_values (mkTensor 2 [[3; -1]; [-1; -1]]%Z) 26
    = Ok (Some (mkTensor 2 decoded)).
Proof.
  assert (H : (3 <= 26)%Z) by lia.
  assert (Hm : Forall (Forall (fun k => (- 26 <= k < 26)%Z)) [[3; -1]; [-1; -1]]%Z).
  { repeat constructor; lia. }
  destruct (dist_decode_negative_wraps [[3; -1]; [-1; -1]]%Z 26 H Hm)
    as [decoded [Hd _]].
  exists decoded. exact Hd.
Defined.

(** X8: for [num_bins >= 3] a matrix with an entry outside
    [-num_bins, num_bins) makes [binned_dist_mat_to_values] raise
    IndexError. *)
Theorem dist_decode_out_of_range (m : matrix Z) (num_bins : Z) (r c : nat)
    (k : Z) :
  (3 <= num_bins)%Z ->
  mget m r c = Some k ->
  (k < - num_bins \/ num_bins <= k)%Z ->
  binned_dist_mat_to_values (mkTensor 2 m) num_bins = Raise IndexError.
Proof.
  intros H Hk Hout. pose proof (get_dist_bins_unfold H) as Hb.
  match type of Hb with _ = Ok ?l => set (bins := l) in * end.
  destruct (dist_bin_values_nth num_bins bins H Hb) as (vals & Hv & Hl & _).
  pose proof (dist_bins_length H Hb) as Hlen.
  unfold binned_dist_mat_to_values. rewrite Hb. cbn [bind].
  rewrite Hv. cbn [bind].
  unfold mget in Hk.
  destruct (nth_error m r) as [row |] eqn:Hr; [| discriminate].
  assert (Hrow : mapM (py_get vals) row = Raise IndexError).
  { apply mapM_raise.
    - intros a _. apply py_get_cases.
    - exists k. split; [eapply nth_error_In; eauto |].
      apply py_get_out_of_range. lia. }
  assert (Hmat : nmapM (py_get vals) 2 m = Raise IndexError).
  { cbn [nmapM]. apply mapM_raise.
    - intros row' _. clear.
      induction row' as [| a row' IH]; [right; now exists [] |].
      cbn [mapM]. destruct (py_get_cases vals a) as [-> | [b ->]];
        cbn [bind]; [now left |].
      destruct IH as [-> | [bs ->]]; cbn [bind]; [now left |].
      right. now eexists.
    - exists row. split; [eapply nth_error_In; eauto | exact Hrow]. }
  now rewrite Hmat.
Qed.

Lemma dist_decode_out_of_range_witness :
  binned_dist_mat_to_values (mkTensor 2 [[3; 26]]%Z) 26 = Raise IndexError.
Proof.
  assert (H : (3 <= 26)%Z) by lia.
  assert (Hk : mget [[3; 26]]%Z 0 1 = Some 26%Z) by reflexivity.
  apply (dist_decode_out_of_range [[3; 26]]%Z 26 0 1 26 H Hk). lia.
Defined.

(** ** Binning under a mask *)

Lemma mget_map_combine_with {A : Type} (F : A -> bool -> A) (m : matrix A)
    (bm : matrix bool) (i j : nat) (x : A) (b : bool) :
  mget m i j = Some x -> mget bm i j = Some b ->
  mget (map (fun p : list A * list bool =>
               map (fun q : A * bool => F (fst q) (snd q))
                   (combine (fst p) (snd p)))
            (combine m bm)) i j
  = Some (F x b).
Proof.
  unfold mget. intros Hx Hb.
  rewrite nth_error_map, nth_error_combine.
  destruct (nth_error m i) as [row |]; [| discriminate].
  destruct (nth_error bm i) as [brow |]; [| discriminate].
  cbn [option_map fst snd].
  rewrite nth_error_map, nth_error_combine, Hx, Hb. reflexivity.
Qed.

Lemma has_shape_map {A B : Type} (f : A -> B) (r c : nat) (m : matrix A) :
  has_shape r c m -> has_shape r c (map (map f) m).
Proof.
  intros [Hr Hc]. split; [now rewrite length_map |].
  apply Forall_forall. intros row Hrow. apply in_map_iff in Hrow.
  destruct Hrow as [row' [<- Hin]]. rewrite length_map.
  rewrite Forall_forall in Hc. now apply Hc.
Qed.

Lemma index_put2_block {A : Type} (k n : nat) (m : matrix (nlist A k))
    (bm : matrix bool) (v : A) :
  has_shape n n m -> has_shape n n bm ->
  exists out : matrix (nlist A k),
    index_put2 k m bm v = Ok out
    /\ forall (i j : nat) (x : nlist A k) (b : bool),
         mget m i j = Some x -> mget bm i j = Some b ->
         mget out i j = Some (if b then nmap (fun _ => v) k x else x).
Proof.
  intros Hm Hbm. unfold index_put2. fold (nlist A k).
  rewrite (same_shape2_true n n m bm Hm Hbm). eexists. split; [reflexivity |].
  intros i j x b Hx Hb.
  exact (mget_map_combine_with
           (fun (old : nlist A k) (c : bool) =>
              if c then nmap (fun _ => v) k old else old)
           m bm i j x b Hx Hb).
Qed.

(** The masking block on a tensor whose first two dimensions are those of
    the mask: the entries below an invalid pair are all filled. *)
Lemma fill_masked_bins_block (k : nat) (binned : matrix (nlist Z k))
    (mask : list Z) (fill : Z) :
  Forall (fun m => m = 0%Z \/ m = 1%Z) mask ->
  has_shape (length mask) (length mask) binned ->
  exists out : matrix (nlist Z k),
    fill_masked_bins (mkTensor (S (S k)) binned) mask fill
    = Ok (mkTensor (S (S k)) out)
    /\ forall (i j : nat) (mi mj : Z) (x : nlist Z k),
         nth_error mask i = Some mi -> nth_error mask j = Some mj ->
         mget binned i j = Some x ->
         mget out i j
         = Some (if (mi =? 0)%Z || (mj =? 0)%Z
                 then nmap (fun _ => fill) k x else x).
Proof.
  intros H01 Hm. unfold fill_masked_bins, tensor_index_put.
  rewrite not_mask_unfold.
  set (nm := map (fun m => (1 - m)%Z) mask).
  assert (Hlen : length mask = length nm) by (unfold nm; now rewrite length_map).
  rewrite Hlen in *.
  destruct (index_put2_block k (length nm) binned
              (gt0 (pair_sum (length nm) nm)) fill Hm
              (gt0_pair_sum_shape nm)) as [out [Hout Hent]].
  exists out. rewrite Hout. split; [reflexivity |].
  intros i j mi mj x Hi Hj Hx.
  rewrite (Hent i j x (0 <? (1 - mj) + (1 - mi))%Z Hx).
  - rewrite Forall_forall in H01.
    pose proof (H01 mi (nth_error_In _ _ Hi)) as Hmi.
    pose proof (H01 mj (nth_error_In _ _ Hj)) as Hmj.
    destruct Hmi as [-> | ->], Hmj as [-> | ->]; reflexivity.
  - apply gt0_pair_sum_entry; unfold nm; rewrite nth_error_map.
    + now rewrite Hi.
    + now rewrite Hj.
Qed.

(** X9: binning under a mask.  For a 0/1 mask of length [L] and an input
    whose first two dimensions are [L] by [L] (a distance matrix, or an
    Euler tensor with its triples), [bin_distance_matrix] and
    [bin_euler_matrix] return the fill value at every pair with an invalid
    residue, in every component, and the bin index of the value at every
    pair of valid residues: the mask is applied after the bins. *)
Theorem bin_under_mask (k : nat) (x : matrix (nlist Q k)) (bins : list bin)
    (mask : list Z) (fill : Z) :
  Forall (fun m => m = 0%Z \/ m = 1%Z) mask ->
  has_shape (length mask) (length mask) x ->
  exists out : matrix (nlist Z k),
    bin_distance_matrix (mkTensor (S (S k)) x) (Some bins) (Some mask) fill
    = Ok (mkTensor (S (S k)) out)
    /\ bin_euler_matrix (mkTensor (S (S k)) x) (Some bins) (Some mask) fill
       = Ok (mkTensor (S (S k)) out)
    /\ forall (i j : nat) (mi mj : Z) (sub : nlist Q k),
         nth_error mask i = Some mi -> nth_error mask j = Some mj ->
         mget x i j = Some sub ->
         mget out i j
         = Some (nmap (fun v => if (mi =? 0)%Z || (mj =? 0)%Z then fill
                                else bin_entry (enumerate bins) v 0%Z) k sub).
Proof.
  intros H01 Hx.
  set (g := fun v : Q => bin_entry (enumerate bins) v 0%Z).
  assert (Hloop : bin_loop (S (S k)) bins x (zeros_like (S (S k)) x)
                  = map (map (nmap g k)) x).
  { rewrite bin_loop_zeros. reflexivity. }
  destruct (fill_masked_bins_block k (map (map (nmap g k)) x) mask fill H01
              (has_shape_map (nmap g k) _ _ x Hx)) as [out [Hout Hent]].
  exists out.
  assert (Hrun : forall d, bin_with d (mkTensor (S (S k)) x) (Some bins)
                             (Some mask) fill = Ok (mkTensor (S (S k)) out)).
  { intros d. unfold bin_with. cbn [bind rank elems]. rewrite Hloop. exact Hout. }
  split; [apply Hrun |]. split; [apply Hrun |].
  intros i j mi mj sub Hi Hj Hsub.
  rewrite (Hent i j mi mj (nmap g k sub) Hi Hj).
  - f_equal. destruct ((mi =? 0)%Z || (mj =? 0)%Z).
    + rewrite nmap_nmap. reflexivity.
    + reflexivity.
  - unfold mget in *. rewrite nth_error_map.
    destruct (nth_error x i) as [row |]; [| discriminate].
    cbn [option_map]. now rewrite nth_error_map, Hsub.
Qed.

Lemma bin_under_mask_witness :
  exists out : matrix Z,
    bin_distance_matrix (mkTensor 2 [[5; 6]; [6; 5]]%Q)
                        (Some [(0%Q, Fin 4); (4%Q, PInf)])
                        (Some [1; 0]%Z) (-1)
    = Ok (mkTensor 2 out).
Proof.
  assert (H01 : Forall (fun m => m = 0%Z \/ m = 1%Z) [1; 0]%Z).
  { constructor; [now right | constructor; [now left | constructor]]. }
  assert (Hx : has_shape (length [1; 0]%Z) (length [1; 0]%Z) [[5; 6]; [6; 5]]%Q).
  { repeat constructor. }
  destruct (bin_under_mask 0 [[5; 6]; [6; 5]]%Q [(0%Q, Fin 4); (4%Q, PInf)]
              [1; 0]%Z (-1) H01 Hx) as [out [Hout _]].
  exists out. exact Hout.
Defined.

(** X10: a mask whose length differs from the side of the matrix makes the
    masked binners raise IndexError, and so does any mask on an input of
    rank below 2. *)
Theorem bin_mask_shape_mismatch (L : nat) (x : matrix Q) (v : list Q)
    (bins : list bin) (mask : list Z) (fill : Z) :
  has_shape L L x -> length mask <> L ->
  bin_distance_matrix (mkTensor 2 x) (Some bins) (Some mask) fill
  = Raise IndexError
  /\ bin_euler_matrix (mkTensor 2 x) (Some bins) (Some mask) fill
     = Raise IndexError
  /\ bin_distance_matrix (mkTensor 1 v) (Some bins) (Some mask) fill
     = Raise IndexError.
Proof.
  intros [Hr Hc] Hne.
  assert (Hrun : forall d, bin_with d (mkTensor 2 x) (Some bins) (Some mask) fill
                           = Raise IndexError).
  { intros d. unfold bin_with. cbn [bind rank elems].
    unfold fill_masked_bins, tensor_index_put, index_put2.
    assert (E : same_shape2
                  (map (map (fun v => bin_entry (enumerate bins) v 0%Z)) x)
                  (gt0 (pair_sum (length mask)
                          (nzip Z.sub 1 (repeat 1%Z (length mask)) mask)))
                = false).
    { apply andb_false_intro1. apply Nat.eqb_neq.
      rewrite not_mask_unfold, length_map, Hr.
      set (nm := map (fun m => (1 - m)%Z) mask).
      assert (Hlen : length mask = length nm)
        by (unfold nm; now rewrite length_map).
      rewrite Hlen. destruct (gt0_pair_sum_shape nm) as [Hbr _].
      rewrite Hbr. congruence. }
    rewrite bin_loop_zeros.
    match goal with
    | |- context [if ?c then _ else _] => destruct c eqn:E'
    end; [| reflexivity].
    exfalso. exact (diff_true_false (eq_trans (eq_sym E') E)). }
  split; [apply Hrun |]. split; [apply Hrun | reflexivity].
Qed.

Lemma bin_mask_shape_mismatch_witness :
  bin_distance_matrix (mkTensor 2 [[5; 6]; [6; 5]]%Q)
                      (Some [(0%Q, Fin 4); (4%Q, PInf)])
                      (Some [1; 0; 1]%Z) (-1)
  = Raise IndexError.
Proof.
  assert (Hx : has_shape 2 2 [[5; 6]; [6; 5]]%Q) by (repeat constructor).
  assert (Hne : length [1; 0; 1]%Z <> 2%nat) by (simpl; lia).
  exact (proj1 (bin_mask_shape_mismatch 2 [[5; 6]; [6; 5]]%Q []
                  [(0%Q, Fin 4); (4%Q, PInf)] [1; 0; 1]%Z (-1) Hx Hne)).
Defined.

(** ** Quantization error *)

(** X11: bin, then decode: for [num_bins >= 3] and a distance [v] in the
    range of the regular bins, [4 <= v < 4 + 0.5 * (num_bins - 2)], the
    value that [binned_dist_mat_to_values] returns for the bin of [v]
    differs from [v] by at most 0.25, half a bin width. *)
Theorem dist_quantization_error (m : matrix Q) (num_bins : Z) (r c : nat)
    (v : Q) (fill : Z) :
  (3 <= num_bins)%Z ->
  mget m r c = Some v ->
  (4 <= v)%Q -> (v < 4 + half * (inject_Z num_bins - 2))%Q ->
  exists (bins : list bin) (binned : matrix Z) (decoded : matrix Q) (d : Q),
    get_dist_bins num_bins = Ok bins
    /\ bin_distance_matrix (mkTensor 2 m) (Some bins) None fill
       = Ok (mkTensor 2 binned)
    /\ binned_dist_mat_to_values (mkTensor 2 binned) num_bins
       = Ok (Some (mkTensor 2 decoded))
    /\ mget decoded r c = Some d
    /\ (- (1 # 4) < d - v)%Q /\ (d - v <= 1 # 4)%Q.
Proof.
  intros H Hm Hlo Hhi. pose proof (get_dist_bins_unfold H) as Hb.
  match type of Hb with _ = Ok ?l => set (bins := l) in * end.
  destruct (dist_bin_values_nth num_bins bins H Hb) as (vals & Hv & Hl & Hn).
  pose proof (dist_bins_length H Hb) as Hlen.
  set (t := ((v - 4) * 2)%Q).
  pose proof (Qfloor_le t) as Hf1. pose proof (Qlt_floor t) as Hf2.
  rewrite inject_Z_plus in Hf2. change (inject_Z 1) with 1%Q in Hf2.
  set (i0 := Qfloor t) in *.
  assert (Hi0 : (0 <= i0)%Z).
  { assert (Hq : (inject_Z 0 < inject_Z (i0 + 1))%Q).
    { rewrite inject_Z_plus. change (inject_Z 0) with 0%Q.
      change (inject_Z 1) with 1%Q. unfold t in *. lra. }
    rewrite <- Zlt_Qlt in Hq. lia. }
  assert (Hi1 : (i0 < num_bins - 2)%Z).
  { rewrite Zlt_Qlt. unfold Z.sub. rewrite inject_Z_plus.
    change (inject_Z (- (2))) with (- (2))%Q. unfold t, half in *. lra. }
  set (i := Z.to_nat (i0 + 1)).
  assert (Hii : Z.of_nat i = (i0 + 1)%Z) by (unfold i; lia).
  assert (Hin : in_bin (dist_bin_at num_bins i) v).
  { pose proof (dist_bin_at_lower num_bins i H ltac:(lia)) as Hlow.
    rewrite Hii, inject_Z_plus in Hlow. change (inject_Z 1) with 1%Q in Hlow.
    split; [rewrite Hlow; unfold t, half in *; lra |].
    unfold dist_bin_at, upper.
    destruct (Nat.eqb_spec i 0); [lia |].
    destruct (Z.ltb_spec (Z.of_nat i) (num_bins - 1)); [| lia].
    cbn [snd]. rewrite Hii.
    replace (i0 + 1 - 1)%Z with i0 by lia. unfold t, half in *. lra. }
  assert (Hentry : bin_entry (enumerate bins) v 0%Z = Z.of_nat i).
  { apply bin_entry_at with (b := dist_bin_at num_bins i).
    - apply contiguous_non_overlapping;
        [exact (dist_bins_contiguous H Hb) | exact (dist_bins_ordered H Hb)].
    - apply (dist_bins_nth _ H Hb). lia.
    - exact Hin. }
  assert (Hne : bins <> []) by (intros E; rewrite E in Hlen; cbn in Hlen; lia).
  destruct (Hn i ltac:(lia)) as [d [Hd Hdv]].
  exists bins, (nmap (fun v => bin_entry (enumerate bins) v 0%Z) 2 m).
  exists (nmap (fun v => nth (Z.to_nat (bin_entry (enumerate bins) v 0%Z)) vals 0%Q)
               2 m), d.
  split; [exact Hb |].
  split; [apply (bin_with_no_mask (get_dist_bins 26) (mkTensor 2 m)) |].
  split; [now apply decode_binned |].
  split.
  - rewrite mget_nmap, Hm. cbn [option_map]. rewrite Hentry, Nat2Z.id.
    f_equal. now apply nth_error_nth.
  - rewrite Hdv, Hii, inject_Z_plus. change (inject_Z 1) with 1%Q.
    unfold t, half in *. split; lra.
Qed.

Lemma dist_quantization_error_witness :
  exists (bins : list bin) (binned : matrix Z) (decoded : matrix Q) (d : Q),
    get_dist_bins 26 = Ok bins
    /\ bin_distance_matrix (mkTensor 2 [[(73 # 10)%Q]]) (Some bins) None (-1)
       = Ok (mkTensor 2 binned)
    /\ binned_dist_mat_to_values (mkTensor 2 binned) 26
       = Ok (Some (mkTensor 2 decoded))
    /\ mget decoded 0 0 = Some d.
Proof.
  assert (H : (3 <= 26)%Z) by lia.
  assert (Hm : mget [[(73 # 10)%Q]] 0 0 = Some (73 # 10)%Q) by reflexivity.
  assert (Hlo : (4 <= 73 # 10)%Q) by (vm_compute; discriminate).
  assert (Hhi : (73 # 10 < 4 + half * (inject_Z 26 - 2))%Q)
    by (vm_compute; reflexivity).
  destruct (dist_quantization_error [[(73 # 10)%Q]] 26 0 0 (73 # 10) (-1)
              H Hm Hlo Hhi)
    as (bins & binned & decoded & d & H1 & H2 & H3 & H4 & _).
  exists bins, binned, decoded, d. repeat split; assumption.
Defined.

(** ** Probabilities *)

Lemma rsum_scale {A : Type} (f : A -> R) (T : R) (l : list A) :
  rsum (map (fun a => (f a / T)%R) l) = (rsum (map f l) / T)%R.
Proof.
  unfold rsum. induction l as [| a l IH]; cbn [map fold_right].
  - unfold Rdiv. now rewrite Rmult_0_l.
  - rewrite IH. unfold Rdiv. ring.
Qed.

Lemma softmax_sum (l : list R) : l <> [] -> rsum (softmax l) = 1%R.
Proof.
  intros Hne. unfold softmax.
  rewrite (rsum_scale exp (rsum (map exp l)) l).
  pose proof (rsum_exp_pos (fun x => x) l Hne) as Hpos.
  change (0 < rsum (map exp l))%R in Hpos.
  apply Rdiv_diag. lra.
Qed.

Lemma softmax_pos (l : list R) : l <> [] -> Forall (fun p => (0 < p)%R) (softmax l).
Proof.
  intros Hne. unfold softmax. apply Forall_forall. intros p Hp.
  apply in_map_iff in Hp. destruct Hp as [x [<- _]].
  pose proof (rsum_exp_pos (fun x => x) l Hne) as Hpos.
  change (0 < rsum (map exp l))%R in Hpos.
  apply Rdiv_lt_0_compat; [apply exp_pos | exact Hpos].
Qed.

Lemma softmax_length (l : list R) : length (softmax l) = length l.
Proof. unfold softmax. apply length_map. Qed.

Lemma generate_probabilities_batch (t : list (list (matrix R))) (n : nat) :
  Forall (fun logits => logits <> [] /\ Forall (has_shape n n) logits) t ->
  generate_probabilities (mkTensor 4 t)
  = Ok (map (fun logits =>
               map (fun i =>
                      map (fun j => softmax (pair_logits logits i j)) (seq 0 n))
                   (seq 0 n))
            t).
Proof.
  intros Hall. unfold generate_probabilities. f_equal.
  rewrite !map_map. apply map_ext_in. intros logits Hin.
  rewrite Forall_forall in Hall. destruct (Hall logits Hin) as [Hne Hshape].
  pose proof (generate_probabilities_unfold logits n Hne Hshape) as E.
  unfold generate_probabilities, tensor_unsqueeze0 in E.
  cbn [rank elems map] in E. injection E as E. exact E.
Qed.

Lemma rsum_ge_member (l : list R) (q : R) :
  Forall (fun x => (0 <= x)%R) l -> In q l -> (q <= rsum l)%R.
Proof.
  unfold rsum. induction l as [| x l IH]; intros Hall Hin; [contradiction |].
  cbn [fold_right].
  pose proof (Forall_inv Hall) as Hx. apply Forall_inv_tail in Hall.
  assert (Hl : (0 <= fold_right Rplus 0 l)%R).
  { clear -Hall. induction Hall as [| y l Hy _ IHl]; cbn [fold_right]; lra. }
  destruct Hin as [<- | Hin]; [lra |].
  specialize (IH Hall Hin). lra.
Qed.

(** X12: for logits of shape [(outmats, C, L, L)] with [C >= 1],
    [generate_probabilities] returns, for every output matrix and every
    pair [(i, j)], the softmax of the [C] logits at that pair, channel by
    channel: a list of [C] numbers between 0 and 1. *)
Theorem generate_probabilities_distribution (t : list (list (matrix R)))
    (n : nat) :
  Forall (fun logits => logits <> [] /\ Forall (has_shape n n) logits) t ->
  exists probs : list (matrix (list R)),
    generate_probabilities (mkTensor 4 t) = Ok probs
    /\ length probs = length t
    /\ forall (b i j : nat) (logits : list (matrix R)),
         nth_error t b = Some logits -> (i < n)%nat -> (j < n)%nat ->
         exists (pm : matrix (list R)) (p : list R),
           nth_error probs b = Some pm /\ mget pm i j = Some p
           /\ p = softmax (pair_logits logits i j)
           /\ length p = length logits
           /\ Forall (fun q => (0 <= q <= 1)%R) p.
Proof.
  intros Hall. eexists.
  split; [apply (generate_probabilities_batch t n Hall) |].
  split; [now rewrite length_map |].
  intros b i j logits Hb Hi Hj.
  rewrite Forall_forall in Hall.
  destruct (Hall logits (nth_error_In _ _ Hb)) as [Hne _].
  assert (Hpl : pair_logits logits i j <> []).
  { unfold pair_logits. destruct logits; [congruence | discriminate]. }
  do 2 eexists. split; [rewrite nth_error_map, Hb; reflexivity |].
  split.
  { unfold mget. rewrite (nth_error_map_seq _ n i Hi).
    rewrite nth_error_map_seq by exact Hj. reflexivity. }
  split; [reflexivity |].
  split; [unfold pair_logits; now rewrite softmax_length, length_map |].
  pose proof (softmax_pos _ Hpl) as Hpos.
  pose proof (softmax_sum _ Hpl) as Hsum.
  assert (Hnn : Forall (fun x => (0 <= x)%R) (softmax (pair_logits logits i j))).
  { revert Hpos. apply Forall_impl. intros x Hx. lra. }
  apply Forall_forall. intros q Hq.
  pose proof (rsum_ge_member _ q Hnn Hq) as Hle. rewrite Hsum in Hle.
  rewrite Forall_forall in Hnn. specialize (Hnn q Hq). lra.
Qed.

Lemma generate_probabilities_distribution_witness :
  exists probs : list (matrix (list R)),
    generate_probabilities (mkTensor 4 [[[[0%R]]; [[1%R]]]]) = Ok probs
    /\ length probs = 1%nat.
Proof.
  assert (Hall : Forall (fun logits => logits <> [] /\ Forall (has_shape 1 1) logits)
                   [[[[0%R]]; [[1%R]]]]).
  { constructor; [| constructor]. split; [discriminate | repeat constructor]. }
  destruct (generate_probabilities_distribution [[[[0%R]]; [[1%R]]]] 1 Hall)
    as (probs & H1 & H2 & _).
  exists probs. split; assumption.
Defined.

(** X13: what [bin_matrix] rejects.  A method other than 'max' and 'avg'
    always ends in ValueError, and with [are_logits] set every input whose
    rank is not 4 ends in ValueError whatever the method, the rank-3 tensor
    of the docstring included. *)
Theorem bin_matrix_value_errors (in_tensor : tensor R) (are_logits : bool)
    (method : string) :
  (method <> "max"%string -> method <> "avg"%string ->
   bin_matrix in_tensor are_logits method = Raise ValueError)
  /\ (rank in_tensor <> 4%nat ->
      bin_matrix in_tensor true method = Raise ValueError).
Proof.
  split.
  - intros Hmax Havg. unfold bin_matrix.
    apply String.eqb_neq in Hmax. apply String.eqb_neq in Havg.
    destruct are_logits.
    + destruct in_tensor as [[| [| [| [| [| r]]]]] e]; cbn [generate_probabilities bind];
        try reflexivity.
      now rewrite Hmax, Havg.
    + cbn [bind]. now rewrite Hmax, Havg.
  - intros Hr. unfold bin_matrix.
    destruct in_tensor as [[| [| [| [| [| r]]]]] e]; cbn [generate_probabilities bind];
      try reflexivity.
    cbn [rank] in Hr. congruence.
Qed.

Lemma bin_matrix_value_errors_witness :
  bin_matrix (mkTensor 3 [[[0%R]]]) false "mean" = Raise ValueError
  /\ bin_matrix (mkTensor 3 [[[0%R]]]) true "max" = Raise ValueError.
Proof.
  split.
  - apply (bin_matrix_value_errors (mkTensor 3 [[[0%R]]]) false "mean");
      discriminate.
  - apply (bin_matrix_value_errors (mkTensor 3 [[[0%R]]]) true "max").
    cbn [rank]. lia.
Defined.

(** ** Discrete predictions *)

Lemma argmax_from_spec (l pre : list R) (bi : Z) (best : R) :
  (0 <= bi < Z.of_nat (length pre))%Z ->
  nth (Z.to_nat bi) (pre ++ l) 0%R = best ->
  (forall x, In x pre -> (x <= best)%R) ->
  (0 <= argmax_from bi best (Z.of_nat (length pre)) l
   < Z.of_nat (length (pre ++ l)))%Z
  /\ forall x, In x (pre ++ l) ->
       (x <= nth (Z.to_nat (argmax_from bi best (Z.of_nat (length pre)) l))
                 (pre ++ l) 0)%R.
Proof.
  revert pre bi best. induction l as [| y t IH]; intros pre bi best Hbi Hnth Hle.
  - cbn [argmax_from]. rewrite app_nil_r in *. split; [exact Hbi |].
    intros x Hx. rewrite Hnth. now apply Hle.
  - cbn [argmax_from].
    assert (Happ : pre ++ y :: t = (pre ++ [y]) ++ t)
      by (rewrite <- app_assoc; reflexivity).
    assert (Hlen : (Z.of_nat (length pre) + 1 = Z.of_nat (length (pre ++ [y])))%Z).
    { rewrite length_app. cbn [length]. lia. }
    rewrite Happ, Hlen.
    destruct (Rlt_dec best y) as [Hlt | Hge].
    + apply IH.
      * rewrite length_app. cbn [length]. lia.
      * rewrite <- Happ, Nat2Z.id, nth_middle. reflexivity.
      * intros x Hx. apply in_app_iff in Hx. destruct Hx as [Hx | [<- | []]];
          [pose proof (Hle x Hx); lra | lra].
    + apply IH.
      * rewrite length_app. cbn [length]. lia.
      * rewrite <- Happ. exact Hnth.
      * intros x Hx. apply in_app_iff in Hx. destruct Hx as [Hx | [<- | []]];
          [now apply Hle | lra].
Qed.

(** [max] returns a position of the list that holds a maximal value. *)
Lemma argmax_spec (l : list R) :
  l <> [] ->
  exists k : Z,
    argmax l = Ok k
    /\ (0 <= k < Z.of_nat (length l))%Z
    /\ forall x, In x l -> (x <= nth (Z.to_nat k) l 0)%R.
Proof.
  intros Hne. destruct l as [| x t]; [congruence |].
  eexists. split; [reflexivity |].
  apply (argmax_from_spec t [x] 0 x).
  - cbn. lia.
  - reflexivity.
  - intros y [<- | []]. lra.
Qed.

Lemma mapM_map_ok_in {A B C : Type} (f : B -> result C) (g : A -> B)
    (h : A -> C) (l : list A) :
  (forall a, In a l -> f (g a) = Ok (h a)) -> mapM f (map g l) = Ok (map h l).
Proof.
  intros H. induction l as [| a l IH]; [reflexivity |].
  cbn [map mapM]. rewrite (H a) by now left. cbn [bind].
  rewrite IH; [reflexivity |]. intros b Hb. apply H. now right.
Qed.

(** A reduction of the probabilities of a batch, pair by pair. *)
Lemma nreduce_probabilities {B : Type} (f : list R -> result B)
    (h : list R -> B) (t : list (list (matrix R))) (n : nat) :
  (forall logits i j, In logits t ->
     f (softmax (pair_logits logits i j)) = Ok (h (softmax (pair_logits logits i j)))) ->
  nreduce f 3
    (map (fun logits =>
            map (fun i =>
                   map (fun j => softmax (pair_logits logits i j)) (seq 0 n))
                (seq 0 n))
         t)
  = Ok (map (fun logits =>
               map (fun i =>
                      map (fun j => h (softmax (pair_logits logits i j)))
                          (seq 0 n))
                   (seq 0 n))
            t).
Proof.
  intros H.
  change (nreduce f 3) with (mapM (mapM (mapM f))).
  apply (mapM_map_ok_in (mapM (mapM f))). intros logits Hin.
  apply (mapM_map_ok_in (mapM f)). intros i _.
  apply (mapM_map_ok_in f). intros j _. now apply H.
Qed.

(** X14: the 'max' policy on logits of shape [(outmats, C, L, L)] with
    [C >= 1]: [bin_matrix] returns, for every output matrix and pair, a bin
    index in [0, C) at which the probability of the pair, the softmax of
    its [C] logits, is the largest. *)
Theorem bin_matrix_max_logits (t : list (list (matrix R))) (n : nat) :
  Forall (fun logits => logits <> [] /\ Forall (has_shape n n) logits) t ->
  exists out : list (matrix Z),
    bin_matrix (mkTensor 4 t) true "max" = Ok (mkTensor 3 out)
    /\ length out = length t
    /\ forall (b i j : nat) (logits : list (matrix R)),
         nth_error t b = Some logits -> (i < n)%nat -> (j < n)%nat ->
         exists (om : matrix Z) (k : Z),
           nth_error out b = Some om /\ mget om i j = Some k
           /\ (0 <= k < Z.of_nat (length logits))%Z
           /\ forall c : nat,
                (c < length logits)%nat ->
                (nth c (softmax (pair_logits logits i j)) 0
                 <= nth (Z.to_nat k) (softmax (pair_logits logits i j)) 0)%R.
Proof.
  intros Hall.
  set (h := fun l : list R => match argmax l with Ok k => k | Raise _ => 0%Z end).
  assert (Hne : forall logits i j, In logits t -> pair_logits logits i j <> []).
  { intros logits i j Hin. rewrite Forall_forall in Hall.
    destruct (Hall logits Hin) as [Hl _]. unfold pair_logits.
    destruct logits; [congruence | discriminate]. }
  assert (Hsm : forall logits i j, In logits t ->
                  softmax (pair_logits logits i j) <> []).
  { intros logits i j Hin E. apply (Hne logits i j Hin).
    apply length_zero_iff_nil. rewrite <- softmax_length, E. reflexivity. }
  eexists. split.
  - unfold bin_matrix. rewrite (generate_probabilities_batch t n Hall).
    cbn [bind String.eqb Ascii.eqb Bool.eqb].
    rewrite (nreduce_probabilities argmax h).
    + cbn [bind]. reflexivity.
    + intros logits i j Hin.
      destruct (argmax_spec _ (Hsm logits i j Hin)) as [k [Hk _]].
      unfold h. now rewrite Hk.
  - split; [now rewrite length_map |].
    intros b i j logits Hb Hi Hj.
    pose proof (nth_error_In _ _ Hb) as Hin.
    destruct (argmax_spec _ (Hsm logits i j Hin)) as [k [Hk [Hrange Hmax]]].
    assert (Hlen : length (softmax (pair_logits logits i j)) = length logits).
    { unfold pair_logits. now rewrite softmax_length, length_map. }
    do 2 eexists. split; [rewrite nth_error_map, Hb; reflexivity |].
    split.
    { unfold mget. rewrite (nth_error_map_seq _ n i Hi).
      rewrite nth_error_map_seq by exact Hj. unfold h. rewrite Hk. reflexivity. }
    split; [lia |].
    intros c Hc. apply Hmax. apply nth_In. lia.
Qed.

Lemma bin_matrix_max_logits_witness :
  exists out : list (matrix Z),
    bin_matrix (mkTensor 4 [[[[0%R]]; [[1%R]]]]) true "max"
    = Ok (mkTensor 3 out)
    /\ length out = 1%nat.
Proof.
  assert (Hall : Forall (fun logits => logits <> [] /\ Forall (has_shape 1 1) logits)
                   [[[[0%R]]; [[1%R]]]]).
  { constructor; [| constructor]. split; [discriminate | repeat constructor]. }
  destruct (bin_matrix_max_logits [[[[0%R]]; [[1%R]]]] 1 Hall)
    as (out & H1 & H2 & _).
  exists out. split; assumption.
Defined.

Lemma rsum_nonneg_list (l : list R) :
  Forall (fun p => (0 <= p)%R) l -> (0 <= rsum l)%R.
Proof.
  unfold rsum. induction 1 as [| x t Hx Ht IH]; cbn [fold_right]; lra.
Qed.

(** The weighted sum of the positions [s, s + 1, ...] lies between the
    first and the last position times the total weight. *)
Lemma weighted_sum_bounds (l : list R) (s : Z) :
  Forall (fun p => (0 <= p)%R) l ->
  (IZR s * rsum l
   <= rsum (map (fun ip : Z * R => (snd ip * IZR (fst ip))%R)
                (enumerate_from s l)))%R
  /\ (rsum (map (fun ip : Z * R => (snd ip * IZR (fst ip))%R)
                (enumerate_from s l))
      <= IZR (s + Z.of_nat (length l) - 1) * rsum l)%R.
Proof.
  revert s. induction l as [| x t IH]; intros s Hpos.
  - unfold rsum. cbn. lra.
  - pose proof (Forall_inv Hpos) as Hx. pose proof (Forall_inv_tail Hpos) as Ht.
    cbn beta in Hx.
    destruct (IH (s + 1)%Z Ht) as [Hlo Hhi].
    pose proof (rsum_nonneg_list t Ht) as Hrt.
    assert (Hlen : (0 <= IZR (Z.of_nat (length t)))%R).
    { apply IZR_le. lia. }
    cbn [enumerate_from map length]. unfold rsum in *.
    cbn [fold_right fst snd].
    replace (s + Z.of_nat (S (length t)) - 1)%Z
      with (s + Z.of_nat (length t))%Z by lia.
    replace (s + 1 + Z.of_nat (length t) - 1)%Z
      with (s + Z.of_nat (length t))%Z in Hhi by lia.
    rewrite plus_IZR in *. change (IZR 1) with 1%R in *.
    split; nra.
Qed.

Lemma round_half_even_range (x : R) (N : Z) :
  (0 <= x)%R -> (x <= IZR N)%R -> (0 <= round_half_even x <= N)%Z.
Proof.
  intros H0 HN. unfold round_half_even.
  destruct (base_Int_part x) as [Hf1 Hf2].
  set (f := Int_part x) in *.
  assert (Hf0 : (0 <= f)%Z).
  { assert (Hlt : (IZR (-1) < IZR f)%R) by (change (IZR (-1)) with (-1)%R; lra).
    apply lt_IZR in Hlt. lia. }
  assert (HfN : (f <= N)%Z) by (apply le_IZR; lra).
  assert (Hup : ~ (x - IZR f < 1 / 2)%R -> (f + 1 <= N)%Z).
  { intros Hr. assert (Hlt : (IZR f < IZR N)%R) by lra.
    apply lt_IZR in Hlt. lia. }
  destruct (Rlt_dec (x - IZR f) (1 / 2)) as [Hr | Hr]; [lia |].
  specialize (Hup Hr).
  destruct (Rlt_dec (1 / 2) (x - IZR f)); [lia |].
  destruct (Z.even f); lia.
Qed.

(** X15: the 'avg' policy on logits of shape [(outmats, C, L, L)] with
    [C >= 1]: [bin_matrix] returns, for every output matrix and pair, the
    rounded probability-weighted mean of the bin indices, and this is a bin
    index between 0 and [C - 1]. *)
Theorem bin_matrix_avg_logits (t : list (list (matrix R))) (n : nat) :
  Forall (fun logits => logits <> [] /\ Forall (has_shape n n) logits) t ->
  exists out : list (matrix Z),
    bin_matrix (mkTensor 4 t) true "avg" = Ok (mkTensor 3 out)
    /\ length out = length t
    /\ forall (b i j : nat) (logits : list (matrix R)),
         nth_error t b = Some logits -> (i < n)%nat -> (j < n)%nat ->
         exists (om : matrix Z) (k : Z),
           nth_error out b = Some om /\ mget om i j = Some k
           /\ k = round_half_even
                    (weighted_index_sum (softmax (pair_logits logits i j)))
           /\ (0 <= k <= Z.of_nat (length logits) - 1)%Z.
Proof.
  intros Hall.
  set (h := fun l : list R => round_half_even (weighted_index_sum l)).
  eexists. split.
  - unfold bin_matrix. rewrite (generate_probabilities_batch t n Hall).
    cbn [bind String.eqb Ascii.eqb Bool.eqb].
    rewrite (nreduce_probabilities (fun l => Ok (h l)) h).
    + cbn [bind]. reflexivity.
    + reflexivity.
  - split; [now rewrite length_map |].
    intros b i j logits Hb Hi Hj.
    pose proof (nth_error_In _ _ Hb) as Hin.
    rewrite Forall_forall in Hall. destruct (Hall logits Hin) as [Hl _].
    assert (Hne : pair_logits logits i j <> []).
    { unfold pair_logits. destruct logits; [congruence | discriminate]. }
    assert (Hlen : length (softmax (pair_logits logits i j)) = length logits).
    { unfold pair_logits. now rewrite softmax_length, length_map. }
    do 2 eexists. split; [rewrite nth_error_map, Hb; reflexivity |].
    split.
    { unfold mget. rewrite (nth_error_map_seq _ n i Hi).
      rewrite nth_error_map_seq by exact Hj. reflexivity. }
    split; [reflexivity |].
    unfold h. apply round_half_even_range.
    + pose proof (softmax_pos _ Hne) as Hpos.
      assert (Hpos' : Forall (fun p => (0 <= p)%R) (softmax (pair_logits logits i j))).
      { eapply Forall_impl; [| exact Hpos]. intros p Hp. cbn beta in Hp. lra. }
      destruct (weighted_sum_bounds _ 0 Hpos') as [Hlo _].
      unfold weighted_index_sum, enumerate. lra.
    + pose proof (softmax_pos _ Hne) as Hpos.
      assert (Hpos' : Forall (fun p => (0 <= p)%R) (softmax (pair_logits logits i j))).
      { eapply Forall_impl; [| exact Hpos]. intros p Hp. cbn beta in Hp. lra. }
      destruct (weighted_sum_bounds _ 0 Hpos') as [_ Hhi].
      rewrite (softmax_sum _ Hne), Hlen, Rmult_1_r in Hhi.
      unfold weighted_index_sum, enumerate.
      replace (Z.of_nat (length logits) - 1)%Z
        with (0 + Z.of_nat (length logits) - 1)%Z by lia.
      exact Hhi.
Qed.

Lemma bin_matrix_avg_logits_witness :
  exists out : list (matrix Z),
    bin_matrix (mkTensor 4 [[[[0%R]]; [[1%R]]]]) true "avg"
    = Ok (mkTensor 3 out)
    /\ length out = 1%nat.
Proof.
  assert (Hall : Forall (fun logits => logits <> [] /\ Forall (has_shape 1 1) logits)
                   [[[[0%R]]; [[1%R]]]]).
  { constructor; [| constructor]. split; [discriminate | repeat constructor]. }
  destruct (bin_matrix_avg_logits [[[[0%R]]; [[1%R]]]] 1 Hall)
    as (out & H1 & H2 & _).
  exists out. split; assumption.
Defined.

(** ** Pairwise distances *)

Lemma expand_rows_unfold {A : Type} (v : list A) :
  expand (length v) (length v) (unsqueeze0 v) = repeat v (length v).
Proof.
  unfold expand, unsqueeze0. rewrite expand1_singleton.
  generalize (length v) at 2 3. intros n.
  induction n as [| n IH]; cbn [repeat map]; [reflexivity |].
  now rewrite expand1_same, IH.
Qed.

Lemma expand_cols_unfold {A : Type} (v : list A) :
  expand (length v) (length v) (transpose (unsqueeze0 v))
  = map (fun x => repeat x (length v)) v.
Proof.
  unfold expand, unsqueeze0. cbn [transpose].
  replace (expand1 (length v) (map (fun x : A => [x]) v))
    with (map (fun x : A => [x]) v).
  2:{ rewrite <- (length_map (fun x : A => [x]) v) at 1.
      symmetry. apply expand1_same. }
  rewrite map_map. apply map_ext. intros x. apply expand1_singleton.
Qed.

(** Entry [(i, j)] of a row expansion combined with a column expansion is
    made of elements [i] and [j]. *)
Lemma nzip_cols_rows {A B : Type} (F : A -> A -> B) (v : list A) :
  nzip F 2 (map (fun x => repeat x (length v)) v) (repeat v (length v))
  = map (fun a => map (fun b => F a b) v) v.
Proof.
  cbn [nzip].
  replace (repeat v (length v))
    with (repeat v (length (map (fun x : A => repeat x (length v)) v)))
    by now rewrite length_map.
  rewrite combine_repeat_r, !map_map. cbn [fst snd].
  apply map_ext. intros a.
  rewrite combine_repeat_l, map_map. reflexivity.
Qed.

Lemma generate_dist_matrix_unfold (coords : matrix R) (fill : R) :
  generate_dist_matrix coords None fill
  = Ok (map (fun a : list R =>
               map (fun b : list R => vec_norm (nzip Rminus 1 a b)) coords)
            coords).
Proof.
  unfold generate_dist_matrix.
  rewrite expand_rows_unfold, expand_cols_unfold. f_equal.
  transitivity
    (nmap vec_norm 2
       (map (fun a : list R => map (fun b : list R => nzip Rminus 1 a b) coords)
            coords)).
  { f_equal. exact (nzip_cols_rows (nzip Rminus 1) coords). }
  cbn [nmap]. rewrite map_map. apply map_ext. intros a. now rewrite map_map.
Qed.

Lemma sq_dist_sym (a b : list R) :
  rsum (map (fun x => (x * x)%R) (nzip Rminus 1 a b))
  = rsum (map (fun x => (x * x)%R) (nzip Rminus 1 b a)).
Proof.
  cbn [nzip]. unfold rsum. revert b.
  induction a as [| x a IH]; intros [| y b]; cbn; try reflexivity.
  f_equal; [ring | exact (IH b)].
Qed.

Lemma sq_dist_self (a : list R) :
  rsum (map (fun x => (x * x)%R) (nzip Rminus 1 a a)) = 0%R.
Proof.
  cbn [nzip]. unfold rsum.
  induction a as [| x a IH]; cbn; [reflexivity |].
  replace (fold_right Rplus 0%R
             (map (fun x0 : R => (x0 * x0)%R)
                (map (fun p : R * R => (fst p - snd p)%R) (combine a a))))
    with 0%R by (symmetry; exact IH).
  ring.
Qed.

Lemma mget_outer {A B : Type} (F : A -> A -> B) (v : list A) (i j : nat) :
  mget (map (fun a => map (fun b => F a b) v) v) i j
  = match nth_error v i, nth_error v j with
    | Some a, Some b => Some (F a b)
    | _, _ => None
    end.
Proof.
  unfold mget. rewrite nth_error_map.
  destruct (nth_error v i) as [a |]; cbn [option_map]; [| reflexivity].
  rewrite nth_error_map. now destruct (nth_error v j).
Qed.

Lemma dist_mat_entry (coords : matrix R) (i j : nat) :
  mget (map (fun a : list R =>
               map (fun b : list R => vec_norm (nzip Rminus 1 a b)) coords)
            coords) i j
  = match nth_error coords i, nth_error coords j with
    | Some a, Some b => Some (vec_norm (nzip Rminus 1 a b))
    | _, _ => None
    end.
Proof.
  exact (mget_outer (fun a b : list R => vec_norm (nzip Rminus 1 a b))
           coords i j).
Qed.

(** X16: the distance matrix of [n] points without a mask is the n-by-n
    matrix of the Euclidean norms of the coordinate differences; it is
    symmetric, zero on the diagonal and nowhere negative. *)
Theorem generate_dist_matrix_metric (coords : matrix R) (fill : R) :
  exists dist : matrix R,
    generate_dist_matrix coords None fill = Ok dist
    /\ has_shape (length coords) (length coords) dist
    /\ (forall (i j : nat) (a b : list R),
           nth_error coords i = Some a -> nth_error coords j = Some b ->
           mget dist i j = Some (vec_norm (nzip Rminus 1 a b)))
    /\ (forall i j : nat, mget dist i j = mget dist j i)
    /\ (forall i : nat, (i < length coords)%nat -> mget dist i i = Some 0%R)
    /\ (forall (i j : nat) (x : R), mget dist i j = Some x -> (0 <= x)%R).
Proof.
  eexists. split; [apply generate_dist_matrix_unfold |].
  split; [apply has_shape_map_const; intros a; apply length_map |].
  split; [| split; [| split]].
  - intros i j a b Hi Hj. now rewrite dist_mat_entry, Hi, Hj.
  - intros i j. rewrite !dist_mat_entry.
    destruct (nth_error coords i) as [a |], (nth_error coords j) as [b |];
      try reflexivity.
    unfold vec_norm. now rewrite sq_dist_sym.
  - intros i Hi. rewrite dist_mat_entry.
    destruct (nth_error coords i) as [a |] eqn:Ha.
    + unfold vec_norm. now rewrite sq_dist_self, sqrt_0.
    + apply nth_error_None in Ha. lia.
  - intros i j x Hx. rewrite dist_mat_entry in Hx.
    destruct (nth_error coords i) as [a |]; [| discriminate].
    destruct (nth_error coords j) as [b |]; [| discriminate].
    injection Hx as <-. apply sqrt_pos.
Qed.

Lemma generate_dist_mask_entry (v : list Z) (i j : nat) (vi vj : Z) :
  nth_error v i = Some vi -> nth_error v j = Some vj ->
  mget (gt0 (nzip Z.add 2
               (expand (length v) (length v) (transpose (unsqueeze0 v)))
               (expand (length v) (length v) (unsqueeze0 v)))) i j
  = Some (0 <? vi + vj)%Z.
Proof.
  intros Hi Hj. rewrite expand_rows_unfold, expand_cols_unfold.
  rewrite (nzip_cols_rows Z.add v). unfold gt0.
  rewrite mget_nmap, mget_outer, Hi, Hj. reflexivity.
Qed.

Lemma generate_dist_mask_shape (v : list Z) :
  has_shape (length v) (length v)
    (gt0 (nzip Z.add 2
            (expand (length v) (length v) (transpose (unsqueeze0 v)))
            (expand (length v) (length v) (unsqueeze0 v)))).
Proof.
  rewrite expand_rows_unfold, expand_cols_unfold.
  rewrite (nzip_cols_rows Z.add v). unfold gt0. cbn [nmap]. rewrite map_map.
  apply has_shape_map_const. intros a. now rewrite !length_map.
Qed.

(** X17: with a 0/1 mask as long as the list of points,
    [generate_dist_matrix] returns the fill value at every pair with an
    invalid point and the Euclidean distance at every pair of valid
    points. *)
Theorem generate_dist_matrix_masked (coords : matrix R) (mask : list Z)
    (fill : R) :
  Forall (fun m => m = 0%Z \/ m = 1%Z) mask ->
  length mask = length coords ->
  exists dist : matrix R,
    generate_dist_matrix coords (Some mask) fill = Ok dist
    /\ forall (i j : nat) (mi mj : Z) (a b : list R),
         nth_error mask i = Some mi -> nth_error mask j = Some mj ->
         nth_error coords i = Some a -> nth_error coords j = Some b ->
         mget dist i j
         = Some (if (mi =? 0)%Z || (mj =? 0)%Z then fill
                 else vec_norm (nzip Rminus 1 a b)).
Proof.
  intros H01 Hlen.
  set (nm := map (fun m => (1 - m)%Z) mask).
  assert (Hnm : length mask = length nm) by (unfold nm; now rewrite length_map).
  set (bm := gt0 (nzip Z.add 2
                    (expand (length nm) (length nm) (transpose (unsqueeze0 nm)))
                    (expand (length nm) (length nm) (unsqueeze0 nm)))).
  assert (E : generate_dist_matrix coords (Some mask) fill
              = (d <- generate_dist_matrix coords None fill ;;
                 index_put2 0 d bm fill)).
  { unfold bm, nm. rewrite !length_map, <- not_mask_unfold. reflexivity. }
  rewrite E, generate_dist_matrix_unfold. cbn [bind].
  set (dist0 := map (fun a : list R =>
                        map (fun b : list R => vec_norm (nzip Rminus 1 a b))
                            coords)
                    coords).
  assert (Hshape : has_shape (length nm) (length nm) dist0).
  { rewrite <- Hnm, Hlen. apply has_shape_map_const. intros a. apply length_map. }
  destruct (index_put2_entries (length nm) dist0 bm fill Hshape
              (generate_dist_mask_shape nm)) as [out [Hout Hent]].
  exists out. split; [exact Hout |].
  intros i j mi mj a b Hi Hj Ha Hb.
  rewrite (Hent i j (vec_norm (nzip Rminus 1 a b)) (0 <? (1 - mi) + (1 - mj))%Z).
  - rewrite Forall_forall in H01.
    pose proof (H01 mi (nth_error_In _ _ Hi)) as Hmi.
    pose proof (H01 mj (nth_error_In _ _ Hj)) as Hmj.
    destruct Hmi as [-> | ->], Hmj as [-> | ->]; reflexivity.
  - unfold dist0. now rewrite dist_mat_entry, Ha, Hb.
  - apply generate_dist_mask_entry; unfold nm; rewrite nth_error_map.
    + now rewrite Hi.
    + now rewrite Hj.
Qed.

Lemma generate_dist_matrix_masked_witness :
  Forall (fun m => m = 0%Z \/ m = 1%Z) [1; 0]%Z
  /\ length [1; 0]%Z = length [[0; 0; 0]; [3; 4; 0]]%R
  /\ exists dist : matrix R,
       generate_dist_matrix [[0; 0; 0]; [3; 4; 0]]%R (Some [1; 0]%Z) (-1)
       = Ok dist
       /\ forall (i j : nat) (mi mj : Z) (a b : list R),
            nth_error [1; 0]%Z i = Some mi -> nth_error [1; 0]%Z j = Some mj ->
            nth_error [[0; 0; 0]; [3; 4; 0]]%R i = Some a ->
            nth_error [[0; 0; 0]; [3; 4; 0]]%R j = Some b ->
            mget dist i j
            = Some (if (mi =? 0)%Z || (mj =? 0)%Z then (-1)%R
                    else vec_norm (nzip Rminus 1 a b)).
Proof.
  assert (H01 : Forall (fun m => m = 0%Z \/ m = 1%Z) [1; 0]%Z).
  { constructor; [now right | constructor; [now left | constructor]]. }
  assert (Hlen : length [1; 0]%Z = length [[0; 0; 0]; [3; 4; 0]]%R)
    by reflexivity.
  split; [exact H01 |]. split; [exact Hlen |].
  exact (generate_dist_matrix_masked [[0; 0; 0]; [3; 4; 0]]%R [1; 0]%Z (-1)
           H01 Hlen).
Defined.

(** ** Filling along a diagonal *)

Lemma nth_error_enumerate_from {A : Type} (s : Z) (l : list A) (j : nat) :
  nth_error (enumerate_from s l) j
  = option_map (fun x => ((s + Z.of_nat j)%Z, x)) (nth_error l j).
Proof.
  revert s j. induction l as [| a l IH]; intros s j.
  - now destruct j.
  - destruct j as [| j]; cbn [enumerate_from nth_error option_map].
    + do 2 f_equal. lia.
    + rewrite IH. destruct (nth_error l j); cbn [option_map]; [| reflexivity].
      do 2 f_equal. lia.
Qed.

Lemma bool_eq_iff (a b : bool) : (a = true <-> b = true) -> a = b.
Proof. destruct a, b; intuition congruence. Qed.

(** A slice assignment whose left bound is not negative writes the
    positions from [left] up to, not including, [right]; a negative
    [right] counts from the end of the row. *)
Lemma nth_error_py_slice_fill {A : Type} (row : list A) (l r : Z) (v : A)
    (j : nat) :
  (0 <= l)%Z ->
  nth_error (py_slice_fill row l r v) j
  = option_map
      (fun x => if ((l <=? Z.of_nat j)
                    && (Z.of_nat j
                        <? (if r <? 0 then r + Z.of_nat (length row) else r)))%Z
                then v else x)
      (nth_error row j).
Proof.
  intros Hl. unfold py_slice_fill, enumerate.
  rewrite nth_error_map, nth_error_enumerate_from.
  destruct (nth_error row j) as [x |] eqn:E; cbn [option_map]; [| reflexivity].
  assert (Hj : (j < length row)%nat) by (apply nth_error_Some; congruence).
  cbn [fst snd].
  destruct (Z.ltb_spec l 0) as [H | _]; [lia |].
  f_equal.
  match goal with
  | |- (if ?a then _ else _) = (if ?b then _ else _) =>
      replace a with b; [reflexivity |]
  end.
  apply bool_eq_iff.
  destruct (Z.ltb_spec r 0) as [H | H];
    rewrite !andb_true_iff, !Z.leb_le, !Z.ltb_lt; lia.
Qed.

Lemma length_enumerate_from {A : Type} (s : Z) (l : list A) :
  length (enumerate_from s l) = length l.
Proof.
  revert s. induction l as [| a l IH]; intros s; [reflexivity |].
  cbn [enumerate_from length]. now rewrite IH.
Qed.

Lemma length_py_slice_fill {A : Type} (row : list A) (l r : Z) (v : A) :
  length (py_slice_fill row l r v) = length row.
Proof.
  unfold py_slice_fill, enumerate.
  now rewrite length_map, length_enumerate_from.
Qed.

Lemma fill_rows_prefix {A : Type} (method : String.string) (d : Z) (v : A)
    (m : matrix A) (bounds : Z -> Z * Z) :
  (forall i, diagonal_bounds method (Z.of_nat (length m)) i d = Ok (bounds i)) ->
  forall k : nat, (k <= length m)%nat ->
  exists out : matrix A,
    fold_left (fill_rows_step method (Z.of_nat (length m)) d v)
              (map Z.of_nat (seq 0 k)) (Ok m) = Ok out
    /\ length out = length m
    /\ forall i : nat,
         nth_error out i
         = if (i <? k)%nat
           then option_map
                  (fun row => py_slice_fill row (fst (bounds (Z.of_nat i)))
                                            (snd (bounds (Z.of_nat i))) v)
                  (nth_error m i)
           else nth_error m i.
Proof.
  intros Hb k. induction k as [| k IH]; intros Hk.
  - exists m. split; [reflexivity |]. split; [reflexivity |]. reflexivity.
  - destruct IH as [out [Hfold [Hlen Hnth]]]; [lia |].
    rewrite seq_S, map_app, fold_left_app, Hfold. cbn [plus map fold_left].
    unfold fill_rows_step at 1. cbn [bind]. rewrite Hb. cbn [bind].
    destruct (nth_error m k) as [row |] eqn:Hrow.
    2:{ apply nth_error_None in Hrow. lia. }
    assert (Hout : nth_error out k = Some row).
    { rewrite Hnth. now rewrite Nat.ltb_irrefl. }
    rewrite (py_get_nth out k row Hout). cbn [bind]. rewrite Nat2Z.id.
    eexists. split; [reflexivity |].
    split; [now rewrite length_list_set |].
    intros i. destruct (Nat.eq_dec i k) as [-> | Hne].
    + rewrite nth_error_list_set_eq by lia.
      destruct (Nat.ltb_spec k (S k)); [| lia].
      now rewrite Hrow.
    + rewrite nth_error_list_set_neq by exact Hne. rewrite Hnth.
      destruct (Nat.ltb_spec i k), (Nat.ltb_spec i (S k)); try lia; reflexivity.
Qed.

(** The loop fills, in each row, the positions between the bounds of the
    row. *)
Lemma fill_rows_entries {A : Type} (method : String.string) (d : Z) (v : A)
    (m : matrix A) (bounds : Z -> Z * Z) :
  (forall i, diagonal_bounds method (Z.of_nat (length m)) i d = Ok (bounds i)) ->
  (forall i, (0 <= fst (bounds i))%Z) ->
  exists out : matrix A,
    fill_rows m d v method = Ok out
    /\ length out = length m
    /\ (forall r c : nat, has_shape r c m -> has_shape r c out)
    /\ forall (i j : nat) (row : list A),
         nth_error m i = Some row ->
         mget out i j
         = option_map
             (fun x =>
                let b := bounds (Z.of_nat i) in
                if ((fst b <=? Z.of_nat j)
                    && (Z.of_nat j
                        <? (if snd b <? 0 then snd b + Z.of_nat (length row)
                            else snd b)))%Z
                then v else x)
             (nth_error row j).
Proof.
  intros Hb Hpos.
  destruct (fill_rows_prefix method d v m bounds Hb (length m) (Nat.le_refl _))
    as [out [Hfold [Hlen Hnth]]].
  exists out. split.
  { unfold fill_rows, range. now rewrite Nat2Z.id. }
  assert (Hrow : forall i : nat,
             nth_error out i
             = option_map
                 (fun row => py_slice_fill row (fst (bounds (Z.of_nat i)))
                                           (snd (bounds (Z.of_nat i))) v)
                 (nth_error m i)).
  { intros i. rewrite Hnth. destruct (Nat.ltb_spec i (length m)) as [H | H];
      [reflexivity |].
    apply nth_error_None in H. now rewrite H. }
  split; [exact Hlen |]. split.
  - intros r c [Hr Hc]. split; [congruence |].
    apply Forall_forall. intros row Hin.
    apply In_nth_error in Hin. destruct Hin as [i Hi].
    rewrite Hrow in Hi.
    destruct (nth_error m i) as [row0 |] eqn:E; [| discriminate].
    cbn [option_map] in Hi. injection Hi as <-.
    rewrite length_py_slice_fill.
    rewrite Forall_forall in Hc. exact (Hc row0 (nth_error_In _ _ E)).
  - intros i j row Hi. unfold mget. rewrite Hrow, Hi. cbn [option_map].
    apply nth_error_py_slice_fill. apply Hpos.
Qed.

Lemma option_map_ext_eq {A B : Type} (f g : A -> B) (o : option A) :
  (forall a, f a = g a) -> option_map f o = option_map g o.
Proof. intros H. destruct o; cbn; [now rewrite H | reflexivity]. Qed.

Lemma mget_row {A : Type} (m : matrix A) (i j : nat) (row : list A) :
  nth_error m i = Some row -> mget m i j = nth_error row j.
Proof. intros H. unfold mget. now rewrite H. Qed.

Lemma mget_no_row {A : Type} (m m' : matrix A) (i j : nat) :
  length m' = length m -> nth_error m i = None -> mget m' i j = None.
Proof.
  intros Hlen H. unfold mget. apply nth_error_None in H.
  assert (H' : nth_error m' i = None) by (apply nth_error_None; lia).
  now rewrite H'.
Qed.

Ltac same_condition :=
  match goal with
  | |- (if ?a then _ else _) = (if ?b then _ else _) =>
      replace a with b; [reflexivity |]
  end;
  apply bool_eq_iff.

(** X18: on a matrix of [n] rows the methods 'below' and 'above' of
    [fill_diagonally_] write the fill value exactly on the entries
    [(i, j)] with [j < n] and, respectively, [j <= i - d] and
    [j >= i - d]; every other entry is kept. *)
Theorem fill_diagonally_bands {A : Type}
    (byte_index_put : matrix A -> matrix Z -> A -> result (matrix A))
    (m : matrix A) (d : Z) (v : A) :
  (exists out : matrix A,
      fill_diagonally_ byte_index_put m d v "below" = Ok out
      /\ forall i j : nat,
           mget out i j
           = option_map
               (fun x => if ((Z.of_nat j <? Z.of_nat (length m))
                             && (Z.of_nat j <=? Z.of_nat i - d))%Z
                         then v else x)
               (mget m i j))
  /\ (exists out : matrix A,
         fill_diagonally_ byte_index_put m d v "above" = Ok out
         /\ forall i j : nat,
              mget out i j
              = option_map
                  (fun x => if ((Z.of_nat j <? Z.of_nat (length m))
                                && (Z.of_nat i - d <=? Z.of_nat j))%Z
                            then v else x)
                  (mget m i j)).
Proof.
  set (n := Z.of_nat (length m)).
  split.
  - destruct (fill_rows_entries "below" d v m
                (fun i => (0, Z.min n (Z.max (i - d + 1) 0))%Z))
      as [out [Hout [Hlen [_ Hent]]]].
    + intros i. reflexivity.
    + intros i. cbn [fst]. lia.
    + exists out. split; [exact Hout |]. intros i j.
      destruct (nth_error m i) as [row |] eqn:Hi.
      * rewrite (Hent i j row Hi), (mget_row m i j row Hi).
        apply option_map_ext_eq. intros x. cbv zeta. cbn [fst snd].
        destruct (Z.ltb_spec (Z.min n (Z.max (Z.of_nat i - d + 1) 0)) 0);
          [lia |].
        same_condition.
        rewrite !andb_true_iff, !Z.leb_le, !Z.ltb_lt. lia.
      * unfold mget at 2. rewrite Hi. cbn [option_map].
        now apply (mget_no_row m out).
  - destruct (fill_rows_entries "above" d v m
                (fun i => (Z.min n (Z.max (i - d) 0), n)%Z))
      as [out [Hout [Hlen [_ Hent]]]].
    + intros i. reflexivity.
    + intros i. cbn [fst]. lia.
    + exists out. split; [exact Hout |]. intros i j.
      destruct (nth_error m i) as [row |] eqn:Hi.
      * rewrite (Hent i j row Hi), (mget_row m i j row Hi).
        apply option_map_ext_eq. intros x. cbv zeta. cbn [fst snd].
        destruct (Z.ltb_spec n 0); [lia |].
        same_condition.
        rewrite !andb_true_iff, !Z.leb_le, !Z.ltb_lt. lia.
      * unfold mget at 2. rewrite Hi. cbn [option_map].
        now apply (mget_no_row m out).
Qed.

(** X19: for a diagonal index from -1 on, the method 'between' writes the
    fill value exactly on the entries [(i, j)] with [j < n] and
    [i - d <= j <= i + d]. *)
Theorem fill_diagonally_between {A : Type}
    (byte_index_put : matrix A -> matrix Z -> A -> result (matrix A))
    (m : matrix A) (d : Z) (v : A) :
  (-1 <= d)%Z ->
  exists out : matrix A,
    fill_diagonally_ byte_index_put m d v "between" = Ok out
    /\ forall i j : nat,
         mget out i j
         = option_map
             (fun x => if ((Z.of_nat j <? Z.of_nat (length m))
                           && (Z.of_nat i - d <=? Z.of_nat j)
                           && (Z.of_nat j <=? Z.of_nat i + d))%Z
                       then v else x)
             (mget m i j).
Proof.
  intros Hd. set (n := Z.of_nat (length m)).
  destruct (fill_rows_entries "between" d v m
              (fun i => (Z.min n (Z.max (i - d) 0),
                         Z.min n (Z.min (i + d + 1) n))%Z))
    as [out [Hout [Hlen [_ Hent]]]].
  - intros i. reflexivity.
  - intros i. cbn [fst]. lia.
  - exists out. split; [exact Hout |]. intros i j.
    destruct (nth_error m i) as [row |] eqn:Hi.
    + rewrite (Hent i j row Hi), (mget_row m i j row Hi).
      apply option_map_ext_eq. intros x. cbv zeta. cbn [fst snd].
      destruct (Z.ltb_spec (Z.min n (Z.min (Z.of_nat i + d + 1) n)) 0);
        [lia |].
      same_condition.
      rewrite !andb_true_iff, !Z.leb_le, !Z.ltb_lt. lia.
    + unfold mget at 2. rewrite Hi. cbn [option_map].
      now apply (mget_no_row m out).
Qed.

Lemma fill_diagonally_between_witness :
  (-1 <= 1)%Z
  /\ exists out : matrix Z,
       fill_diagonally_ mask_index_put [[1; 2; 3]; [4; 5; 6]; [7; 8; 9]]%Z 1 0%Z "between"
       = Ok out
       /\ forall i j : nat,
            mget out i j
            = option_map
                (fun x => if ((Z.of_nat j
                               <? Z.of_nat (length [[1; 2; 3]; [4; 5; 6];
                                                    [7; 8; 9]]%Z))
                              && (Z.of_nat i - 1 <=? Z.of_nat j)
                              && (Z.of_nat j <=? Z.of_nat i + 1))%Z
                          then 0%Z else x)
                (mget [[1; 2; 3]; [4; 5; 6]; [7; 8; 9]]%Z i j).
Proof.
  assert (H : (-1 <= 1)%Z) by lia.
  split; [exact H |].
  exact (fill_diagonally_between mask_index_put [[1; 2; 3]; [4; 5; 6]; [7; 8; 9]]%Z 1 0%Z H).
Defined.

(** X20: for a diagonal index below -1 the right bound of the method
    'between' is negative in the rows [i < -d - 1] and counts from the
    end of the row: the row is filled from column [min(n, i - d)] up to,
    not including, column [c + i + d + 1], where [c] is its length. *)
Theorem fill_diagonally_between_wraps {A : Type}
    (byte_index_put : matrix A -> matrix Z -> A -> result (matrix A))
    (m : matrix A) (d : Z) (v : A) :
  (d < -1)%Z ->
  exists out : matrix A,
    fill_diagonally_ byte_index_put m d v "between" = Ok out
    /\ forall (i j : nat) (row : list A),
         nth_error m i = Some row ->
         (Z.of_nat i < - d - 1)%Z ->
         mget out i j
         = option_map
             (fun x => if ((Z.min (Z.of_nat (length m)) (Z.of_nat i - d)
                            <=? Z.of_nat j)
                           && (Z.of_nat j
                               <? Z.of_nat (length row) + Z.of_nat i + d + 1))%Z
                       then v else x)
             (nth_error row j).
Proof.
  intros Hd. set (n := Z.of_nat (length m)).
  destruct (fill_rows_entries "between" d v m
              (fun i => (Z.min n (Z.max (i - d) 0),
                         Z.min n (Z.min (i + d + 1) n))%Z))
    as [out [Hout [Hlen [_ Hent]]]].
  - intros i. reflexivity.
  - intros i. cbn [fst]. lia.
  - exists out. split; [exact Hout |]. intros i j row Hi Hrow.
    rewrite (Hent i j row Hi).
    apply option_map_ext_eq. intros x. cbv zeta. cbn [fst snd].
    destruct (Z.ltb_spec (Z.min n (Z.min (Z.of_nat i + d + 1) n)) 0);
      [| lia].
    same_condition.
    rewrite !andb_true_iff, !Z.leb_le, !Z.ltb_lt. lia.
Qed.

Lemma fill_diagonally_between_wraps_witness :
  exists out : matrix Z,
    fill_diagonally_ mask_index_put [[1; 2; 3; 4]; [5; 6; 7; 8]; [9; 10; 11; 12];
                      [13; 14; 15; 16]]%Z (-2) 0%Z "between" = Ok out
    /\ mget out 0 2 = Some 0%Z.
Proof.
  assert (Hd : (-2 < -1)%Z) by lia.
  destruct (fill_diagonally_between_wraps mask_index_put
              [[1; 2; 3; 4]; [5; 6; 7; 8]; [9; 10; 11; 12];
               [13; 14; 15; 16]]%Z (-2) 0%Z Hd) as [out [Hout Hent]].
  exists out. split; [exact Hout |].
  assert (Hrow : nth_error [[1; 2; 3; 4]; [5; 6; 7; 8]; [9; 10; 11; 12];
                            [13; 14; 15; 16]]%Z 0 = Some [1; 2; 3; 4]%Z)
    by reflexivity.
  assert (Hi : (Z.of_nat 0 < - -2 - 1)%Z) by (cbn; lia).
  exact (Hent 0%nat 2%nat [1; 2; 3; 4]%Z Hrow Hi).
Defined.

Lemma index_put2_rect {A : Type} (r c : nat) (m : matrix A)
    (bm : matrix bool) (v : A) :
  has_shape r c m -> has_shape r c bm ->
  exists out : matrix A,
    index_put2 0 m bm v = Ok out
    /\ forall (i j : nat) (x : A) (b : bool),
         mget m i j = Some x -> mget bm i j = Some b ->
         mget out i j = Some (if b then v else x).
Proof.
  intros Hm Hbm. unfold index_put2.
  rewrite (same_shape2_true r c m bm Hm Hbm). eexists. split; [reflexivity |].
  intros i j x b Hx Hb. exact (mget_map_combine m bm v i j x b Hx Hb).
Qed.

(** X21: where torch reads a [uint8] tensor used as an index as a
    boolean mask, the method 'symmetric' on an r-by-c matrix, for a
    diagonal index that is not negative, writes the fill value exactly on
    the entries [(i, j)] at distance at least [d] from the diagonal, and
    on every column from [r] on. *)
Theorem fill_diagonally_symmetric {A : Type}
    (byte_index_put : matrix A -> matrix Z -> A -> result (matrix A))
    (r c : nat) (m : matrix A) (d : Z) (v : A) :
  (forall (m' : matrix A) (mask : matrix Z) (v' : A),
      byte_index_put m' mask v' = mask_index_put m' mask v') ->
  has_shape r c m -> (0 <= d)%Z ->
  exists out : matrix A,
    fill_diagonally_ byte_index_put m d v "symmetric" = Ok out
    /\ forall (i j : nat) (x : A),
         mget m i j = Some x ->
         mget out i j
         = Some (if ((Z.of_nat r <=? Z.of_nat j)
                     || (d <=? Z.abs (Z.of_nat i - Z.of_nat j)))%Z
                 then v else x).
Proof.
  intros Hbyte Hm Hd. unfold fill_diagonally_.
  cbn [String.eqb Ascii.eqb Bool.eqb].
  change (nmap (fun _ : A => 1%Z) 2 m) with (map (map (fun _ : A => 1%Z)) m).
  set (ones := map (map (fun _ : A => 1%Z)) m).
  assert (Hones : has_shape r c ones) by (apply has_shape_map; exact Hm).
  set (n := Z.of_nat (length ones)).
  destruct (fill_rows_entries "between" (d - 1) 0%Z ones
              (fun i => (Z.min n (Z.max (i - (d - 1)) 0),
                         Z.min n (Z.min (i + (d - 1) + 1) n))%Z))
    as [mask [Hmask [Hlen [Hshape Hent]]]].
  - intros i. reflexivity.
  - intros i. cbn [fst]. lia.
  - rewrite Hmask. cbn [bind]. rewrite Hbyte. unfold mask_index_put.
    assert (Hbm : has_shape r c (nmap (fun x => negb (x =? 0)%Z) 2 mask)).
    { apply has_shape_map. apply Hshape. exact Hones. }
    destruct (index_put2_rect r c m _ v Hm Hbm) as [out [Hout Hput]].
    exists out. split; [exact Hout |].
    intros i j x Hx.
    assert (Hn : n = Z.of_nat r).
    { unfold n. destruct Hones as [-> _]. reflexivity. }
    assert (Hone : mget ones i j = Some 1%Z).
    { unfold ones. change (map (map (fun _ : A => 1%Z)) m)
        with (nmap (fun _ : A => 1%Z) 2 m).
      now rewrite mget_nmap, Hx. }
    destruct (nth_error ones i) as [row |] eqn:Hi.
    2:{ unfold mget in Hone. now rewrite Hi in Hone. }
    pose proof (Hent i j row Hi) as Hij.
    rewrite <- (mget_row ones i j row Hi), Hone in Hij.
    cbv zeta in Hij. cbn [fst snd option_map] in Hij.
    destruct (Z.ltb_spec
                (Z.min n (Z.min (Z.of_nat i + (d - 1) + 1) n)) 0) as [H | _];
      [lia |].
    rewrite (Hput i j x
               (negb ((if ((Z.min n (Z.max (Z.of_nat i - (d - 1)) 0)
                            <=? Z.of_nat j)
                           && (Z.of_nat j
                               <? Z.min n (Z.min (Z.of_nat i + (d - 1) + 1) n)))%Z
                       then 0 else 1) =? 0)%Z) Hx).
    2:{ now rewrite mget_nmap, Hij. }
    f_equal. same_condition.
    rewrite orb_true_iff, !Z.leb_le.
    destruct ((Z.min n (Z.max (Z.of_nat i - (d - 1)) 0) <=? Z.of_nat j)
              && (Z.of_nat j
                  <? Z.min n (Z.min (Z.of_nat i + (d - 1) + 1) n)))%Z eqn:E.
    + apply andb_true_iff in E. rewrite Z.leb_le, Z.ltb_lt in E.
      cbn. split; [lia | discriminate].
    + apply andb_false_iff in E. rewrite Z.leb_gt, Z.ltb_ge in E.
      cbn. split; [reflexivity | lia].
Qed.

Lemma fill_diagonally_symmetric_witness :
  (forall (m' : matrix Z) (mask : matrix Z) (v' : Z),
      mask_index_put m' mask v' = mask_index_put m' mask v')
  /\ has_shape 2 3 [[1; 2; 3]; [4; 5; 6]]%Z /\ (0 <= 1)%Z
  /\ exists out : matrix Z,
       fill_diagonally_ mask_index_put [[1; 2; 3]; [4; 5; 6]]%Z 1 0%Z
                        "symmetric" = Ok out
       /\ forall (i j : nat) (x : Z),
            mget [[1; 2; 3]; [4; 5; 6]]%Z i j = Some x ->
            mget out i j
            = Some (if ((Z.of_nat 2 <=? Z.of_nat j)
                        || (1 <=? Z.abs (Z.of_nat i - Z.of_nat j)))%Z
                    then 0%Z else x).
Proof.
  assert (Hb : forall (m' : matrix Z) (mask : matrix Z) (v' : Z),
             mask_index_put m' mask v' = mask_index_put m' mask v')
    by reflexivity.
  assert (Hs : has_shape 2 3 [[1; 2; 3]; [4; 5; 6]]%Z).
  { split; [reflexivity |]. repeat constructor. }
  assert (Hd : (0 <= 1)%Z) by lia.
  split; [exact Hb |]. split; [exact Hs |]. split; [exact Hd |].
  exact (fill_diagonally_symmetric mask_index_put 2 3
           [[1; 2; 3]; [4; 5; 6]]%Z 1 0%Z Hb Hs Hd).
Defined.

Lemma fold_fill_rows_raise {A : Type} (method : String.string) (n d : Z)
    (v : A) (e : exn) (l : list Z) :
  fold_left (fill_rows_step method n d v) l (Raise e) = Raise e.
Proof. induction l as [| i l IH]; [reflexivity | exact IH]. Qed.

(** X22: a fill method other than 'below', 'above', 'between' and
    'symmetric' raises [ValueError] on a matrix with at least one row, and
    is accepted without effect on a matrix with no rows. *)
Theorem fill_diagonally_invalid_method {A : Type}
    (byte_index_put : matrix A -> matrix Z -> A -> result (matrix A))
    (m : matrix A) (d : Z) (v : A) (method : String.string) :
  method <> "below"%string -> method <> "above"%string ->
  method <> "between"%string -> method <> "symmetric"%string ->
  fill_diagonally_ byte_index_put m d v method
  = match m with
    | [] => Ok []
    | _ :: _ => Raise ValueError
    end.
Proof.
  intros H1 H2 H3 H4.
  apply String.eqb_neq in H1, H2, H3, H4.
  unfold fill_diagonally_. rewrite H4. unfold fill_rows.
  destruct m as [| row m]; [reflexivity |].
  unfold range. rewrite Nat2Z.id. cbn [length seq map fold_left].
  unfold fill_rows_step at 2. cbn [bind]. unfold diagonal_bounds.
  rewrite H1, H2, H3. cbn [bind].
  apply fold_fill_rows_raise.
Qed.

Lemma fill_diagonally_invalid_method_witness :
  fill_diagonally_ mask_index_put [[1; 2]; [3; 4]]%Z 0 0%Z "diagonal" = Raise ValueError.
Proof.
  apply (fill_diagonally_invalid_method mask_index_put [[1; 2]; [3; 4]]%Z 0 0%Z "diagonal");
    discriminate.
Defined.

(** ** Chunks of a list *)

Lemma chunks_concat {A : Type} (N : nat) (c : nat) (l : list A) :
  (length l <= c * N)%nat ->
  concat (map (fun k => firstn N (skipn (k * N) l)) (seq 0 c)) = l.
Proof.
  revert l. induction c as [| c IH]; intros l Hl.
  - destruct l; [reflexivity | cbn in Hl; lia].
  - cbn [seq map concat]. rewrite <- seq_shift, map_map.
    cbn [Nat.mul skipn].
    rewrite (map_ext _ (fun k => firstn N (skipn (k * N) (skipn N l)))).
    2:{ intros k. rewrite skipn_skipn. f_equal. f_equal. lia. }
    rewrite IH by (rewrite length_skipn; lia).
    apply firstn_skipn.
Qed.

(** For a positive step, [range(0, L, n)] has [ceil(L / n)] elements, all
    below [L]. *)
Lemma chunk_count_bounds (L n : Z) :
  (0 <= L)%Z -> (0 < n)%Z ->
  let q := ((L + n - 1) / n)%Z in
  (0 <= q /\ n * (q - 1) < L <= n * q)%Z.
Proof.
  intros HL Hn q.
  pose proof (Z.mul_div_le (L + n - 1) n Hn) as H1.
  pose proof (Z.mul_succ_div_gt (L + n - 1) n Hn) as H2.
  fold q in H1, H2.
  assert (0 <= q)%Z by (apply Z.div_pos; lia).
  nia.
Qed.

Lemma chunk_unfold {A : Type} (l : list A) (n : Z) :
  (0 < n)%Z ->
  chunk l n
  = Ok (map (fun k => firstn (Z.to_nat n) (skipn (k * Z.to_nat n) l))
            (seq 0 (Z.to_nat ((Z.of_nat (length l) + n - 1) / n)))).
Proof.
  intros Hn. unfold chunk, range3.
  destruct (Z.eqb_spec n 0) as [H | _]; [lia |].
  destruct (Z.ltb_spec 0 n) as [_ | H]; [| lia].
  cbn [bind]. f_equal.
  set (L := Z.of_nat (length l)).
  destruct (chunk_count_bounds L n) as [Hq0 [Hlo Hhi]]; [lia | lia |].
  assert (Hcount : (if (0 <? L)%Z then (L - 0 + n - 1) / n else 0)%Z
                   = ((L + n - 1) / n)%Z).
  { destruct (Z.ltb_spec 0 L) as [H | H].
    - f_equal. lia.
    - assert (L = 0%Z) by lia. subst L. rewrite H0.
      symmetry. apply Z.div_small. lia. }
  rewrite Hcount, map_map.
  apply map_ext_in. intros k Hk. apply in_seq in Hk.
  assert (Hkq : (Z.of_nat k <= (L + n - 1) / n - 1)%Z) by lia.
  assert (HkL : (Z.of_nat k * n < L)%Z) by nia.
  unfold py_slice. fold L.
  destruct (Z.ltb_spec (0 + Z.of_nat k * n) 0) as [H | _]; [lia |].
  destruct (Z.ltb_spec (0 + Z.of_nat k * n + n) 0) as [H | _]; [lia |].
  replace (Z.to_nat (Z.min (0 + Z.of_nat k * n) L))
    with (k * Z.to_nat n)%nat by nia.
  destruct (Z.le_ge_cases (0 + Z.of_nat k * n + n) L) as [Hle | Hge].
  - f_equal. lia.
  - rewrite !firstn_all2; [reflexivity | |]; rewrite length_skipn; nia.
Qed.

(** X23: for a positive size [n], [chunk(l, n)] yields [ceil(len(l) / n)]
    chunks whose concatenation is [l]; no chunk is empty or longer than
    [n], and every chunk but the last has exactly [n] elements. *)
Theorem chunk_partition {A : Type} (l : list A) (n : Z) :
  (0 < n)%Z ->
  exists chunks : list (list A),
    chunk l n = Ok chunks
    /\ concat chunks = l
    /\ Z.of_nat (length chunks) = ((Z.of_nat (length l) + n - 1) / n)%Z
    /\ Forall (fun c => (0 < Z.of_nat (length c) <= n)%Z) chunks
    /\ forall (k : nat) (c : list A),
         nth_error chunks k = Some c -> (S k < length chunks)%nat ->
         Z.of_nat (length c) = n.
Proof.
  intros Hn. eexists. split; [apply (chunk_unfold l n Hn) |].
  set (L := Z.of_nat (length l)).
  destruct (chunk_count_bounds L n) as [Hq0 [Hlo Hhi]]; [lia | lia |].
  set (q := ((L + n - 1) / n)%Z) in *.
  split; [| split; [| split]].
  - apply chunks_concat. nia.
  - rewrite length_map, length_seq. lia.
  - apply Forall_forall. intros c Hc. apply in_map_iff in Hc.
    destruct Hc as [k [<- Hk]]. apply in_seq in Hk.
    rewrite length_firstn, length_skipn. nia.
  - intros k c Hk Hlt. rewrite length_map, length_seq in Hlt.
    rewrite nth_error_map, nth_error_seq in Hk.
    destruct (Nat.ltb_spec k (Z.to_nat q)) as [_ | H]; [| lia].
    cbn [option_map] in Hk. injection Hk as <-.
    rewrite length_firstn, length_skipn. nia.
Qed.

Lemma chunk_partition_witness :
  exists chunks : list (list Z),
    chunk [1; 2; 3; 4; 5]%Z 2 = Ok chunks /\ concat chunks = [1; 2; 3; 4; 5]%Z.
Proof.
  assert (Hn : (0 < 2)%Z) by lia.
  destruct (chunk_partition [1; 2; 3; 4; 5]%Z 2 Hn) as [chunks [H1 [H2 _]]].
  exists chunks. split; [exact H1 | exact H2].
Defined.

(** X24: [chunk(l, 0)] raises [ValueError] (the step of the range), and a
    negative size yields no chunk at all, whatever the list. *)
Theorem chunk_degenerate_size {A : Type} (l : list A) (n : Z) :
  (n <= 0)%Z ->
  chunk l n = if (n =? 0)%Z then Raise ValueError else Ok [].
Proof.
  intros Hn. unfold chunk, range3.
  destruct (Z.eqb_spec n 0) as [H | H]; [reflexivity |].
  destruct (Z.ltb_spec 0 n) as [H' | _]; [lia |].
  destruct (Z.ltb_spec (Z.of_nat (length l)) 0) as [H' | _]; [lia |].
  reflexivity.
Qed.

Lemma chunk_degenerate_size_witness :
  chunk [1; 2; 3]%Z (-2) = Ok [] /\ chunk [1; 2; 3]%Z 0 = Raise ValueError.
Proof.
  split.
  - apply (chunk_degenerate_size [1; 2; 3]%Z (-2)). lia.
  - apply (chunk_degenerate_size [1; 2; 3]%Z 0). lia.
Defined.

(** ** Directory splitting: what a run leaves behind *)



Section SplitDirRuns.

Variable absolute : string -> string.
Variable parent : string -> string.
Variable joinpath : string -> string -> string.
Variable shuffle : Z -> list (string * string) -> list (string * string).
Variable float_sum : list Q -> Q.
Variable float_mul : Q -> Q -> Q.

(** Rounding keeps the sign: a floating-point product of two numbers
    that are not negative is not negative. *)
Hypothesis float_mul_nonneg :
  forall x y : Q, (0 <= x)%Q -> (0 <= y)%Q -> (0 <= float_mul x y)%Q.

(** Creating the target directories never touches a file. *)
Lemma make_dirs_contents (names : list string) (s : fs) :
  contents (snd (make_dirs parent names s)) = contents s.
Proof.
  revert s. induction names as [| x names IH]; intros s; [reflexivity |].
  cbn [make_dirs]. unfold io_bind at 1. unfold path_exists.
  destruct (existsb (String.eqb x) (existing s)) eqn:Ex; [reflexivity |].
  unfold io_bind at 1. unfold mkdir. rewrite Ex.
  destruct (existsb (String.eqb (parent x)) (existing s)); [| reflexivity].
  now rewrite IH.
Qed.


(** With [move_files] the inner loop changes nothing. *)
Lemma split_loop_move (num_dirs : Z) (files : list (string * string))
    (todo : list (Z * (string * Q))) (cur : Z) (s : fs) :
  snd (split_loop joinpath float_mul num_dirs files true todo cur s) = s.
Proof.
  revert cur. induction todo as [| [i [dir prop]] todo IH]; intros cur;
    [reflexivity |].
  cbn [split_loop]. unfold io_bind.
  match goal with
  | |- context [copy_files joinpath true ?t dir s] => destruct t
  end; cbn [copy_files]; [apply IH | reflexivity].
Qed.



(** X25: with [move_files] set, [split_dir] never creates, copies or
    moves a regular file, whatever its outcome: it can only create
    target directories. *)
Theorem split_dir_move_never_copies (dir_path : string)
    (split_proportions : list Q) (dir_names : option (list string))
    (seed : Z) (s : fs) :
  contents (snd (split_dir absolute parent joinpath shuffle float_sum float_mul
              dir_path
                           split_proportions dir_names seed true s))
  = contents s.
Proof.
  unfold split_dir.
  destruct (negb (Qeq_bool (float_sum split_proportions) 1)); [reflexivity |].
  match goal with
  | |- context [make_dirs parent ?names] => set (names_ := names)
  end.
  unfold io_bind at 1.
  pose proof (make_dirs_contents names_ s) as Hc.
  destruct (make_dirs parent names_ s) as [[u | e] s1]; cbn [snd] in Hc;
    [| exact Hc].
  unfold io_bind at 1. unfold listdir_files.
  destruct (existsb (String.eqb dir_path) (existing s1)); [| exact Hc].
  rewrite split_loop_move. exact Hc.
Qed.


End SplitDirRuns.


(** ** Decoding a stack of channels *)

Lemma decode_entry_ok (bins : list bin) (vals : list Q) (v : Q) :
  bins <> [] -> length vals = length bins ->
  py_get vals (bin_entry (enumerate bins) v 0%Z)
  = Ok (nth (Z.to_nat (bin_entry (enumerate bins) v 0%Z)) vals 0%Q).
Proof.
  intros Hne Hl. apply py_get_in_range. rewrite Hl. now apply bin_entry_index.
Qed.

(** One iteration of the channel loop on a stack whose matrices are not
    empty. *)
Lemma decode_channel_step_ok (m : list (matrix Z))
    (value_mat : list (matrix Q)) (c : nat) (bins : list bin) (vals : list Q)
    (x : matrix Q) (idx : Q -> Z) (dec : Q -> Q) :
  shape1 m <> 0%nat -> shape2 m <> 0%nat ->
  get_bin_values bins = Ok vals ->
  nth_error m c = Some (nmap idx 2 x) ->
  (forall v, py_get vals (idx v) = Ok (dec v)) ->
  decode_channel_step m (Ok value_mat) (Z.of_nat c, bins)
  = Ok (list_set value_mat c (nmap dec 2 x)).
Proof.
  intros H1 H2 Hv Hc Hdec. unfold decode_channel_step. cbn [bind fst snd].
  rewrite Hv. cbn [bind].
  destruct (Nat.eqb_spec (shape1 m) 0) as [E | _]; [contradiction |].
  destruct (Nat.eqb_spec (shape2 m) 0) as [E | _]; [contradiction |].
  cbn [orb]. rewrite (py_get_nth m c _ Hc). cbn [bind].
  rewrite (nmapM_nmap_ok (py_get vals) idx dec 2 x Hdec). cbn [bind].
  now rewrite Nat2Z.id.
Qed.

(** Binning a distance of the regular bins and decoding it is off by at
    most a quarter. *)
Lemma dist_decode_error (num_bins : Z) (bins : list bin) (vals : list Q)
    (v : Q) :
  (3 <= num_bins)%Z ->
  get_dist_bins num_bins = Ok bins -> get_bin_values bins = Ok vals ->
  (4 <= v)%Q -> (v < 4 + half * (inject_Z num_bins - 2))%Q ->
  let d := nth (Z.to_nat (bin_entry (enumerate bins) v 0%Z)) vals 0%Q in
  (- (1 # 4) < d - v)%Q /\ (d - v <= 1 # 4)%Q.
Proof.
  intros H Hb Hvals Hlo Hhi.
  destruct (dist_bin_values_nth num_bins bins H Hb) as (vals' & Hv & Hl & Hn).
  assert (vals' = vals) by congruence. subst vals'.
  set (t := ((v - 4) * 2)%Q).
  pose proof (Qfloor_le t) as Hf1. pose proof (Qlt_floor t) as Hf2.
  rewrite inject_Z_plus in Hf2. change (inject_Z 1) with 1%Q in Hf2.
  set (i0 := Qfloor t) in *.
  assert (Hi0 : (0 <= i0)%Z).
  { assert (Hq : (inject_Z 0 < inject_Z (i0 + 1))%Q).
    { rewrite inject_Z_plus. change (inject_Z 0) with 0%Q.
      change (inject_Z 1) with 1%Q. unfold t in *. lra. }
    rewrite <- Zlt_Qlt in Hq. lia. }
  assert (Hi1 : (i0 < num_bins - 2)%Z).
  { rewrite Zlt_Qlt. unfold Z.sub. rewrite inject_Z_plus.
    change (inject_Z (- (2))) with (- (2))%Q. unfold t, half in *. lra. }
  set (i := Z.to_nat (i0 + 1)).
  assert (Hii : Z.of_nat i = (i0 + 1)%Z) by (unfold i; lia).
  assert (Hin : in_bin (dist_bin_at num_bins i) v).
  { pose proof (dist_bin_at_lower num_bins i H ltac:(lia)) as Hlow.
    rewrite Hii, inject_Z_plus in Hlow. change (inject_Z 1) with 1%Q in Hlow.
    split; [rewrite Hlow; unfold t, half in *; lra |].
    unfold dist_bin_at, upper.
    destruct (Nat.eqb_spec i 0); [lia |].
    destruct (Z.ltb_spec (Z.of_nat i) (num_bins - 1)); [| lia].
    cbn [snd]. rewrite Hii.
    replace (i0 + 1 - 1)%Z with i0 by lia. unfold t, half in *. lra. }
  assert (Hentry : bin_entry (enumerate bins) v 0%Z = Z.of_nat i).
  { apply bin_entry_at with (b := dist_bin_at num_bins i).
    - apply contiguous_non_overlapping;
        [exact (dist_bins_contiguous H Hb) | exact (dist_bins_ordered H Hb)].
    - apply (dist_bins_nth _ H Hb). lia.
    - exact Hin. }
  destruct (Hn i ltac:(lia)) as [d [Hd Hdv]].
  cbv zeta. rewrite Hentry, Nat2Z.id, (nth_error_nth _ _ 0%Q Hd).
  rewrite Hdv, Hii, inject_Z_plus. change (inject_Z 1) with 1%Q.
  unfold t, half in *. split; lra.
Qed.

Lemma equal_width_decoder (first span : Q) (num_bins : Z) (bins : list bin) :
  (3 <= num_bins)%Z ->
  equal_width_bins first span num_bins = Ok bins ->
  exists vals : list Q,
    get_bin_values bins = Ok vals
    /\ forall v, py_get vals (bin_entry (enumerate bins) v 0%Z)
                 = Ok (nth (Z.to_nat (bin_entry (enumerate bins) v 0%Z))
                           vals 0%Q).
Proof.
  intros H Hb.
  destruct (equal_width_bin_values first span num_bins bins H Hb)
    as (vals & Hv & Hl & _).
  exists vals. split; [exact Hv |]. intros v. apply decode_entry_ok; [| exact Hl].
  pose proof (equal_width_bins_length first span num_bins bins Hb) as Hlen.
  intros E. rewrite E in Hlen. cbn in Hlen. lia.
Qed.

(** X27: bin, then decode, a stack of the four channels (distances, omega,
    theta, phi) with [num_bins >= 3]: [binned_mat_to_values] succeeds on
    the output of [bin_dist_angle_matrix] and returns four matrices of
    the shape of the input; in the distance channel every decoded entry
    is within a quarter, half a bin width, of the distance it comes from,
    for distances in the regular bins. *)
Theorem binned_mat_to_values_round_trip (r c : nat) (x0 x1 x2 x3 : matrix Q)
    (num_bins : Z) :
  (3 <= num_bins)%Z ->
  has_shape (S r) (S c) x0 -> has_shape (S r) (S c) x1 ->
  has_shape (S r) (S c) x2 -> has_shape (S r) (S c) x3 ->
  exists (binned : list (matrix Z)) (o0 o1 o2 o3 : matrix Q),
    bin_dist_angle_matrix 2 [x0; x1; x2; x3] num_bins = Ok binned
    /\ binned_mat_to_values (mkTensor 3 binned) num_bins
       = Ok (mkTensor 3 [o0; o1; o2; o3])
    /\ Forall (has_shape (S r) (S c)) [o0; o1; o2; o3]
    /\ forall (i j : nat) (v : Q),
         mget x0 i j = Some v ->
         (4 <= v)%Q -> (v < 4 + half * (inject_Z num_bins - 2))%Q ->
         exists d : Q,
           mget o0 i j = Some d
           /\ (- (1 # 4) < d - v)%Q /\ (d - v <= 1 # 4)%Q.
Proof.
  intros H S0 S1 S2 S3.
  destruct (bin_dist_angle_matrix_channels 2 x0 x1 x2 x3 num_bins H)
    as (db & ob & tb & pb & Hd & Ho & Ht & Hp & Hbin).
  destruct (dist_bin_values_nth num_bins db H Hd) as (dv & Hdv & Hdl & _).
  assert (Hdne : db <> []).
  { pose proof (dist_bins_length H Hd) as Hlen. intros E. rewrite E in Hlen.
    cbn in Hlen. lia. }
  destruct (equal_width_decoder (-180) (2 * 180) num_bins ob H Ho)
    as (ov & Hov & Hodec).
  destruct (equal_width_decoder (-180) (2 * 180) num_bins tb H Ht)
    as (tv & Htv & Htdec).
  destruct (equal_width_decoder 0 180 num_bins pb H Hp) as (pv & Hpv & Hpdec).
  set (dec := fun (bins : list bin) (vals : list Q) (v : Q) =>
                nth (Z.to_nat (bin_entry (enumerate bins) v 0%Z)) vals 0%Q).
  eexists. exists (nmap (dec db dv) 2 x0), (nmap (dec ob ov) 2 x1),
             (nmap (dec tb tv) 2 x2), (nmap (dec pb pv) 2 x3).
  split; [exact Hbin |].
  split.
  { unfold binned_mat_to_values. rewrite Hd, Ho, Ht, Hp. cbn [bind].
    set (b := [nmap (fun v => bin_entry (enumerate db) v 0%Z) 2 x0;
               nmap (fun v => bin_entry (enumerate ob) v 0%Z) 2 x1;
               nmap (fun v => bin_entry (enumerate tb) v 0%Z) 2 x2;
               nmap (fun v => bin_entry (enumerate pb) v 0%Z) 2 x3]).
    assert (Hs1 : shape1 b <> 0%nat).
    { unfold b, shape1. destruct S0 as [Hr _].
      destruct x0 as [| row x0]; [discriminate Hr |]. discriminate. }
    assert (Hs2 : shape2 b <> 0%nat).
    { unfold b, shape2. destruct S0 as [Hr Hc].
      destruct x0 as [| row x0]; [discriminate Hr |].
      apply Forall_inv in Hc.
      destruct row as [| a row]; [discriminate Hc |]. discriminate. }
    unfold enumerate. cbn [enumerate_from fold_left Z.add Pos.add Pos.succ].
    change 0%Z with (Z.of_nat 0). change 1%Z with (Z.of_nat 1).
    change 2%Z with (Z.of_nat 2). change 3%Z with (Z.of_nat 3).
    rewrite (decode_channel_step_ok b _ 0 db dv x0 _ (dec db dv) Hs1 Hs2 Hdv
               eq_refl (fun v => decode_entry_ok db dv v Hdne Hdl)).
    rewrite (decode_channel_step_ok b _ 1 ob ov x1 _ (dec ob ov) Hs1 Hs2 Hov
               eq_refl Hodec).
    rewrite (decode_channel_step_ok b _ 2 tb tv x2 _ (dec tb tv) Hs1 Hs2 Htv
               eq_refl Htdec).
    rewrite (decode_channel_step_ok b _ 3 pb pv x3 _ (dec pb pv) Hs1 Hs2 Hpv
               eq_refl Hpdec).
    reflexivity. }
  split.
  - repeat (apply Forall_cons; [apply has_shape_map; assumption |]).
    apply Forall_nil.
  - intros i j v Hv Hlo Hhi. exists (dec db dv v).
    split; [now rewrite mget_nmap, Hv |].
    exact (dist_decode_error num_bins db dv v H Hd Hdv Hlo Hhi).
Qed.

Lemma binned_mat_to_values_round_trip_witness :
  (3 <= 26)%Z
  /\ exists (binned : list (matrix Z)) (o0 o1 o2 o3 : matrix Q),
       bin_dist_angle_matrix 2 [[[5]]; [[10]]; [[-20]]; [[30]]]%Q 26 = Ok binned
       /\ binned_mat_to_values (mkTensor 3 binned) 26
          = Ok (mkTensor 3 [o0; o1; o2; o3])
       /\ Forall (has_shape 1 1) [o0; o1; o2; o3]
       /\ (forall (i j : nat) (v : Q),
              mget [[5]]%Q i j = Some v ->
              (4 <= v)%Q -> (v < 4 + half * (inject_Z 26 - 2))%Q ->
              exists d : Q,
                mget o0 i j = Some d
                /\ (- (1 # 4) < d - v)%Q /\ (d - v <= 1 # 4)%Q).
Proof.
  assert (H : (3 <= 26)%Z) by lia.
  assert (S0 : has_shape 1 1 [[5]]%Q) by (repeat constructor).
  assert (S1 : has_shape 1 1 [[10]]%Q) by (repeat constructor).
  assert (S2 : has_shape 1 1 [[-20]]%Q) by (repeat constructor).
  assert (S3 : has_shape 1 1 [[30]]%Q) by (repeat constructor).
  split; [exact H |].
  exact (binned_mat_to_values_round_trip 0 0 [[5]]%Q [[10]]%Q [[-20]]%Q
           [[30]]%Q 26 H S0 S1 S2 S3).
Defined.

Lemma all_bins_ok (num_bins : Z) :
  (3 <= num_bins)%Z ->
  exists (db ob tb pb : list bin) (dv ov tv pv : list Q),
    get_dist_bins num_bins = Ok db /\ get_omega_bins num_bins = Ok ob
    /\ get_theta_bins num_bins = Ok tb /\ get_phi_bins num_bins = Ok pb
    /\ get_bin_values db = Ok dv /\ get_bin_values ob = Ok ov
    /\ get_bin_values tb = Ok tv /\ get_bin_values pb = Ok pv.
Proof.
  intros H.
  pose proof (get_dist_bins_unfold H) as Hd.
  match type of Hd with _ = Ok ?l => set (db := l) in Hd end.
  assert (Hne : (num_bins <> 0)%Z) by lia.
  destruct (equal_width_bins_ok (-180) (2 * 180) num_bins Hne) as [ab [Ha _]].
  destruct (equal_width_bins_ok 0 180 num_bins Hne) as [pb [Hp _]].
  destruct (dist_bin_values_nth num_bins db H Hd) as (dv & Hdv & _).
  destruct (equal_width_bin_values (-180) (2 * 180) num_bins ab H Ha)
    as (av & Hav & _).
  destruct (equal_width_bin_values 0 180 num_bins pb H Hp) as (pv & Hpv & _).
  exists db, ab, ab, pb, dv, av, av, pv. repeat split; assumption.
Qed.

(** X28: on a tensor whose rank is not 3, [binned_mat_to_values] (for
    [num_bins >= 3]) neither fails nor decodes anything: it returns the
    zero tensor of the same shape. *)
Theorem binned_mat_to_values_other_rank (n : nat) (t : nlist Z n)
    (num_bins : Z) :
  n <> 3%nat -> (3 <= num_bins)%Z ->
  binned_mat_to_values (mkTensor n t) num_bins
  = Ok (mkTensor n (nmap (fun _ : Z => 0%Q) n t)).
Proof.
  intros Hn H.
  destruct (all_bins_ok num_bins H)
    as (db & ob & tb & pb & dv & ov & tv & pv & Hd & Ho & Ht & Hp & _).
  unfold binned_mat_to_values. rewrite Hd, Ho, Ht, Hp. cbn [bind].
  destruct n as [| [| [| [| n]]]]; try reflexivity. contradiction.
Qed.

Lemma binned_mat_to_values_other_rank_witness :
  binned_mat_to_values (mkTensor 2 [[3; 7]; [0; 25]]%Z) 26
  = Ok (mkTensor 2 [[0; 0]; [0; 0]]%Q).
Proof.
  apply (binned_mat_to_values_other_rank 2 [[3; 7]; [0; 25]]%Z 26);
    [discriminate | lia].
Defined.

Lemma mapM_py_cases {A B : Type} (f : A -> result B) (l : list A) :
  (forall a, f a = Raise IndexError \/ exists b, f a = Ok b) ->
  mapM f l = Raise IndexError \/ exists bs, mapM f l = Ok bs.
Proof.
  intros Hf. induction l as [| a l IH]; [right; now exists [] |].
  cbn [mapM]. destruct (Hf a) as [-> | [b ->]]; cbn [bind]; [now left |].
  destruct IH as [-> | [bs ->]]; cbn [bind]; [now left |].
  right. now eexists.
Qed.

(** An iteration of the channel loop returns or raises [IndexError]; it
    raises when the stack lacks the channel, and it writes nothing but
    its own channel. *)
Lemma decode_channel_step_cases (m : list (matrix Z))
    (value_mat : list (matrix Q)) (c : nat) (bins : list bin)
    (vals : list Q) :
  get_bin_values bins = Ok vals ->
  shape1 m <> 0%nat -> shape2 m <> 0%nat ->
  let r := decode_channel_step m (Ok value_mat) (Z.of_nat c, bins) in
  (r = Raise IndexError
   \/ exists values : matrix Q, r = Ok (list_set value_mat c values))
  /\ ((length m <= c)%nat -> r = Raise IndexError).
Proof.
  intros Hv H1 H2. cbv zeta. unfold decode_channel_step.
  cbn [bind fst snd]. rewrite Hv. cbn [bind].
  destruct (Nat.eqb_spec (shape1 m) 0) as [E | _]; [contradiction |].
  destruct (Nat.eqb_spec (shape2 m) 0) as [E | _]; [contradiction |].
  cbn [orb]. split.
  - destruct (py_get_cases m (Z.of_nat c)) as [-> | [ch ->]]; cbn [bind];
      [now left |].
    destruct (mapM_py_cases (nmapM (py_get vals) 1) ch) as [Hr | [vs Hr]].
    + intros row. apply mapM_py_cases. intros k. apply py_get_cases.
    + left. cbn [nmapM] in Hr |- *. now rewrite Hr.
    + right. exists vs. cbn [nmapM] in Hr |- *. rewrite Hr. cbn [bind].
      now rewrite Nat2Z.id.
  - intros Hc. rewrite py_get_out_of_range by lia. reflexivity.
Qed.

Lemma fold_decode_raise (m : list (matrix Z)) (e : exn)
    (l : list (Z * list bin)) :
  fold_left (decode_channel_step m) l (Raise e) = Raise e.
Proof. induction l as [| ib l IH]; [reflexivity | exact IH]. Qed.

(** The channel loop over tables whose values exist: it raises when one
    of its channels is missing, and otherwise leaves the channels it does
    not visit as they were. *)
Lemma fold_decode_cases (m : list (matrix Z)) (tables : list (list bin)) :
  shape1 m <> 0%nat -> shape2 m <> 0%nat ->
  Forall (fun bins => exists vals, get_bin_values bins = Ok vals) tables ->
  forall (s : nat) (value_mat : list (matrix Q)),
    let r := fold_left (decode_channel_step m)
                       (enumerate_from (Z.of_nat s) tables) (Ok value_mat) in
    (r = Raise IndexError
     \/ exists out : list (matrix Q),
          r = Ok out
          /\ forall k : nat,
               (k < s \/ s + length tables <= k)%nat ->
               nth_error out k = nth_error value_mat k)
    /\ (tables <> [] -> (length m < s + length tables)%nat ->
        r = Raise IndexError).
Proof.
  intros H1 H2 Hall.
  induction Hall as [| bins tables [vals Hv] _ IH]; intros s value_mat.
  - cbn. split; [| congruence].
    right. exists value_mat. split; reflexivity.
  - cbv zeta. cbn [enumerate_from fold_left length].
    replace (Z.of_nat s + 1)%Z with (Z.of_nat (S s)) by lia.
    destruct (decode_channel_step_cases m value_mat s bins vals Hv H1 H2)
      as [[Hr | [values Hr]] Hmiss].
    + rewrite Hr, fold_decode_raise. split; [now left | reflexivity].
    + rewrite Hr.
      destruct (IH (S s) (list_set value_mat s values)) as [Hcases Hraise].
      split.
      * destruct Hcases as [Hc | [out [Hout Hkeep]]]; [now left |].
        right. exists out. split; [exact Hout |].
        intros k Hk. rewrite Hkeep by lia.
        apply nth_error_list_set_neq. lia.
      * intros _ Hlen.
        destruct (le_lt_dec (length m) s) as [Hle | Hlt].
        { rewrite (Hmiss Hle) in Hr. discriminate. }
        apply Hraise; [| lia].
        intros E. rewrite E in Hlen. cbn [length] in Hlen. lia.
Qed.

(** X29: [binned_mat_to_values] needs all four channels: on a rank-3
    stack of fewer than four matrices that are not empty it raises
    [IndexError], whatever the entries. *)
Theorem binned_mat_to_values_missing_channel (m : list (matrix Z))
    (num_bins : Z) :
  (3 <= num_bins)%Z ->
  shape1 m <> 0%nat -> shape2 m <> 0%nat -> (length m < 4)%nat ->
  binned_mat_to_values (mkTensor 3 m) num_bins = Raise IndexError.
Proof.
  intros H H1 H2 Hlen.
  destruct (all_bins_ok num_bins H)
    as (db & ob & tb & pb & dv & ov & tv & pv
        & Hd & Ho & Ht & Hp & Hdv & Hov & Htv & Hpv).
  unfold binned_mat_to_values. rewrite Hd, Ho, Ht, Hp. cbn [bind].
  assert (Hall : Forall (fun bins => exists vals, get_bin_values bins = Ok vals)
                        [db; ob; tb; pb]).
  { repeat constructor; eexists; eassumption. }
  destruct (fold_decode_cases m [db; ob; tb; pb] H1 H2 Hall 0
              (nmap (fun _ : Z => 0%Q) 3 m)) as [_ Hraise].
  assert (E : fold_left (decode_channel_step m)
                        (enumerate_from (Z.of_nat 0) [db; ob; tb; pb])
                        (Ok (nmap (fun _ : Z => 0%Q) 3 m))
              = Raise IndexError).
  { apply Hraise; [discriminate | cbn [length]; lia]. }
  match type of E with
  | ?lhs = _ =>
      change (bind lhs (fun value_mat => Ok (mkTensor 3 value_mat))
              = Raise IndexError)
  end.
  now rewrite E.
Qed.

Lemma binned_mat_to_values_missing_channel_witness :
  binned_mat_to_values (mkTensor 3 [[[3; 7]]; [[0; 25]]]%Z) 26
  = Raise IndexError.
Proof.
  apply (binned_mat_to_values_missing_channel [[[3; 7]]; [[0; 25]]]%Z 26);
    [lia | discriminate | discriminate | cbn; lia].
Defined.

(** X30: on a rank-3 stack of matrices that are not empty,
    [binned_mat_to_values] returns or raises [IndexError], never another
    exception; it decodes the first four channels only: whenever it
    returns, the channels from the fifth on are all zero. *)
Theorem binned_mat_to_values_extra_channels (m : list (matrix Z))
    (num_bins : Z) :
  (3 <= num_bins)%Z ->
  shape1 m <> 0%nat -> shape2 m <> 0%nat ->
  binned_mat_to_values (mkTensor 3 m) num_bins = Raise IndexError
  \/ exists out : list (matrix Q),
       binned_mat_to_values (mkTensor 3 m) num_bins = Ok (mkTensor 3 out)
       /\ forall k : nat,
            (4 <= k)%nat ->
            nth_error out k
            = option_map (nmap (fun _ : Z => 0%Q) 2) (nth_error m k).
Proof.
  intros H H1 H2.
  destruct (all_bins_ok num_bins H)
    as (db & ob & tb & pb & dv & ov & tv & pv
        & Hd & Ho & Ht & Hp & Hdv & Hov & Htv & Hpv).
  unfold binned_mat_to_values. rewrite Hd, Ho, Ht, Hp. cbn [bind].
  assert (Hall : Forall (fun bins => exists vals, get_bin_values bins = Ok vals)
                        [db; ob; tb; pb]).
  { repeat constructor; eexists; eassumption. }
  destruct (fold_decode_cases m [db; ob; tb; pb] H1 H2 Hall 0
              (nmap (fun _ : Z => 0%Q) 3 m)) as [Hcases _].
  cbv zeta in Hcases.
  destruct Hcases as [E | [out [E Hkeep]]].
  - left.
    match type of E with
    | ?lhs = _ =>
        change (bind lhs (fun value_mat => Ok (mkTensor 3 value_mat))
                = Raise IndexError)
    end.
    now rewrite E.
  - right. exists out. split.
    + match type of E with
      | ?lhs = _ =>
          change (bind lhs (fun value_mat => Ok (mkTensor 3 value_mat))
                  = Ok (mkTensor 3 out))
      end.
      now rewrite E.
    + intros k Hk. rewrite Hkeep by (right; cbn [length]; lia).
      cbn [nmap]. apply nth_error_map.
Qed.

Lemma binned_mat_to_values_extra_channels_witness :
  binned_mat_to_values
    (mkTensor 3 [[[1]]; [[2]]; [[3]]; [[4]]; [[5]]]%Z) 26
  = Raise IndexError
  \/ exists out : list (matrix Q),
       binned_mat_to_values
         (mkTensor 3 [[[1]]; [[2]]; [[3]]; [[4]]; [[5]]]%Z) 26
       = Ok (mkTensor 3 out)
       /\ forall k : nat,
            (4 <= k)%nat ->
            nth_error out k
            = option_map (nmap (fun _ : Z => 0%Q) 2)
                         (nth_error [[[1]]; [[2]]; [[3]]; [[4]]; [[5]]]%Z k).
Proof.
  apply (binned_mat_to_values_extra_channels
           [[[1]]; [[2]]; [[3]]; [[4]]; [[5]]]%Z 26);
    [lia | discriminate | discriminate].
Defined.
